(** * ComfyUI-Gemini-API: the two Gemini image nodes of Gemini2_0_nodes.py

    A shallow embedding of [GeminiImageGenerator] and
    [GeminiMultiImageGenerator].  Python values are modelled as follows:

    - [int] as [Z]; [str] as [string], one [ascii] per character;
      [bytes] as [list byte];
    - [float] as a binary64 [spec_float], NumPy/torch [float32] samples as a
      binary32 [spec_float], with the operations of [SpecFloat];
    - exceptions as values of [exn]; a method of the node is a function of
      the mutable state ([self.log_messages], the key file, the random
      generator, the trace of outbound API calls) returning an [outcome];
    - the libraries the node calls (google-genai, Pillow, base64) as the
      fields of a record [Libs]: each call either returns or raises. *)

From Stdlib Require Import ZArith List String Ascii Strings.Byte Bool Lia.
From Stdlib Require Import DecimalString Floats.SpecFloat.
Import ListNotations.

Open Scope string_scope.
Open Scope Z_scope.

(** ** Python strings *)

Definition LF : ascii := ascii_of_nat 10.
Definition CR : ascii := ascii_of_nat 13.

(** The escape [\n] of a Python literal. *)
Definition nl : string := String LF EmptyString.

(** [len(s)] *)
Definition len (s : string) : Z := Z.of_nat (String.length s).

(** [str(z)], also the rendering of an [int] inside an f-string. *)
Definition str_of_Z (z : Z) : string := NilZero.string_of_int (Z.to_int z).

(** [sep.join(l)] *)
Definition join (sep : string) (l : list string) : string := String.concat sep l.

(** [s[:n]] for [n >= 0]. *)
Definition slice_to (n : nat) (s : string) : string := String.substring 0 n s.

(** [str.isspace] on one character, for the code points below 256. *)
Definition isspace (c : ascii) : bool :=
  let n := nat_of_ascii c in
  ((9 <=? n) && (n <=? 13))%nat || ((28 <=? n) && (n <=? 32))%nat
  || (n =? 133)%nat || (n =? 160)%nat.

Fixpoint lstrip (s : string) : string :=
  match s with
  | EmptyString => EmptyString
  | String c s' => if isspace c then lstrip s' else s
  end.

Fixpoint rstrip (s : string) : string :=
  match s with
  | EmptyString => EmptyString
  | String c s' =>
      match rstrip s' with
      | EmptyString => if isspace c then EmptyString else String c EmptyString
      | r => String c r
      end
  end.

(** [s.strip()] *)
Definition strip (s : string) : string := rstrip (lstrip s).

(** What a file opened in text mode hands to [read()]: universal newlines
    turn ["\r\n"] and a lone ["\r"] into ["\n"]. *)
Fixpoint universal_newlines (s : string) : string :=
  match s with
  | EmptyString => EmptyString
  | String c s' =>
      if Ascii.eqb c CR then
        match s' with
        | String c' s'' =>
            if Ascii.eqb c' LF then String LF (universal_newlines s'')
            else String LF (universal_newlines s')
        | EmptyString => String LF EmptyString
        end
      else String c (universal_newlines s')
  end.

(** [needle in s] *)
Definition contains (needle s : string) : Prop :=
  exists pre post, s = pre ++ needle ++ post.

Fixpoint containsb (needle s : string) : bool :=
  String.prefix needle s ||
  match s with
  | EmptyString => false
  | String _ s' => containsb needle s'
  end.

(** ** Python bytes *)

Definition bytes := list byte.

Definition hex_digit (n : N) : ascii :=
  match n with
  | 0%N => "0" | 1%N => "1" | 2%N => "2" | 3%N => "3" | 4%N => "4"
  | 5%N => "5" | 6%N => "6" | 7%N => "7" | 8%N => "8" | 9%N => "9"
  | 10%N => "a" | 11%N => "b" | 12%N => "c" | 13%N => "d" | 14%N => "e"
  | _ => "f"
  end%char.

(** [f'{b:02x}'] *)
Definition hex2 (b : byte) : string :=
  let n := Byte.to_N b in
  String (hex_digit (N.div n 16)) (String (hex_digit (N.modulo n 16)) EmptyString).

(** ** Floating point *)

(** Python [float]: binary64. *)
Definition f64 := spec_float.
(** NumPy and torch [float32]: binary32. *)
Definition f32 := spec_float.

Definition f64_of_Z (z : Z) : f64 := binary_normalize 53 1024 z 0 false.
Definition f32_of_Z (z : Z) : f32 := binary_normalize 24 128 z 0 false.

(** The cast of a Python [float] to [float32], round to nearest even. *)
Definition f32_of_f64 (x : f64) : f32 :=
  match x with
  | S754_finite s m e => binary_round 24 128 s m e
  | other => other
  end.

(** The literal [0.2]: the binary64 number nearest to one fifth. *)
Definition f64_0_2 : f64 := S754_finite false 7205759403792794 (-55).

(** The literal [255.0]. *)
Definition f64_255 : f64 := f64_of_Z 255.

(** ** Exceptions and outcomes *)

(** A raised exception: its class and [str(e)]. *)
Record exn := mk_exn { exn_type : string; exn_str : string }.

Inductive outcome (A : Type) : Type :=
| Ret (a : A)
| Raise (e : exn).
Arguments Ret {A} a.
Arguments Raise {A} e.

Definition obind {A B} (o : outcome A) (f : A -> outcome B) : outcome B :=
  match o with
  | Ret a => f a
  | Raise e => Raise e
  end.

(** [a / b] on two [int]s: the correctly rounded binary64 quotient. *)
Definition int_operand (z : Z) : spec_float :=
  match z with
  | Z0 => S754_zero false
  | Zpos p => S754_finite false p 0
  | Zneg p => S754_finite true p 0
  end.

Definition int_true_div (a b : Z) : outcome f64 :=
  if b =? 0 then Raise (mk_exn "ZeroDivisionError" "division by zero")
  else
    match SFdiv 53 1024 (int_operand a) (int_operand b) with
    | S754_infinity _ =>
        Raise (mk_exn "OverflowError" "integer division result too large for a float")
    | q => Ret q
    end.

(** ** Arrays and tensors *)

(** An [ndarray] or a [torch.Tensor]: shape and the elements in row-major
    order. *)
Record ndarray (A : Type) := mk_ndarray { shape : list Z; elems : list A }.
Arguments mk_ndarray {A} shape elems.
Arguments shape {A} n.
Arguments elems {A} n.

Definition tensor := ndarray f32.

Definition numel (shp : list Z) : nat := Z.to_nat (fold_right Z.mul 1 shp).

(** [np.ones(shp, dtype=np.float32)] *)
Definition np_ones (shp : list Z) : outcome (ndarray f32) :=
  if existsb (fun d => d <? 0) shp
  then Raise (mk_exn "ValueError" "negative dimensions are not allowed")
  else Ret (mk_ndarray shp (repeat (f32_of_Z 1) (numel shp))).

(** [a * x] for a [float32] array and a Python [float]. *)
Definition mul_scalar (a : ndarray f32) (x : f64) : ndarray f32 :=
  mk_ndarray (shape a) (map (fun v => SFmul 24 128 v (f32_of_f64 x)) (elems a)).

(** [a / x] for a [float32] array and a Python [float]. *)
Definition div_scalar (a : ndarray f32) (x : f64) : ndarray f32 :=
  mk_ndarray (shape a) (map (fun v => SFdiv 24 128 v (f32_of_f64 x)) (elems a)).

(** [a.astype(np.float32)] for a [uint8] array. *)
Definition astype_float32 (a : ndarray byte) : ndarray f32 :=
  mk_ndarray (shape a) (map (fun b => f32_of_Z (Z.of_N (Byte.to_N b))) (elems a)).

(** [torch.from_numpy(a).unsqueeze(0)] *)
Definition unsqueeze0 {A} (a : ndarray A) : ndarray A :=
  mk_ndarray (1 :: shape a) (elems a).

(** [t[0]] *)
Definition first_item {A} (t : ndarray A) : ndarray A :=
  mk_ndarray (tl (shape t)) (firstn (numel (tl (shape t))) (elems t)).

(** The rendering of [tensor.shape] inside an f-string. *)
Definition str_of_shape (shp : list Z) : string :=
  "torch.Size([" ++ join ", " (map str_of_Z shp) ++ "])".

(** ** Pillow images *)

(** Decoded pixel data: the sample at row [y], column [x], band [c]. *)
Definition raster := Z -> Z -> Z -> byte.

(** A [PIL.Image.Image].  Pillow decodes lazily: [im_load] is what loading
    the pixel data gives, and raises when the file turns out to be broken. *)
Record pil_image := mk_pil_image {
  im_width : Z;
  im_height : Z;
  im_mode : string;
  im_format : option string;
  im_load : outcome raster
}.

Definition range (n : Z) : list Z := map Z.of_nat (seq 0 (Z.to_nat n)).

(** [np.array(im)] for an image in mode RGB: a [uint8] array of shape
    [(height, width, 3)]. *)
Definition np_array (im : pil_image) : outcome (ndarray byte) :=
  obind (im_load im) (fun px =>
    Ret (mk_ndarray [im_height im; im_width im; 3]
           (flat_map (fun y => flat_map (fun x => map (px y x) [0; 1; 2])
                                        (range (im_width im)))
                     (range (im_height im))))).

(** ** The remote API: requests and responses of google-genai *)

(** One element of [contents]: the dict [{"inline_data": {"mime_type": m,
    "data": d}}] or the dict [{"text": t}]. *)
Inductive req_part :=
| InlineData (mime_type : string) (data : bytes)
| Text (text : string).

(** [contents] is a plain string or a list of parts. *)
Inductive contents :=
| ContentsStr (s : string)
| ContentsParts (ps : list req_part).

(** [types.GenerateContentConfig] *)
Record GenerateContentConfig := mk_config {
  cfg_temperature : f64;
  cfg_seed : Z;
  cfg_response_modalities : list string
}.

(** The arguments of one [client.models.generate_content] call. *)
Record request := mk_request {
  req_model : string;
  req_contents : contents;
  req_config : GenerateContentConfig
}.

(** The text the request carries. *)
Definition part_texts (p : req_part) : list string :=
  match p with
  | Text t => [t]
  | InlineData _ _ => []
  end.

Definition contents_texts (c : contents) : list string :=
  match c with
  | ContentsStr s => [s]
  | ContentsParts ps => flat_map part_texts ps
  end.

Definition request_texts (r : request) : list string :=
  contents_texts (req_contents r).

(** [types.Blob], [types.Part], [types.Content], [types.Candidate] and
    [types.GenerateContentResponse]: every field is optional. *)
Record blob := mk_blob { data : option bytes; mime_type : option string }.
Record part := mk_part { text : option string; inline_data : option blob }.
Record content := mk_content { parts : option (list part) }.
Record candidate := mk_candidate { cand_content : option content }.
Record response := mk_response { candidates : option (list candidate) }.

(** [genai.Client(api_key=k)] *)
Record client := mk_client { client_api_key : string }.

(** ** The libraries behind the node *)

(** What the node asks of code outside the repository.  A call returns
    ([Ret]) or raises an [Exception] ([Raise]); where the shape of the result
    is fixed by the library (the size of a resized image, the mode of a
    converted one), only the pixel data is left to the library. *)
Record Libs := mk_Libs {
  (** a [float] inside an f-string *)
  str_of_float : f64 -> string;
  (** [genai.Client(api_key=k)]: the exception it raises, if any *)
  genai_Client_error : string -> option exn;
  (** [client.models.generate_content(model=, contents=, config=)] *)
  generate_content : client -> request -> outcome response;
  (** [b.decode('utf-8', errors='ignore')] *)
  decode_utf8_ignore : bytes -> string;
  (** [base64.b64decode(s)] *)
  b64decode : string -> outcome bytes;
  (** [Image.open(BytesIO(b))] *)
  Image_open : bytes -> outcome pil_image;
  (** the pixel data of [im.convert(mode)] *)
  convert_pixels : pil_image -> string -> outcome raster;
  (** the pixel data of [im.resize((w, h), Image.Resampling.LANCZOS)] *)
  resize_LANCZOS_pixels : pil_image -> Z -> Z -> outcome raster;
  (** [Image.fromarray(a)] *)
  Image_fromarray : ndarray byte -> outcome pil_image;
  (** [im.save(buf, format='PNG')] followed by reading [buf] back *)
  save_PNG : pil_image -> outcome bytes;
  (** the C cast behind [a.astype(np.uint8)], on one [float32] sample *)
  cast_uint8 : f32 -> byte
}.

(** [im.convert(mode)]: same size, the new mode, no format. *)
Definition Image_convert (L : Libs) (im : pil_image) (mode : string)
  : outcome pil_image :=
  obind (convert_pixels L im mode) (fun px =>
    Ret (mk_pil_image (im_width im) (im_height im) mode None (Ret px))).

(** [im.resize((w, h), Image.Resampling.LANCZOS)]: the requested size, the
    same mode, no format. *)
Definition Image_resize_LANCZOS (L : Libs) (im : pil_image) (w h : Z)
  : outcome pil_image :=
  obind (resize_LANCZOS_pixels L im w h) (fun px =>
    Ret (mk_pil_image w h (im_mode im) None (Ret px))).

(** [a.astype(np.uint8)] *)
Definition astype_uint8 (L : Libs) (a : ndarray f32) : ndarray byte :=
  mk_ndarray (shape a) (map (cast_uint8 L) (elems a)).

(** ** The state of a node and of its surroundings *)

Record state := mk_state {
  (** [self.log_messages] *)
  log_messages : list string;
  (** the content of [gemini_api_key.txt]; [None] when the file is absent *)
  key_file : option string;
  (** what writing a string to the key file raises, if anything, and what
      the file holds after the failure *)
  key_file_write_failure : string -> option (exn * option string);
  (** the exception that opening and reading the key file raises, if any *)
  key_file_read_error : option exn;
  (** the draws of the random generator and how many were consumed *)
  rng : nat -> Z;
  rng_pos : nat;
  (** the requests handed to [generate_content] so far, oldest first *)
  api_calls : list request
}.

Definition set_log (st : state) (l : list string) : state :=
  mk_state l (key_file st) (key_file_write_failure st) (key_file_read_error st)
           (rng st) (rng_pos st) (api_calls st).

Definition set_key_file (st : state) (c : option string) : state :=
  mk_state (log_messages st) c (key_file_write_failure st) (key_file_read_error st)
           (rng st) (rng_pos st) (api_calls st).

Definition set_rng_pos (st : state) (n : nat) : state :=
  mk_state (log_messages st) (key_file st) (key_file_write_failure st)
           (key_file_read_error st) (rng st) n (api_calls st).

Definition set_api_calls (st : state) (l : list request) : state :=
  mk_state (log_messages st) (key_file st) (key_file_write_failure st)
           (key_file_read_error st) (rng st) (rng_pos st) l.

(** ** The monad of node methods: state and exceptions *)

Definition M (A : Type) : Type := state -> outcome A * state.

Definition ret {A} (a : A) : M A := fun st => (Ret a, st).

Definition raise {A} (e : exn) : M A := fun st => (Raise e, st).

Definition bind {A B} (m : M A) (f : A -> M B) : M B :=
  fun st =>
    match m st with
    | (Ret a, st') => f a st'
    | (Raise e, st') => (Raise e, st')
    end.

(** [try: m  except Exception as e: h e] *)
Definition try_except {A} (m : M A) (h : exn -> M A) : M A :=
  fun st =>
    match m st with
    | (Ret a, st') => (Ret a, st')
    | (Raise e, st') => h e st'
    end.

(** A library call: its outcome, the state untouched. *)
Definition lift {A} (o : outcome A) : M A := fun st => (o, st).

Declare Scope py_scope.
Delimit Scope py_scope with py.
Notation "x <- m ;; k" := (bind m (fun x => k))
  (at level 100, m at next level, right associativity) : py_scope.
Notation "m ;; k" := (bind m (fun _ => k))
  (at level 100, right associativity) : py_scope.
Open Scope py_scope.

(** ** Methods shared by the two classes

    [log], [get_api_key] and [generate_empty_image] have the same text in
    [GeminiImageGenerator] and in [GeminiMultiImageGenerator]. *)

(** [self.log(message)] *)
Definition log (message : string) : M string :=
  fun st => (Ret message, set_log st (log_messages st ++ [message])).

(** [self.log_messages = []] *)
Definition reset_log : M unit := fun st => (Ret tt, set_log st []).

(** [self.log_messages], read. *)
Definition get_log : M (list string) := fun st => (Ret (log_messages st), st).

(** [with open(self.key_file, "w") as f: f.write(s)]: the file holds the
    text as it was written (on POSIX nothing is translated on the way to the
    disk). *)
Definition write_key_file (s : string) : M unit :=
  fun st =>
    match key_file_write_failure st s with
    | Some (e, left_behind) => (Raise e, set_key_file st left_behind)
    | None => (Ret tt, set_key_file st (Some s))
    end.

(** [os.path.exists(self.key_file)] *)
Definition key_file_exists : M bool :=
  fun st => (Ret (match key_file st with Some _ => true | None => false end), st).

(** [with open(self.key_file, "r") as f: f.read()] *)
Definition read_key_file : M string :=
  fun st =>
    match key_file_read_error st, key_file st with
    | Some e, _ => (Raise e, st)
    | None, Some c => (Ret (universal_newlines c), st)
    | None, None =>
        (Raise (mk_exn "FileNotFoundError" "No such file or directory"), st)
    end.

Definition get_api_key (user_input_key : string) : M string :=
  if negb (user_input_key =? "")%string && (10 <? len user_input_key) then
    log "Using user input API key";;
    try_except
      (write_key_file user_input_key;;
       log "API key saved to node directory";;
       ret tt)
      (fun e => log ("Failed to save API key: " ++ exn_str e);; ret tt);;
    ret user_input_key
  else
    file_exists <- key_file_exists;;
    found <-
      (if file_exists : bool then
         try_except
           (content <- read_key_file;;
            let saved_key := strip content in
            if negb (saved_key =? "")%string && (10 <? len saved_key) then
              log "Using saved API key";;
              ret (Some saved_key)
            else ret None)
           (fun e => log ("Failed to read saved API key: " ++ exn_str e);;
                     ret None)
       else ret None);;
    match found with
    | Some saved_key => ret saved_key
    | None =>
        log "Warning: No valid API key provided";;
        ret ""
    end.

Definition generate_empty_image (width height : Z) : M tensor :=
  ones <- lift (np_ones [height; width; 3]);;
  let empty_image := mul_scalar ones f64_0_2 in
  let tensor := unsqueeze0 empty_image in
  log ("Created ComfyUI compatible empty image: shape="
         ++ str_of_shape (shape tensor) ++ ", type=torch.float32");;
  ret tensor.

(** [random.randint(a, b)]: [a] plus a draw of the generator below
    [b - a + 1]; the next draw of the stream is reduced into that range. *)
Definition randbelow (n : Z) : M Z :=
  fun st => (Ret (rng st (rng_pos st) mod n), set_rng_pos st (S (rng_pos st))).

Definition random_randint (a b : Z) : M Z :=
  r <- randbelow (b - a + 1);;
  ret (a + r).

(** A [for] loop whose body may [return]: the body maps the loop-carried
    locals to [inl] of their new values, or to [inr] of the value returned. *)
Fixpoint for_each {X S R} (body : X -> S -> M (S + R)) (xs : list X) (s : S)
  : M (S + R) :=
  match xs with
  | [] => ret (inl s)
  | x :: xs' =>
      r <- body x s;;
      match r with
      | inl s' => for_each body xs' s'
      | inr v => ret (inr v)
      end
  end.

(** Renderings inside f-strings. *)
Definition str_of_bool (b : bool) : string := if b then "True" else "False".

Definition str_of_opt (o : option string) : string :=
  match o with Some s => s | None => "None" end.

Definition str_of_type (d : option bytes) : string :=
  match d with Some _ => "<class 'bytes'>" | None => "<class 'NoneType'>" end.

(** [len(d) if d else 0] *)
Definition len_or_0 (d : option bytes) : Z :=
  match d with Some b => Z.of_nat (List.length b) | None => 0 end.

(** [BytesIO(d)] read whole: [BytesIO(None)] is an empty buffer. *)
Definition buffer_of (d : option bytes) : bytes :=
  match d with Some b => b | None => [] end.

Definition f64_one : f64 := f64_of_Z 1.

(** The [if aspect_ratio > 1 / elif aspect_ratio < 1 / else] of both entry
    operations. *)
Definition orientation_of (aspect_ratio : f64) : string :=
  if SFltb f64_one aspect_ratio then "landscape (horizontal)"
  else if SFltb aspect_ratio f64_one then "portrait (vertical)"
  else "square".

(** The f-string [simple_prompt] of both entry operations. *)
Definition simple_prompt_of (prompt orientation : string) (width height : Z) : string :=
  "Create a detailed image of: " ++ prompt ++ ". Generate the image in "
  ++ orientation ++ " orientation with exact dimensions of "
  ++ str_of_Z width ++ "x" ++ str_of_Z height
  ++ " pixels. Ensure the composition fits properly within these dimensions without stretching or distortion.".

Definition model_id : string := "models/gemini-2.0-flash-exp".

Definition no_key_message : string :=
  "Error: No valid API key provided. Please enter an API key in the node or ensure a key has been saved.".

Definition no_key_text : string :=
  "## Error" ++ nl ++ no_key_message ++ nl ++ nl ++ "## Instructions" ++ nl
  ++ "1. Enter your Google API key in the node" ++ nl
  ++ "2. The key will be automatically saved to the node directory, so you won't need to enter it next time".

Definition no_image_or_text : string := "API did not return any image or text".

(** ["## Processing Log\n" + "\n".join(self.log_messages) + "\n\n## API Response\n" + response_text] *)
Definition response_report (logs : list string) (response_text : string) : string :=
  "## Processing Log" ++ nl ++ join nl logs ++ nl ++ nl ++ "## API Response" ++ nl
  ++ response_text.

(** ["## Processing Log\n" + "\n".join(self.log_messages) + "\n\n## Error\n" + error_message] *)
Definition error_report (logs : list string) (error_message : string) : string :=
  "## Processing Log" ++ nl ++ join nl logs ++ nl ++ nl ++ "## Error" ++ nl
  ++ error_message.

Section Nodes.

Variable L : Libs.

(** [genai.Client(api_key=k)] *)
Definition genai_Client (k : string) : M client :=
  match genai_Client_error L k with
  | Some e => raise e
  | None => ret (mk_client k)
  end.

(** [client.models.generate_content(model=m, contents=c, config=g)]: the
    request joins the trace, the service answers or the call raises. *)
Definition models_generate_content (c : client) (r : request) : M response :=
  fun st => (generate_content L c r, set_api_calls st (api_calls st ++ [r])).

(** The seed block of both entry operations. *)
Definition handle_seed (seed : Z) : M Z :=
  if seed =? 0 then
    seed <- random_randint 1 (2 ^ 31 - 1);;
    log ("Generated random seed value: " ++ str_of_Z seed);;
    ret seed
  else
    log ("Using specified seed value: " ++ str_of_Z seed);;
    ret seed.

(** The tensor-to-PNG lines shared by [generate_image] and [process_image]:
    [image[0].cpu().numpy()], scaling to [uint8], [Image.fromarray]. *)
Definition to_pil (image : tensor) : outcome pil_image :=
  let input_image := first_item image in
  let input_image := astype_uint8 L (mul_scalar input_image (f64_of_Z 255)) in
  Image_fromarray L input_image.

(** [len(image.shape) == 4 and image.shape[0] == 1] *)
Definition single_batch (image : tensor) : bool :=
  (Z.of_nat (List.length (shape image)) =? 4) && (hd 0 (shape image) =? 1).

(** The block "Detect Base64 encoded PNG" of both response loops: the
    [image_data] the decoding goes on with. *)
Definition sniff_base64 (image_data : option bytes) : M (option bytes) :=
  match image_data with
  | Some b =>
      if negb (Z.of_nat (List.length b) =? 0) && (8 <? Z.of_nat (List.length b)) then
        let hex_prefix := join " " (map hex2 (firstn 8 b)) in
        log ("First 8 bytes of image data: " ++ hex_prefix);;
        if String.prefix "69 56 42 4f 52" hex_prefix then
          try_except
            (log "Detected Base64 encoded PNG, decoding...";;
             let base64_str := decode_utf8_ignore L b in
             decoded <- lift (b64decode L base64_str);;
             log ("Base64 decoding successful, new data length: "
                    ++ str_of_Z (Z.of_nat (List.length decoded)));;
             ret (Some decoded))
            (fun e => log ("Base64 decoding failed: " ++ exn_str e);;
                      ret image_data)
        else ret image_data
      else ret image_data
  | None => ret image_data
  end.

(** The inner [try] of both response loops up to [img_tensor]: open, force
    RGB, resize, convert to a [float32] tensor with a batch axis. *)
Definition open_image (width height : Z) (image_data : option bytes) : M tensor :=
  pil_image <- lift (Image_open L (buffer_of image_data));;
  log ("Successfully opened image: " ++ str_of_Z (im_width pil_image) ++ "x"
         ++ str_of_Z (im_height pil_image) ++ ", format: "
         ++ str_of_opt (im_format pil_image));;
  pil_image <-
    (if negb (im_mode pil_image =? "RGB")%string
     then lift (Image_convert L pil_image "RGB")
     else ret pil_image);;
  pil_image <-
    (if negb (im_width pil_image =? width) || negb (im_height pil_image =? height)
     then lift (Image_resize_LANCZOS L pil_image width height)
     else ret pil_image);;
  arr <- lift (np_array pil_image);;
  let img_array := div_scalar (astype_float32 arr) f64_255 in
  let img_tensor := unsqueeze0 img_array in
  log ("Image successfully converted to tensor, shape: "
         ++ str_of_shape (shape img_tensor));;
  ret img_tensor.

(** The [self.log(...)] of a text part: the conditional expression spans
    the whole argument. *)
Definition log_text_part (text_content : string) : M string :=
  log (if 100 <? len text_content
       then "API returned text: " ++ slice_to 100 text_content ++ "..."
       else text_content).

(** [response.candidates[0].content.parts], iterated. *)
Definition parts_of (c : candidate) : outcome (list part) :=
  match cand_content c with
  | None => Raise (mk_exn "AttributeError" "'NoneType' object has no attribute 'parts'")
  | Some ct =>
      match parts ct with
      | None => Raise (mk_exn "TypeError" "'NoneType' object is not iterable")
      | Some ps => Ret ps
      end
  end.

(** The loop-carried locals of the response loops. *)
Record locals := mk_locals { v_response_text : string; v_image_found : bool }.

(** What an entry operation returns. *)
Definition result : Type := tensor * string.

(** *** GeminiImageGenerator *)

(** The block "Process reference image" of [generate_image]: [contents] and
    [has_reference]. *)
Definition reference_block (simple_prompt : string) (image : option tensor)
  : M (contents * bool) :=
  match image with
  | Some image =>
      try_except
        (if single_batch image then
           pil_image <- lift (to_pil image);;
           log ("Reference image processed successfully, dimensions: "
                  ++ str_of_Z (im_width pil_image) ++ "x"
                  ++ str_of_Z (im_height pil_image));;
           image_bytes <- lift (save_PNG L pil_image);;
           let img_part := InlineData "image/png" image_bytes in
           let txt_part := Text (simple_prompt ++ " Use this reference image as style guidance.") in
           log "Reference image added to request";;
           ret (ContentsParts [img_part; txt_part], true)
         else
           log ("Reference image format incorrect: " ++ str_of_shape (shape image));;
           ret (ContentsStr simple_prompt, false))
        (fun img_error =>
           log ("Reference image processing error: " ++ exn_str img_error);;
           ret (ContentsStr simple_prompt, false))
  | None => ret (ContentsStr simple_prompt, false)
  end.

(** The body of the response loop of [generate_image]. *)
Definition scan_part (width height : Z) (p : part) (v : locals)
  : M (locals + result) :=
  match text p with
  | Some text_content =>
      let response_text' := v_response_text v ++ text_content in
      log_text_part text_content;;
      ret (inl (mk_locals response_text' (v_image_found v)))
  | None =>
      match inline_data p with
      | Some inline =>
          log "Processing API returned data";;
          try_except
            (let image_data := data inline in
             let mime := mime_type inline in
             log ("Image data type: " ++ str_of_type image_data ++ ", MIME type: "
                    ++ str_of_opt mime ++ ", data length: "
                    ++ str_of_Z (len_or_0 image_data));;
             image_data <- sniff_base64 image_data;;
             try_except
               (img_tensor <- open_image width height image_data;;
                logs <- get_log;;
                let full_text := response_report logs (v_response_text v) in
                ret (inr (img_tensor, full_text)))
               (fun e =>
                  log ("Failed to open image with BytesIO: " ++ exn_str e);;
                  log "Unable to process image data, using default empty image";;
                  generate_empty_image width height;;
                  ret (inl v)))
            (fun e =>
               log ("Image processing error: " ++ exn_str e);;
               ret (inl v))
      | None => ret (inl v)
      end
  end.

(** What the lines before the remote call hand on: the client, [contents]
    and [gen_config], or the value of the early [return] when no key is
    available. *)
Definition built : Type := result + client * contents * GenerateContentConfig.

(** [generate_image], from "Get API key" to "Print request information". *)
Definition build_request (prompt api_key : string) (width height : Z)
  (temperature : f64) (seed : Z) (image : option tensor) : M built :=
  actual_api_key <- get_api_key api_key;;
  if (actual_api_key =? "")%string then
    let error_message := no_key_message in
    log error_message;;
    let full_text := no_key_text in
    img <- generate_empty_image width height;;
    ret (inl (img, full_text))
  else
    client <- genai_Client actual_api_key;;
    seed <- handle_seed seed;;
    aspect_ratio <- lift (int_true_div width height);;
    let orientation := orientation_of aspect_ratio in
    let simple_prompt := simple_prompt_of prompt orientation width height in
    let gen_config := mk_config temperature seed ["Text"; "Image"] in
    log ("Using temperature: " ++ str_of_float L temperature ++ ", seed value: "
           ++ str_of_Z seed);;
    referenced <- reference_block simple_prompt image;;
    let contents := fst referenced in
    let has_reference := snd referenced in
    log ("Requesting Gemini API to generate image, seed value: " ++ str_of_Z seed
           ++ ", includes reference image: " ++ str_of_bool has_reference);;
    ret (inr (client, contents, gen_config)).

(** The lines after the two response loops, "No image data found, but might
    have text" to the final [return]. *)
Definition finish_without_image (width height : Z) (v : locals) : M result :=
  response_text <-
    (if negb (v_image_found v) then
       log "No image data found in API response, returning text only";;
       if (v_response_text v =? "")%string then ret no_image_or_text
       else ret (v_response_text v)
     else ret (v_response_text v));;
  logs <- get_log;;
  let full_text := response_report logs response_text in
  img <- generate_empty_image width height;;
  ret (img, full_text).

(** The lines of both entry operations for a response without candidates. *)
Definition empty_response (width height : Z) : M result :=
  log "No candidates in API response";;
  logs <- get_log;;
  let full_text := join nl logs ++ nl ++ nl ++ "API returned empty response" in
  img <- generate_empty_image width height;;
  ret (img, full_text).

(** [generate_image], from "Process response" to the end of the [try]. *)
Definition interpret_response (width height : Z) (response_text : string)
  (response : response) : M result :=
  log "API response received successfully, processing...";;
  match candidates response with
  | None | Some [] => empty_response width height
  | Some (first :: _) =>
      let image_found := false in
      ps <- lift (parts_of first);;
      scanned <- for_each (scan_part width height) ps
                   (mk_locals response_text image_found);;
      match scanned with
      | inr returned => ret returned
      | inl v => finish_without_image width height v
      end
  end.

(** The [try] block of [generate_image]. *)
Definition generate_image_try (prompt api_key model : string) (width height : Z)
  (temperature : f64) (seed : Z) (image : option tensor) : M result :=
  let response_text := "" in
  b <- build_request prompt api_key width height temperature seed image;;
  match b with
  | inl returned => ret returned
  | inr (client, contents, gen_config) =>
      response <- models_generate_content client
                    (mk_request model_id contents gen_config);;
      interpret_response width height response_text response
  end.

(** The handler of the [except Exception as e] of [generate_image]. *)
Definition generate_image_except (width height : Z) (e : exn) : M result :=
  let error_message := "Error during processing: " ++ exn_str e in
  log ("Gemini image generation error: " ++ exn_str e);;
  logs <- get_log;;
  let full_text := error_report logs error_message in
  img <- generate_empty_image width height;;
  ret (img, full_text).

Definition generate_image (prompt api_key model : string) (width height : Z)
  (temperature : f64) (seed : Z) (image : option tensor) : M result :=
  reset_log;;
  try_except
    (generate_image_try prompt api_key model width height temperature seed image)
    (generate_image_except width height).

(** *** GeminiMultiImageGenerator *)

Definition process_image (image : option tensor) : M (option req_part) :=
  match image with
  | None => ret None
  | Some image =>
      try_except
        (if single_batch image then
           pil_image <- lift (to_pil image);;
           image_bytes <- lift (save_PNG L pil_image);;
           log ("Image processed successfully, dimensions: "
                  ++ str_of_Z (im_width pil_image) ++ "x"
                  ++ str_of_Z (im_height pil_image));;
           ret (Some (InlineData "image/png" image_bytes))
         else
           log ("Image format incorrect: " ++ str_of_shape (shape image));;
           ret None)
        (fun e =>
           log ("Image processing error: " ++ exn_str e);;
           ret None)
  end.

(** The loop [for idx, img in enumerate([image1, image2, image3, image4])]:
    [image_parts] and [image_count] are carried along. *)
Fixpoint collect_images (imgs : list (option tensor)) (idx : Z)
  (image_parts : list req_part) (image_count : Z) : M (list req_part * Z) :=
  match imgs with
  | [] => ret (image_parts, image_count)
  | img :: rest =>
      match img with
      | Some _ =>
          processed <- process_image img;;
          match processed with
          | Some p =>
              log ("Reference image " ++ str_of_Z (idx + 1) ++ " added to request");;
              collect_images rest (idx + 1) (image_parts ++ [p])%list (image_count + 1)
          | None => collect_images rest (idx + 1) image_parts image_count
          end
      | None => collect_images rest (idx + 1) image_parts image_count
      end
  end.

(** The body of the response loop of [generate_image_multi]. *)
Definition scan_part_multi (width height : Z) (p : part) (v : locals)
  : M (locals + result) :=
  match text p with
  | Some text_content =>
      let response_text' := v_response_text v ++ text_content in
      log_text_part text_content;;
      ret (inl (mk_locals response_text' (v_image_found v)))
  | None =>
      match inline_data p with
      | Some inline =>
          log "Processing API returned data";;
          let v := mk_locals (v_response_text v) true in
          try_except
            (let image_data := data inline in
             let mime := mime_type inline in
             log ("Image data type: " ++ str_of_type image_data ++ ", MIME type: "
                    ++ str_of_opt mime ++ ", data length: "
                    ++ str_of_Z (len_or_0 image_data));;
             image_data <- sniff_base64 image_data;;
             try_except
               (img_tensor <- open_image width height image_data;;
                logs <- get_log;;
                let full_text := response_report logs (v_response_text v) in
                ret (inr (img_tensor, full_text)))
               (fun e =>
                  log ("Failed to open image with BytesIO: " ++ exn_str e);;
                  log "Unable to process image data, using default empty image";;
                  ret (inl v)))
            (fun e =>
               log ("Image processing error: " ++ exn_str e);;
               ret (inl v))
      | None => ret (inl v)
      end
  end.

(** [generate_image_multi], from "Get API key" to "Print request
    information". *)
Definition build_request_multi (prompt api_key : string) (width height : Z)
  (temperature : f64) (seed : Z)
  (image1 image2 image3 image4 : option tensor) : M built :=
  actual_api_key <- get_api_key api_key;;
  if (actual_api_key =? "")%string then
    let error_message := no_key_message in
    log error_message;;
    let full_text := no_key_text in
    img <- generate_empty_image width height;;
    ret (inl (img, full_text))
  else
    client <- genai_Client actual_api_key;;
    seed <- handle_seed seed;;
    aspect_ratio <- lift (int_true_div width height);;
    let orientation := orientation_of aspect_ratio in
    let simple_prompt := simple_prompt_of prompt orientation width height in
    let gen_config := mk_config temperature seed ["Text"; "Image"] in
    log ("Using temperature: " ++ str_of_float L temperature ++ ", seed value: "
           ++ str_of_Z seed);;
    collected <- collect_images [image1; image2; image3; image4] 0 [] 0;;
    let image_parts := fst collected in
    let image_count := snd collected in
    let txt_part :=
      Text (if 0 <? image_count
            then simple_prompt ++ " Use these " ++ str_of_Z image_count
                 ++ " reference images as style/content guidance."
            else simple_prompt) in
    let contents := ContentsParts (image_parts ++ [txt_part])%list in
    log ("Requesting Gemini API to generate image with " ++ str_of_Z image_count
           ++ " reference images, seed value: " ++ str_of_Z seed);;
    ret (inr (client, contents, gen_config)).

(** [generate_image_multi], from "Process response" to the end of the
    [try]. *)
Definition interpret_response_multi (width height : Z) (response_text : string)
  (response : response) : M result :=
  log "API response received successfully, processing...";;
  match candidates response with
  | None | Some [] => empty_response width height
  | Some (first :: _) =>
      let image_found := false in
      ps <- lift (parts_of first);;
      scanned <- for_each (scan_part_multi width height) ps
                   (mk_locals response_text image_found);;
      match scanned with
      | inr returned => ret returned
      | inl v => finish_without_image width height v
      end
  end.

(** The [try] block of [generate_image_multi]. *)
Definition generate_image_multi_try (prompt api_key model : string)
  (width height : Z) (temperature : f64) (seed : Z)
  (image1 image2 image3 image4 : option tensor) : M result :=
  let response_text := "" in
  b <- build_request_multi prompt api_key width height temperature seed
         image1 image2 image3 image4;;
  match b with
  | inl returned => ret returned
  | inr (client, contents, gen_config) =>
      response <- models_generate_content client
                    (mk_request model_id contents gen_config);;
      interpret_response_multi width height response_text response
  end.

(** The handler of the [except Exception as e] of [generate_image_multi]. *)
Definition generate_image_multi_except (width height : Z) (e : exn) : M result :=
  let error_message := "Error during processing: " ++ exn_str e in
  log ("Gemini multi-image generation error: " ++ exn_str e);;
  logs <- get_log;;
  let full_text := error_report logs error_message in
  img <- generate_empty_image width height;;
  ret (img, full_text).

Definition generate_image_multi (prompt api_key model : string)
  (width height : Z) (temperature : f64) (seed : Z)
  (image1 image2 image3 image4 : option tensor) : M result :=
  reset_log;;
  try_except
    (generate_image_multi_try prompt api_key model width height temperature seed
       image1 image2 image3 image4)
    (generate_image_multi_except width height).

End Nodes.

(** ** A concrete instance of the libraries, for running the model

    [Image.fromarray] follows Pillow's table for [uint8] arrays: two
    dimensions give mode L, a third of size 2, 3 or 4 gives LA, RGB or
    RGBA, anything else raises [TypeError].  The decoder accepts what
    starts with the PNG signature and yields a 2 x 2 RGB image. *)

Definition png_signature : bytes := [x89; x50; x4e; x47; x0d; x0a; x1a; x0a].

Fixpoint starts_with (pre b : bytes) : bool :=
  match pre, b with
  | [], _ => true
  | x :: pre', y :: b' => Byte.eqb x y && starts_with pre' b'
  | _ :: _, [] => false
  end.

Definition sample_open (b : bytes) : outcome pil_image :=
  if starts_with png_signature b
  then Ret (mk_pil_image 2 2 "RGB" (Some "PNG") (Ret (fun _ _ _ => x80)))
  else Raise (mk_exn "UnidentifiedImageError" "cannot identify image file").

Definition sample_fromarray (a : ndarray byte) : outcome pil_image :=
  let px (w ch : Z) : raster :=
    fun y x c => nth (Z.to_nat ((y * w + x) * ch + c)) (elems a) x00 in
  match shape a with
  | [h; w] => Ret (mk_pil_image w h "L" None (Ret (px w 1)))
  | [h; w; ch] =>
      if ch =? 2 then Ret (mk_pil_image w h "LA" None (Ret (px w ch)))
      else if ch =? 3 then Ret (mk_pil_image w h "RGB" None (Ret (px w ch)))
      else if ch =? 4 then Ret (mk_pil_image w h "RGBA" None (Ret (px w ch)))
      else Raise (mk_exn "TypeError"
                    ("Cannot handle this data type: (1, 1, " ++ str_of_Z ch ++ "), |u1"))
  | _ => Raise (mk_exn "TypeError" "Cannot handle this data type")
  end.

(** Truncation towards zero, reduced modulo 256. *)
Definition sample_cast_uint8 (x : f32) : byte :=
  match x with
  | S754_finite false m e =>
      match Byte.of_N (Z.to_N (Z.shiftl (Zpos m) e mod 256)) with
      | Some b => b
      | None => x00
      end
  | _ => x00
  end.

Definition sample_libs (service : request -> outcome response)
  (unbase64 : string -> outcome bytes) : Libs :=
  mk_Libs (fun _ => "1.0")
          (fun _ => None)
          (fun _ => service)
          (fun b => string_of_list_ascii (map ascii_of_byte b))
          unbase64
          sample_open
          (fun im _ => im_load im)
          (fun im _ _ => im_load im)
          sample_fromarray
          (fun im => Ret (png_signature ++ [x00; x00; x00; x0d])%list)
          sample_cast_uint8.

(** A state to start from: no log, no key file, files writable and
    readable, a generator that draws 41 each time, no call made yet. *)
Definition fresh_state : state :=
  mk_state [] None (fun _ => None) None (fun _ => 41) 0 [].

(** ** The values the response loops compute, logging aside *)

Section Values.

Variable L : Libs.

(** The [image_data] the block "Detect Base64 encoded PNG" leaves. *)
Definition sniffed (image_data : option bytes) : option bytes :=
  match image_data with
  | Some b =>
      if negb (Z.of_nat (List.length b) =? 0) && (8 <? Z.of_nat (List.length b)) then
        if String.prefix "69 56 42 4f 52" (join " " (map hex2 (firstn 8 b))) then
          match b64decode L (decode_utf8_ignore L b) with
          | Ret decoded => Some decoded
          | Raise _ => image_data
          end
        else image_data
      else image_data
  | None => None
  end.

(** The tensor the inner [try] of the response loops computes, or the
    exception that ends it. *)
Definition decode_image (width height : Z) (image_data : option bytes)
  : outcome tensor :=
  obind (Image_open L (buffer_of image_data)) (fun im =>
  obind (if negb (im_mode im =? "RGB")%string
         then Image_convert L im "RGB" else Ret im) (fun im =>
  obind (if negb (im_width im =? width) || negb (im_height im =? height)
         then Image_resize_LANCZOS L im width height else Ret im) (fun im =>
  obind (np_array im) (fun arr =>
  Ret (unsqueeze0 (div_scalar (astype_float32 arr) f64_255)))))).

(** A part is looked at as inline data when it has no text and has
    [inline_data]. *)
Definition is_inline (p : part) : bool :=
  match text p, inline_data p with
  | None, Some _ => true
  | _, _ => false
  end.

(** What decoding an inline-data part gives; a part that is not looked at
    as inline data raises nothing and decodes to nothing. *)
Definition part_decoding (width height : Z) (p : part) : option (outcome tensor) :=
  match text p, inline_data p with
  | None, Some inline => Some (decode_image width height (sniffed (data inline)))
  | _, _ => None
  end.

(** The image a part decodes to, if it does. *)
Definition part_image (width height : Z) (p : part) : option tensor :=
  match part_decoding width height p with
  | Some (Ret t) => Some t
  | _ => None
  end.

End Values.

(** The text the parts of a response add to [response_text]. *)
Definition part_text (p : part) : string :=
  match text p with Some t => t | None => "" end.

Fixpoint texts_of (ps : list part) : string :=
  match ps with
  | [] => ""
  | p :: rest => part_text p ++ texts_of rest
  end.

(** The placeholder image: [(1, height, width, 3)], every sample the
    [float32] product of 1 and 0.2. *)
Definition placeholder (width height : Z) : tensor :=
  unsqueeze0
    (mul_scalar
       (mk_ndarray [height; width; 3] (repeat (f32_of_Z 1) (numel [height; width; 3])))
       f64_0_2).

(** The [float32] value of the literal [0.2]. *)
Definition f32_0_2 : f32 := f32_of_f64 f64_0_2.

(** [0 <= x <= 1] on [float32]. *)
Definition in_unit_interval (x : f32) : bool :=
  SFleb (S754_zero false) x && SFleb x (f32_of_Z 1).

(** The bounds [INPUT_TYPES] declares for [width] and [height]. *)
Definition declared_dim (z : Z) : Prop := 512 <= z <= 2048.

(** A state after some more log entries. *)
Definition add_logs (st : state) (msgs : list string) : state :=
  set_log st (log_messages st ++ msgs).

(** [m] run from [st] ends in an outcome and a state that satisfy [Q]. *)
Definition wp {A} (m : M A) (Q : outcome A -> state -> Prop) (st : state) : Prop :=
  Q (fst (m st)) (snd (m st)).

(** [m] returns a value whatever the state. *)
Definition returns {A} (m : M A) : Prop :=
  forall st, exists a st', m st = (Ret a, st').

(** [m] only adds log entries. *)
Definition logs_only {A} (m : M A) : Prop :=
  forall st, exists msgs, snd (m st) = add_logs st msgs.

(** The line [generate_empty_image] logs. *)
Definition empty_image_message (width height : Z) : string :=
  "Created ComfyUI compatible empty image: shape="
  ++ str_of_shape [1; height; width; 3] ++ ", type=torch.float32".


(** The seed both entry operations put into the generation configuration:
    [seed] itself, or for [seed = 0] one plus the next draw of the
    generator below [2^31 - 1]. *)
Definition seed_used (seed : Z) (st : state) : Z :=
  if seed =? 0 then 1 + rng st (rng_pos st) mod (2 ^ 31 - 1 - 1 + 1) else seed.

(** What both entry operations put into a request: the fixed model
    identifier, the configuration, and a text that starts with
    [simple_prompt]. *)
Definition well_built (prompt : string) (width height : Z) (temperature : f64)
  (seed : Z) (st : state) (r : request) : Prop :=
  req_model r = model_id /\
  req_config r = mk_config temperature (seed_used seed st) ["Text"; "Image"] /\
  exists aspect_ratio,
    int_true_div width height = Ret aspect_ratio /\
    exists t suffix,
      In t (request_texts r) /\
      t = simple_prompt_of prompt (orientation_of aspect_ratio) width height ++ suffix.

(** What the lines before the remote call establish: no call is made yet,
    and what is handed on makes a well-built request. *)
Definition built_ok (prompt : string) (width height : Z) (temperature : f64)
  (seed : Z) (st : state) (o : outcome built) (st' : state) : Prop :=
  api_calls st' = api_calls st /\
  match o with
  | Ret (inr (c, cts, cfg)) =>
      well_built prompt width height temperature seed st (mk_request model_id cts cfg)
  | _ => True
  end.

(** An entry operation run from [st] to [st'] has added to the trace only
    well-built requests. *)
Definition trace_ok (prompt : string) (width height : Z) (temperature : f64)
  (seed : Z) (st : state) (st' : state) : Prop :=
  exists new,
    api_calls st' = (api_calls st ++ new)%list /\
    Forall (well_built prompt width height temperature seed st) new.

(** The sample libraries with a service that refuses every request. *)
Definition offline_libs : Libs :=
  sample_libs (fun _ => Raise (mk_exn "ClientError" "400 INVALID_ARGUMENT"))
              (fun _ => Raise (mk_exn "binascii.Error" "Incorrect padding")).

(** The sample libraries with a service that answers every request with
    the parts [ps] in one candidate. *)
Definition answering_libs (ps : list part) : Libs :=
  sample_libs (fun _ => Ret (mk_response (Some [mk_candidate (Some (mk_content (Some ps)))])))
              (fun _ => Raise (mk_exn "binascii.Error" "Incorrect padding")).

(** A key as the user types it. *)
Definition sample_key : string := "AIzaSy-0123456789".

(** The line the inner [except] of the response loops logs first. *)
Definition open_failure_message (e : exn) : string :=
  "Failed to open image with BytesIO: " ++ exn_str e.

(** One turn of a response loop, run from [st] with locals [v] and found to
    end in [o] and [st']: [msgs] were logged; a part that decodes makes the
    loop return its image with the report of the log so far and of the text
    so far; any other part makes it go on with locals [v']; a part whose
    decoding raised has its failure in the log. *)
Definition scanned_ok (L : Libs) (width height : Z) (p : part) (v v' : locals)
  (st : state) (o : outcome (locals + result)) (st' : state) : Prop :=
  exists msgs,
    st' = add_logs st msgs /\
    o = Ret (match part_image L width height p with
             | Some t => inr (t, response_report (log_messages st ++ msgs)
                                   (v_response_text v))
             | None => inl v'
             end) /\
    forall e, part_decoding L width height p = Some (Raise e) ->
              In (open_failure_message e) msgs.

(** The locals after a part that does not decode: in [generate_image] and
    in [generate_image_multi]. *)
Definition locals_after (p : part) (v : locals) : locals :=
  mk_locals (v_response_text v ++ part_text p) (v_image_found v).

Definition locals_after_multi (L : Libs) (p : part) (v : locals) : locals :=
  mk_locals (v_response_text v ++ part_text p) (v_image_found v || is_inline p).

(** The locals of a loop after the parts [ps], none of which made it
    return; [after] gives the locals after one part. *)
Fixpoint locals_at_end (after : part -> locals -> locals) (ps : list part)
  (v : locals) : locals :=
  match ps with
  | [] => v
  | p :: rest => locals_at_end after rest (after p v)
  end.

(** The text the lines after a response loop put under "API Response". *)
Definition final_text (v : locals) : string :=
  if negb (v_image_found v) then
    if (v_response_text v =? "")%string then no_image_or_text
    else v_response_text v
  else v_response_text v.

(** The run of an entry operation from [st], whose lines before the remote
    call are [builder], gets as far as the call, and the service answers
    [resp]. *)
Definition served (L : Libs) (builder : M built) (st : state) (resp : response)
  : Prop :=
  exists c cts cfg st1,
    builder (set_log st []) = (Ret (inr (c, cts, cfg)), st1) /\
    generate_content L c (mk_request model_id cts cfg) = Ret resp.

(** The text an entry operation returned. *)
Definition returned_text (o : outcome result) : option string :=
  match o with
  | Ret (_, full_text) => Some full_text
  | Raise _ => None
  end.

(** Parts of a response, for running the loops: a text, bytes no decoder
    accepts, and bytes that start with the PNG signature. *)
Definition text_part (t : string) : part := mk_part (Some t) None.

Definition broken_part : part :=
  mk_part None (Some (mk_blob (Some [x00; x01]) (Some "image/png"))).

Definition png_part : part :=
  mk_part None (Some (mk_blob (Some (png_signature ++ [x00])%list) (Some "image/png"))).

(** What [png_part] decodes to under the sample libraries when 4 by 3 is
    asked for: every sample is 128 / 255. *)
Definition png_part_tensor : tensor :=
  mk_ndarray [1; 3; 4; 3]
    (repeat (SFdiv 24 128 (f32_of_Z 128) (f32_of_f64 f64_255)) 36).

(** A reference image with four channels: 2 by 2 opaque white RGBA pixels,
    shape [(1, 2, 2, 4)]. *)
Definition rgba_image : tensor :=
  mk_ndarray [1; 2; 2; 4] (repeat (f32_of_Z 1) 16).

(** A batch of two RGB images of 2 by 2 pixels, shape [(2, 2, 2, 3)]. *)
Definition rgb_batch : tensor :=
  mk_ndarray [2; 2; 2; 3] (repeat (f32_of_Z 1) 24).
(** ** What the key resolver settles on *)

(** The stored key [get_api_key] accepts: the content of the key file read
    back and stripped, when the file is there, can be read and holds more
    than 10 characters; the empty string otherwise. *)
Definition stored_key (st : state) : string :=
  match key_file st, key_file_read_error st with
  | Some c, None =>
      let saved_key := strip (universal_newlines c) in
      if 10 <? len saved_key then saved_key else ""
  | _, _ => ""
  end.

(** The key [get_api_key] returns. *)
Definition resolved_key (user_input_key : string) (st : state) : string :=
  if 10 <? len user_input_key then user_input_key else stored_key st.

(** What the key file holds after [get_api_key]. *)
Definition key_file_after (user_input_key : string) (st : state) : option string :=
  if 10 <? len user_input_key then
    match key_file_write_failure st user_input_key with
    | None => Some user_input_key
    | Some (_, left_behind) => left_behind
    end
  else key_file st.

(** Every character is white space for [str.strip]. *)
Fixpoint all_space (s : string) : bool :=
  match s with
  | EmptyString => true
  | String c s' => isspace c && all_space s'
  end.

(** No carriage return in [s]. *)
Fixpoint no_CR (s : string) : bool :=
  match s with
  | EmptyString => true
  | String c s' => negb (Ascii.eqb c CR) && no_CR s'
  end.

(** A state whose key file cannot be written: the attempt raises [e] and
    leaves the file as it was. *)
Definition read_only_state (e : exn) (st : state) : state :=
  mk_state (log_messages st) (key_file st) (fun _ => Some (e, key_file st))
           (key_file_read_error st) (rng st) (rng_pos st) (api_calls st).

(** ** What the request builders hand on, logging aside *)

(** The requests an invocation sends, given what the lines before the
    remote call handed on or raised. *)
Definition sent_of (o : outcome built) : list request :=
  match o with
  | Ret (inr (_, contents, gen_config)) => [mk_request model_id contents gen_config]
  | _ => []
  end.

(** The frame the two entry operations share: the log is reset, and inside
    the [try] the request is built, sent and the response interpreted. *)
Definition entry_operation (L : Libs) (builder : M built)
  (interpreter : response -> M result) (handler : exn -> M result) : M result :=
  reset_log;;
  try_except
    (b <- builder;;
     match b with
     | inl returned => ret returned
     | inr (client, contents, gen_config) =>
         response <- models_generate_content L client
                       (mk_request model_id contents gen_config);;
         interpreter response
     end)
    handler.

Section Requests.

Variable L : Libs.

(** The inline part a reference image becomes: it has to pass the shape
    test, and Pillow has to take the array and to write the PNG. *)
Definition encoded (image : tensor) : option req_part :=
  if single_batch image then
    match obind (to_pil L image) (save_PNG L) with
    | Ret image_bytes => Some (InlineData "image/png" image_bytes)
    | Raise _ => None
    end
  else None.

(** [contents] of [generate_image]. *)
Definition contents_of (image : option tensor) (simple_prompt : string) : contents :=
  match image with
  | Some image =>
      match encoded image with
      | Some img_part =>
          ContentsParts
            [img_part;
             Text (simple_prompt ++ " Use this reference image as style guidance.")]
      | None => ContentsStr simple_prompt
      end
  | None => ContentsStr simple_prompt
  end.

(** [image_parts] of [generate_image_multi]. *)
Definition image_parts_of (images : list (option tensor)) : list req_part :=
  flat_map (fun img => match img with
                       | Some image =>
                           match encoded image with
                           | Some processed => [processed]
                           | None => []
                           end
                       | None => []
                       end) images.

(** [contents] of [generate_image_multi]. *)
Definition contents_multi_of (images : list (option tensor)) (simple_prompt : string)
  : contents :=
  let image_parts := image_parts_of images in
  let image_count := Z.of_nat (List.length image_parts) in
  ContentsParts
    (image_parts ++
     [Text (if 0 <? image_count
            then simple_prompt ++ " Use these " ++ str_of_Z image_count
                 ++ " reference images as style/content guidance."
            else simple_prompt)])%list.

(** The lines before the remote call get as far as the seed block: a key
    was found and the client was created. *)
Definition reaches_seed (api_key : string) (st : state) : bool :=
  negb (resolved_key api_key st =? "")%string &&
  match genai_Client_error L (resolved_key api_key st) with
  | None => true
  | Some _ => false
  end.

(** How many draws of the generator are consumed once those lines are
    through. *)
Definition rng_pos_after (api_key : string) (seed : Z) (st : state) : nat :=
  if reaches_seed api_key st && (seed =? 0) then S (rng_pos st) else rng_pos st.

(** What the lines before the remote call hand on or raise; [cts] makes
    [contents] of [simple_prompt]. *)
Definition built_with (cts : string -> contents) (prompt api_key : string)
  (width height : Z) (temperature : f64) (seed : Z) (st : state) : outcome built :=
  let actual_api_key := resolved_key api_key st in
  if (actual_api_key =? "")%string then
    obind (np_ones [height; width; 3]) (fun _ =>
      Ret (inl (placeholder width height, no_key_text)))
  else
    match genai_Client_error L actual_api_key with
    | Some e => Raise e
    | None =>
        obind (int_true_div width height) (fun aspect_ratio =>
          let orientation := orientation_of aspect_ratio in
          let simple_prompt := simple_prompt_of prompt orientation width height in
          Ret (inr (mk_client actual_api_key, cts simple_prompt,
                    mk_config temperature (seed_used seed st) ["Text"; "Image"])))
    end.

(** The state of the surroundings after the lines before the remote call,
    the log aside. *)
Definition world_built (api_key : string) (seed : Z) (st : state) : state :=
  set_rng_pos (set_key_file st (key_file_after api_key st))
              (rng_pos_after api_key seed st).

End Requests.

(** The run of an entry operation from [st], whose lines before the remote
    call are [builder], gets as far as the call, and the call raises [e]. *)
Definition refused (L : Libs) (builder : M built) (st : state) (e : exn) : Prop :=
  exists c cts cfg st1,
    builder (set_log st []) = (Ret (inr (c, cts, cfg)), st1) /\
    generate_content L c (mk_request model_id cts cfg) = Raise e.

(** The text both entry operations return for a response without
    candidates. *)
Definition empty_response_text (logs : list string) : string :=
  join nl logs ++ nl ++ nl ++ "API returned empty response".

(** A service that answers every request with [resp]. *)
Definition replying_libs (resp : response) : Libs :=
  sample_libs (fun _ => Ret resp)
              (fun _ => Raise (mk_exn "binascii.Error" "Incorrect padding")).

(** A reference image of one pixel, shape [(1, 1, 1, 3)]. *)
Definition rgb_pixel : tensor := mk_ndarray [1; 1; 1; 3] (repeat (f32_of_Z 1) 3).

(** ** Casting samples back to bytes *)

(** The integer part of a float, towards zero; none for an infinity or a
    NaN. *)
Definition trunc (x : spec_float) : option Z :=
  match x with
  | S754_zero _ => Some 0
  | S754_finite s m e =>
      let magnitude := if 0 <=? e then Zpos m * 2 ^ e else Zpos m / 2 ^ (- e) in
      Some (if s then - magnitude else magnitude)
  | _ => None
  end.

(** What C fixes about the cast behind [astype(np.uint8)]: a sample whose
    integer part is a byte is cast to that byte; nothing is fixed for the
    others. *)
Definition C_cast (cast : f32 -> byte) : Prop :=
  forall x z, trunc x = Some z -> 0 <= z <= 255 -> Z.of_N (Byte.to_N (cast x)) = z.

(** The sample a byte of a decoded image becomes, [b / 255.0] in
    [float32]. *)
Definition sample_of_byte (b : byte) : f32 :=
  SFdiv 24 128 (f32_of_Z (Z.of_N (Byte.to_N b))) (f32_of_f64 f64_255).

(** The first bytes of Base64 text that encodes a PNG file: "iVBOR". *)
Definition base64_png_prefix : bytes := [x69; x56; x42; x4f; x52].

(** ** [__init__]

    The constructor has the same text in both classes.  What it asks of the
    installation is gathered in [Installed]; [self.key_file], the path of
    [gemini_api_key.txt] in the directory of the node, is the file whose
    content the state holds. *)

Record Installed := mk_Installed {
  (** [import importlib.metadata] and
      [importlib.metadata.version('google-genai')] *)
  metadata_version_genai : outcome string;
  (** [import PIL] and [PIL.__version__] *)
  import_PIL_version : outcome string;
  (** [from packaging import version]: what it raises, if anything *)
  packaging_import_error : option exn;
  (** [version.parse(a) < version.parse(b)] *)
  version_lt : string -> string -> outcome bool
}.

Definition __init__ (I : Installed) : M unit :=
  reset_log;;
  try_except
    (genai_version <- lift (metadata_version_genai I);;
     log ("Current google-genai version: " ++ genai_version);;
     try_except
       (PIL_version <- lift (import_PIL_version I);;
        log ("Current PIL/Pillow version: " ++ PIL_version);;
        ret tt)
       (fun e => log ("Unable to check PIL/Pillow version: " ++ exn_str e);; ret tt);;
     match packaging_import_error I with
     | Some e => raise e
     | None => ret tt
     end;;
     too_low <- lift (version_lt I genai_version "1.5.0");;
     (if too_low : bool then
        log "Warning: google-genai version is too low, recommend upgrading to the latest version";;
        log "Suggested command: pip install -q -U google-genai";;
        ret tt
      else ret tt);;
     try_except
       (PIL_version <- lift (import_PIL_version I);;
        too_low <- lift (version_lt I PIL_version "9.5.0");;
        if too_low : bool then
          log "Warning: PIL/Pillow version is too low, recommend upgrading to 9.5.0 or higher";;
          log "Suggested command: pip install -U Pillow>=9.5.0";;
          ret tt
        else ret tt)
       (fun _ => ret tt))
    (fun e => log ("Unable to check version information: " ++ exn_str e);; ret tt).

(** An installation where everything is found: google-genai 1.2.0, which
    is lower than 1.5.0, and Pillow 11.0.0, which is not lower than 9.5.0. *)
Definition sample_installed : Installed :=
  mk_Installed (Ret "1.2.0") (Ret "11.0.0") None
    (fun a b => Ret ((a =? "1.2.0")%string && (b =? "1.5.0")%string)).

(** An installation without the metadata of google-genai. *)
Definition bare_installed : Installed :=
  mk_Installed
    (Raise (mk_exn "PackageNotFoundError" "No package metadata was found for google-genai"))
    (Ret "11.0.0") None (fun _ _ => Ret false).

(** ** [validate_and_fix_tensor]

    The method is not called by the entry operations.  A tensor whose dtype
    is not [float32] reaches the method only through the name of its dtype
    and through what [tensor.to(dtype=torch.float32)] makes of it, which
    has the same shape and device. *)

Record float32_tensor := mk_float32_tensor {
  t_shape : list Z;
  (** [str(tensor.device)] *)
  t_device : string;
  (** [tensor.is_contiguous()] *)
  t_contiguous : bool;
  (** the elements in row-major order *)
  t_values : list f32
}.

Inductive torch_tensor :=
| Float32 (t : float32_tensor)
| OtherDtype (dtype : string) (as_float32 : float32_tensor).

Definition to_float32 (tensor : torch_tensor) : float32_tensor :=
  match tensor with
  | Float32 t => t
  | OtherDtype _ t => t
  end.

(** [str(tensor.dtype)] *)
Definition dtype_name (tensor : torch_tensor) : string :=
  match tensor with
  | Float32 _ => "torch.float32"
  | OtherDtype dtype _ => dtype
  end.

(** A tensor the node makes with [torch.from_numpy(a).unsqueeze(0)]: it
    lives on the CPU and is contiguous. *)
Definition from_numpy (t : tensor) : torch_tensor :=
  Float32 (mk_float32_tensor (shape t) "cpu" true (elems t)).

Definition isnan (x : spec_float) : bool :=
  match x with
  | S754_nan => true
  | _ => false
  end.

(** The reductions [min()] and [max()] of torch: a NaN wins. *)
Definition min2 (a b : f32) : f32 :=
  if isnan a then a else if isnan b then b else if SFltb b a then b else a.

Definition max2 (a b : f32) : f32 :=
  if isnan a then a else if isnan b then b else if SFltb a b then b else a.

(** [tensor.min()] and [tensor.max()]: a tensor without elements has
    neither. *)
Definition tensor_min (values : list f32) : outcome f32 :=
  match values with
  | [] => Raise (mk_exn "RuntimeError"
                   "min(): Expected reduction dim to be specified for input.numel() == 0. Specify the reduction dim with the 'dim' argument.")
  | x :: rest => Ret (fold_left min2 rest x)
  end.

Definition tensor_max (values : list f32) : outcome f32 :=
  match values with
  | [] => Raise (mk_exn "RuntimeError"
                   "max(): Expected reduction dim to be specified for input.numel() == 0. Specify the reduction dim with the 'dim' argument.")
  | x :: rest => Ret (fold_left max2 rest x)
  end.

(** [x.item()] for a [float32]: the same number as a Python [float]. *)
Definition item (x : f32) : f64 :=
  match x with
  | S754_finite s m e => binary_round 53 1024 s m e
  | other => other
  end.

(** [torch.clamp(x, 0.0, 1.0)] on one sample: a NaN stays. *)
Definition clamp_0_1 (x : f32) : f32 :=
  if isnan x then x
  else if SFltb x (S754_zero false) then S754_zero false
  else if SFltb (f32_of_Z 1) x then f32_of_Z 1
  else x.

(** [tensor.contiguous()] *)
Definition contiguous (t : float32_tensor) : float32_tensor :=
  mk_float32_tensor (t_shape t) (t_device t) true (t_values t).

(** [torch.clamp(tensor, 0.0, 1.0)] *)
Definition clamp (t : float32_tensor) : float32_tensor :=
  mk_float32_tensor (t_shape t) (t_device t) (t_contiguous t)
                    (map clamp_0_1 (t_values t)).

(** [item()] widens a [float32] to a Python [float] of the same value, so
    the comparisons of [min_val] and [max_val] with 0 and 1 are made on the
    [float32].  What [traceback.print_exc()] writes to [stderr] in the
    handler is not part of the state. *)
Definition validate_and_fix_tensor (L : Libs) (tensor : option torch_tensor)
  (name : string) : M (option float32_tensor) :=
  try_except
    (match tensor with
     | None =>
         log ("Warning: " ++ name ++ " is None");;
         ret None
     | Some tensor =>
         let tensor_shape := t_shape (to_float32 tensor) in
         log ("Validating " ++ name ++ ": shape=" ++ str_of_shape tensor_shape
                ++ ", type=" ++ dtype_name tensor
                ++ ", device=" ++ t_device (to_float32 tensor));;
         if negb (Z.of_nat (List.length tensor_shape) =? 4) then
           log ("Error: " ++ name ++ " has incorrect shape: "
                  ++ str_of_shape tensor_shape);;
           ret None
         else if negb (nth 1 tensor_shape 0 =? 3) then
           log ("Error: " ++ name ++ " channel count is not 3: "
                  ++ str_of_Z (nth 1 tensor_shape 0));;
           ret None
         else
           tensor <-
             match tensor with
             | Float32 t => ret t
             | OtherDtype dtype t =>
                 log ("Correcting " ++ name ++ " type: " ++ dtype
                        ++ " -> torch.float32");;
                 ret t
             end;;
           tensor <-
             (if negb (t_contiguous tensor) then
                log ("Correcting " ++ name ++ " memory layout: making it contiguous");;
                ret (contiguous tensor)
              else ret tensor);;
           min_val <- lift (tensor_min (t_values tensor));;
           max_val <- lift (tensor_max (t_values tensor));;
           tensor <-
             (if SFltb min_val (S754_zero false) || SFltb (f32_of_Z 1) max_val then
                log ("Correcting " ++ name ++ " value range: ["
                       ++ str_of_float L (item min_val) ++ ", "
                       ++ str_of_float L (item max_val) ++ "] -> [0, 1]");;
                ret (clamp tensor)
              else ret tensor);;
           ret (Some tensor)
     end)
    (fun e =>
       log ("Error validating tensor: " ++ exn_str e);;
       ret None).

(** What [validate_and_fix_tensor] hands back, logging aside. *)
Definition validated (tensor : torch_tensor) : option float32_tensor :=
  let t := to_float32 tensor in
  if negb (Z.of_nat (List.length (t_shape t)) =? 4) then None
  else if negb (nth 1 (t_shape t) 0 =? 3) then None
  else
    match t_values t with
    | [] => None
    | x :: rest =>
        let t := contiguous t in
        if SFltb (fold_left min2 rest x) (S754_zero false)
           || SFltb (f32_of_Z 1) (fold_left max2 rest x)
        then Some (clamp t) else Some t
    end.

(** A tensor in the layout the method asks for, batch, channels, height,
    width, with a sample below 0 and a sample above 1. *)
Definition channels_first_tensor : torch_tensor :=
  OtherDtype "torch.float64"
    (mk_float32_tensor [1; 3; 1; 2] "cpu" false
       [f32_of_Z (-1); f32_of_Z 2; f32_0_2; f32_of_Z 1; f32_of_Z 0; f32_of_Z 1]).

(** What [validate_and_fix_tensor] makes of [channels_first_tensor]. *)
Definition channels_first_fixed : float32_tensor :=
  mk_float32_tensor [1; 3; 1; 2] "cpu" true
    [f32_of_Z 0; f32_of_Z 1; f32_0_2; f32_of_Z 1; f32_of_Z 0; f32_of_Z 1].

(** * Properties *)

(** ** Strings *)

Lemma append_assoc (a b c : string) : (a ++ b) ++ c = a ++ (b ++ c).
Proof. induction a as [|x a IH]; simpl; [reflexivity | now rewrite IH]. Qed.

Lemma append_nil_r (a : string) : a ++ "" = a.
Proof. induction a as [|x a IH]; simpl; [reflexivity | now rewrite IH]. Qed.

Lemma contains_refl (s : string) : contains s s.
Proof. exists "", "". simpl. now rewrite append_nil_r. Qed.

Lemma contains_app_l (needle a b : string) :
  contains needle a -> contains needle (a ++ b).
Proof.
  intros (pre & post & ->). exists pre, (post ++ b).
  now rewrite !append_assoc.
Qed.

Lemma contains_trans (a b c : string) :
  contains a b -> contains b c -> contains a c.
Proof.
  intros (p1 & q1 & ->) (p2 & q2 & ->). exists (p2 ++ p1), (q1 ++ q2).
  now rewrite !append_assoc.
Qed.

Lemma prefix_append (needle post : string) :
  String.prefix needle (needle ++ post) = true.
Proof.
  induction needle as [|c n IH]; simpl.
  - now destruct post.
  - destruct (ascii_dec c c) as [_|ne]; [exact IH | now elim ne].
Qed.

Lemma containsb_prefix (needle s : string) :
  String.prefix needle s = true -> containsb needle s = true.
Proof. intros H. destruct s; cbn [containsb]; now rewrite H. Qed.

(** [containsb] answers [true] wherever the needle occurs. *)
Lemma containsb_complete (needle s : string) :
  contains needle s -> containsb needle s = true.
Proof.
  intros (pre & post & ->). induction pre as [|c pre IH].
  - change ("" ++ needle ++ post) with (needle ++ post).
    apply containsb_prefix, prefix_append.
  - simpl. rewrite IH. apply orb_true_r.
Qed.

Lemma not_contains (needle s : string) :
  containsb needle s = false -> ~ contains needle s.
Proof. intros E H. apply containsb_complete in H. congruence. Qed.

(** Stripping and reading back never lengthen a string. *)
Lemma length_lstrip (s : string) : (String.length (lstrip s) <= String.length s)%nat.
Proof.
  induction s as [|c s IH]; simpl; [lia|].
  destruct (isspace c); simpl; lia.
Qed.

Lemma length_rstrip (s : string) : (String.length (rstrip s) <= String.length s)%nat.
Proof.
  induction s as [|c s IH]; simpl; [lia|].
  destruct (rstrip s) eqn:E; [destruct (isspace c)|]; simpl in *; lia.
Qed.

Lemma length_strip (s : string) : (String.length (strip s) <= String.length s)%nat.
Proof.
  unfold strip. etransitivity; [apply length_rstrip | apply length_lstrip].
Qed.

Lemma length_universal_newlines (s : string) :
  (String.length (universal_newlines s) <= String.length s)%nat.
Proof.
  assert (H : forall n s, (String.length s <= n)%nat ->
            (String.length (universal_newlines s) <= String.length s)%nat).
  { clear s. induction n as [|n IH]; intros [|c s] Hn; simpl in *; try lia.
    destruct (Ascii.eqb c CR).
    - destruct s as [|c' s]; simpl in *; [lia|].
      destruct (Ascii.eqb c' LF); simpl.
      + specialize (IH s). lia.
      + specialize (IH (String c' s)). simpl in IH. lia.
    - specialize (IH s). simpl. lia. }
  apply (H (String.length s)). lia.
Qed.

(** ** States *)

Lemma add_logs_nil (st : state) : add_logs st [] = st.
Proof. destruct st. unfold add_logs, set_log. simpl. now rewrite app_nil_r. Qed.

Lemma add_logs_app (st : state) (a b : list string) :
  add_logs (add_logs st a) b = add_logs st (a ++ b).
Proof. unfold add_logs, set_log. simpl. now rewrite app_assoc. Qed.

Lemma log_messages_add_logs (st : state) (a : list string) :
  log_messages (add_logs st a) = (log_messages st ++ a)%list.
Proof. reflexivity. Qed.

(** ** The monad *)

Lemma returns_ret {A} (a : A) : returns (ret a).
Proof. intros st. now exists a, st. Qed.

Lemma returns_log (s : string) : returns (log s).
Proof. intros st. unfold log. eauto. Qed.

Lemma returns_get_log : returns get_log.
Proof. intros st. unfold get_log. eauto. Qed.

Lemma returns_bind {A B} (m : M A) (f : A -> M B) :
  returns m -> (forall a, returns (f a)) -> returns (bind m f).
Proof.
  intros Hm Hf st. destruct (Hm st) as (a & st' & E).
  unfold bind. rewrite E. apply Hf.
Qed.

(** A [try] whose handler returns, returns: whatever the body does. *)
Lemma returns_try_except {A} (m : M A) (h : exn -> M A) :
  (forall e, returns (h e)) -> returns (try_except m h).
Proof.
  intros Hh st. unfold try_except.
  destruct (m st) as [[a|e] st']; [eauto | apply Hh].
Qed.

Lemma logs_only_ret {A} (a : A) : logs_only (ret a).
Proof. intros st. exists []. simpl. now rewrite add_logs_nil. Qed.

Lemma logs_only_raise {A} (e : exn) : logs_only (@raise A e).
Proof. intros st. exists []. simpl. now rewrite add_logs_nil. Qed.

Lemma logs_only_lift {A} (o : outcome A) : logs_only (lift o).
Proof. intros st. exists []. simpl. now rewrite add_logs_nil. Qed.

Lemma logs_only_get_log : logs_only get_log.
Proof. intros st. exists []. simpl. now rewrite add_logs_nil. Qed.

Lemma logs_only_log (s : string) : logs_only (log s).
Proof. intros st. now exists [s]. Qed.

Lemma logs_only_bind {A B} (m : M A) (f : A -> M B) :
  logs_only m -> (forall a, logs_only (f a)) -> logs_only (bind m f).
Proof.
  intros Hm Hf st. destruct (Hm st) as (l1 & E1). unfold bind.
  destruct (m st) as [[a|e] st']; simpl in *; subst.
  - destruct (Hf a (add_logs st l1)) as (l2 & E2).
    exists (l1 ++ l2)%list. now rewrite E2, add_logs_app.
  - now exists l1.
Qed.

Lemma logs_only_try_except {A} (m : M A) (h : exn -> M A) :
  logs_only m -> (forall e, logs_only (h e)) -> logs_only (try_except m h).
Proof.
  intros Hm Hh st. destruct (Hm st) as (l1 & E1). unfold try_except.
  destruct (m st) as [[a|e] st']; simpl in *; subst.
  - now exists l1.
  - destruct (Hh e (add_logs st l1)) as (l2 & E2).
    exists (l1 ++ l2)%list. now rewrite E2, add_logs_app.
Qed.

Create HintDb py_frame.
#[local] Hint Resolve logs_only_ret logs_only_raise logs_only_lift logs_only_get_log
  logs_only_log logs_only_bind logs_only_try_except : py_frame.
#[local] Hint Extern 3 (logs_only (if ?b then _ else _)) => destruct b : py_frame.
#[local] Hint Extern 3 (logs_only (match ?x with _ => _ end)) => destruct x : py_frame.
#[local] Hint Extern 1 (logs_only (let _ := _ in _)) => cbv zeta : py_frame.

Create HintDb py_returns.
#[local] Hint Resolve returns_ret returns_log returns_get_log returns_bind
  returns_try_except : py_returns.

(** ** The placeholder image *)

Lemma np_ones_nonneg (width height : Z) :
  0 <= width -> 0 <= height ->
  np_ones [height; width; 3] =
  Ret (mk_ndarray [height; width; 3] (repeat (f32_of_Z 1) (numel [height; width; 3]))).
Proof.
  intros Hw Hh. unfold np_ones. simpl existsb.
  destruct (Z.ltb_spec height 0); [lia|].
  destruct (Z.ltb_spec width 0); [lia|]. reflexivity.
Qed.

Lemma np_ones_negative (width height : Z) :
  width < 0 \/ height < 0 ->
  np_ones [height; width; 3] =
  Raise (mk_exn "ValueError" "negative dimensions are not allowed").
Proof.
  intros H. unfold np_ones. simpl existsb.
  destruct (Z.ltb_spec height 0); [reflexivity|].
  destruct (Z.ltb_spec width 0); [reflexivity | lia].
Qed.

(** With non-negative dimensions the fallback generator returns the
    placeholder and logs one line. *)
Lemma generate_empty_image_nonneg (width height : Z) (st : state) :
  0 <= width -> 0 <= height ->
  generate_empty_image width height st =
  (Ret (placeholder width height), add_logs st [empty_image_message width height]).
Proof.
  intros Hw Hh. unfold generate_empty_image, bind, lift.
  rewrite np_ones_nonneg by assumption. reflexivity.
Qed.

(** With a negative dimension it raises what [np.ones] raises. *)
Lemma generate_empty_image_negative (width height : Z) (st : state) :
  width < 0 \/ height < 0 ->
  generate_empty_image width height st =
  (Raise (mk_exn "ValueError" "negative dimensions are not allowed"), st).
Proof.
  intros H. unfold generate_empty_image, bind, lift.
  rewrite np_ones_negative by assumption. reflexivity.
Qed.

Lemma returns_generate_empty_image (width height : Z) :
  0 <= width -> 0 <= height -> returns (generate_empty_image width height).
Proof.
  intros Hw Hh st. rewrite generate_empty_image_nonneg by assumption. eauto.
Qed.

Lemma logs_only_generate_empty_image (width height : Z) :
  logs_only (generate_empty_image width height).
Proof. unfold generate_empty_image. auto 10 with py_frame. Qed.

Lemma one_times_0_2 : SFmul 24 128 (f32_of_Z 1) (f32_of_f64 f64_0_2) = f32_0_2.
Proof. vm_compute. reflexivity. Qed.

(** The literal [0.2] is the binary64 quotient of 1 by 5, and its
    [float32] value is 13421773 / 2^26. *)
Lemma f64_0_2_nearest : SFdiv 53 1024 (f64_of_Z 1) (f64_of_Z 5) = f64_0_2.
Proof. vm_compute. reflexivity. Qed.

Lemma f32_0_2_value : f32_0_2 = S754_finite false 13421773 (-26).
Proof. vm_compute. reflexivity. Qed.

Lemma placeholder_shape (width height : Z) :
  shape (placeholder width height) = [1; height; width; 3].
Proof. reflexivity. Qed.

Lemma placeholder_elems (width height : Z) :
  elems (placeholder width height) = repeat f32_0_2 (numel [height; width; 3]).
Proof.
  unfold placeholder, unsqueeze0, mul_scalar. cbn [elems shape].
  rewrite map_repeat, one_times_0_2. reflexivity.
Qed.

Lemma placeholder_samples (width height : Z) :
  Forall (fun x => x = f32_0_2) (elems (placeholder width height)).
Proof.
  rewrite placeholder_elems. apply Forall_forall. intros x Hx.
  now apply repeat_spec in Hx.
Qed.

Lemma placeholder_size (width height : Z) :
  0 <= width -> 0 <= height ->
  List.length (elems (placeholder width height))
  = (1 * Z.to_nat height * Z.to_nat width * 3)%nat.
Proof.
  intros Hw Hh. rewrite placeholder_elems, repeat_length. unfold numel.
  cbn [fold_right]. lia.
Qed.

(** ** The two [except] handlers and the entry operations return *)

Lemma returns_generate_image_except (width height : Z) (e : exn) :
  0 <= width -> 0 <= height -> returns (generate_image_except width height e).
Proof.
  intros Hw Hh. unfold generate_image_except.
  auto 10 using returns_generate_empty_image with py_returns.
Qed.

Lemma returns_generate_image_multi_except (width height : Z) (e : exn) :
  0 <= width -> 0 <= height ->
  returns (generate_image_multi_except width height e).
Proof.
  intros Hw Hh. unfold generate_image_multi_except.
  auto 10 using returns_generate_empty_image with py_returns.
Qed.

Lemma returns_reset_log : returns reset_log.
Proof. intros st. unfold reset_log. eauto. Qed.

(** ** What the blocks leave untouched *)

Lemma logs_only_for_each {X S R} (body : X -> S -> M (S + R)) (xs : list X) :
  (forall x s, logs_only (body x s)) -> forall s, logs_only (for_each body xs s).
Proof.
  intros Hb. induction xs as [|x xs IH]; intros s; simpl.
  - apply logs_only_ret.
  - apply logs_only_bind; [apply Hb|]. intros [s'|v]; [apply IH | apply logs_only_ret].
Qed.

Section Frames.

Variable L : Libs.

Lemma logs_only_genai_Client (k : string) : logs_only (genai_Client L k).
Proof. unfold genai_Client. auto with py_frame. Qed.

Lemma logs_only_sniff_base64 (d : option bytes) : logs_only (sniff_base64 L d).
Proof. unfold sniff_base64. auto 20 with py_frame. Qed.

Lemma logs_only_open_image (width height : Z) (d : option bytes) :
  logs_only (open_image L width height d).
Proof. unfold open_image. auto 30 with py_frame. Qed.

Lemma logs_only_log_text_part (t : string) : logs_only (log_text_part t).
Proof. unfold log_text_part. auto with py_frame. Qed.

#[local] Hint Resolve logs_only_genai_Client logs_only_sniff_base64
  logs_only_open_image logs_only_log_text_part logs_only_generate_empty_image
  : py_frame.

Lemma logs_only_scan_part (width height : Z) (p : part) (v : locals) :
  logs_only (scan_part L width height p v).
Proof. unfold scan_part. auto 30 with py_frame. Qed.

Lemma logs_only_scan_part_multi (width height : Z) (p : part) (v : locals) :
  logs_only (scan_part_multi L width height p v).
Proof. unfold scan_part_multi. auto 30 with py_frame. Qed.

Lemma logs_only_process_image (image : option tensor) :
  logs_only (process_image L image).
Proof. unfold process_image. auto 30 with py_frame. Qed.

#[local] Hint Resolve logs_only_process_image : py_frame.

Lemma logs_only_finish_without_image (width height : Z) (v : locals) :
  logs_only (finish_without_image width height v).
Proof. unfold finish_without_image. auto 30 with py_frame. Qed.

Lemma logs_only_empty_response (width height : Z) :
  logs_only (empty_response width height).
Proof. unfold empty_response. auto 30 with py_frame. Qed.

#[local] Hint Resolve logs_only_scan_part logs_only_scan_part_multi
  logs_only_finish_without_image logs_only_empty_response : py_frame.

Lemma logs_only_interpret_response (width height : Z) (rt : string) (r : response) :
  logs_only (interpret_response L width height rt r).
Proof.
  unfold interpret_response.
  apply logs_only_bind; [apply logs_only_log | intros _].
  destruct (candidates r) as [[|first rest]|]; auto with py_frame.
  apply logs_only_bind; [apply logs_only_lift | intros ps].
  apply logs_only_bind; [apply logs_only_for_each; auto with py_frame|].
  intros [v|x]; auto with py_frame.
Qed.

Lemma logs_only_interpret_response_multi (width height : Z) (rt : string)
  (r : response) :
  logs_only (interpret_response_multi L width height rt r).
Proof.
  unfold interpret_response_multi.
  apply logs_only_bind; [apply logs_only_log | intros _].
  destruct (candidates r) as [[|first rest]|]; auto with py_frame.
  apply logs_only_bind; [apply logs_only_lift | intros ps].
  apply logs_only_bind; [apply logs_only_for_each; auto with py_frame|].
  intros [v|x]; auto with py_frame.
Qed.

Lemma logs_only_generate_image_except (width height : Z) (e : exn) :
  logs_only (generate_image_except width height e).
Proof. unfold generate_image_except. auto 30 with py_frame. Qed.

Lemma logs_only_generate_image_multi_except (width height : Z) (e : exn) :
  logs_only (generate_image_multi_except width height e).
Proof. unfold generate_image_multi_except. auto 30 with py_frame. Qed.

End Frames.

(** The key resolver writes the log and the key file, nothing else. *)
Lemma get_api_key_frame (k : string) (st : state) :
  let st' := snd (get_api_key k st) in
  api_calls st' = api_calls st /\ rng st' = rng st /\ rng_pos st' = rng_pos st.
Proof.
  destruct st as [lg kf wf re rg rp ac]. unfold get_api_key.
  destruct (negb (k =? "")%string && (10 <? len k)).
  - unfold bind, try_except, log, write_key_file, ret. simpl.
    destruct (wf k) as [[e left_behind]|]; simpl; repeat split.
  - unfold bind, try_except, log, key_file_exists, read_key_file, ret. simpl.
    destruct kf as [c|]; simpl; [|repeat split].
    destruct re; simpl; [repeat split|].
    destruct (negb (strip (universal_newlines c) =? "")%string
              && (10 <? len (strip (universal_newlines c)))); simpl;
      repeat split.
Qed.

(** The seed block draws at most once and logs. *)
Lemma handle_seed_spec (seed : Z) (st : state) :
  exists st', handle_seed seed st = (Ret (seed_used seed st), st')
              /\ api_calls st' = api_calls st.
Proof.
  unfold handle_seed, seed_used. destruct (seed =? 0).
  - unfold bind, random_randint, randbelow, log, ret. simpl. eauto.
  - unfold bind, log, ret. simpl. eauto.
Qed.

(** ** The key resolver *)

Lemma long_key_test (k : string) :
  10 < len k -> negb (k =? "")%string && (10 <? len k) = true.
Proof.
  intros H. destruct (Z.ltb_spec 10 (len k)); [|lia].
  destruct k; [unfold len in H; simpl in H; lia | reflexivity].
Qed.

Lemma short_key_test (k : string) :
  len k <= 10 -> negb (k =? "")%string && (10 <? len k) = false.
Proof.
  intros H. destruct (Z.ltb_spec 10 (len k)); [lia|]. apply andb_false_r.
Qed.

(** A key longer than 10 is returned as it is; it reaches the key file when
    the file can be written. *)
Lemma get_api_key_fresh (k : string) (st : state) :
  10 < len k ->
  fst (get_api_key k st) = Ret k /\
  key_file (snd (get_api_key k st)) =
    match key_file_write_failure st k with
    | None => Some k
    | Some (_, left_behind) => left_behind
    end.
Proof.
  intros H. destruct st as [lg kf wf re rg rp ac]. unfold get_api_key.
  rewrite long_key_test by assumption.
  unfold bind, try_except, log, write_key_file, ret. simpl.
  destruct (wf k) as [[e left_behind]|]; simpl; split; reflexivity.
Qed.

(** Without a fresh key the stored one is read back, stripped, and returned
    when it is longer than 10. *)
Lemma get_api_key_stored (k c : string) (st : state) :
  len k <= 10 ->
  key_file st = Some c -> key_file_read_error st = None ->
  10 < len (strip (universal_newlines c)) ->
  fst (get_api_key k st) = Ret (strip (universal_newlines c)).
Proof.
  intros Hk Hc Hr Hlen. destruct st as [lg kf wf re rg rp ac]. simpl in *. subst.
  unfold get_api_key. rewrite short_key_test by assumption.
  unfold bind, try_except, log, key_file_exists, read_key_file, ret. simpl.
  rewrite long_key_test by assumption. reflexivity.
Qed.

(** Without a fresh key and without a stored key longer than 10 the
    resolver returns the empty string. *)
Lemma get_api_key_none (k : string) (st : state) :
  len k <= 10 ->
  (forall c, key_file st = Some c -> len (strip (universal_newlines c)) <= 10) ->
  fst (get_api_key k st) = Ret "".
Proof.
  intros Hk Hc. destruct st as [lg kf wf re rg rp ac]. simpl in *.
  unfold get_api_key. rewrite short_key_test by assumption.
  unfold bind, try_except, log, key_file_exists, read_key_file, ret. simpl.
  destruct kf as [c|]; simpl; [|reflexivity].
  destruct re; simpl; [reflexivity|].
  rewrite short_key_test by (apply Hc; reflexivity). reflexivity.
Qed.

Lemma len_read_back (c : string) : len (strip (universal_newlines c)) <= len c.
Proof.
  unfold len. apply Nat2Z.inj_le.
  etransitivity; [apply length_strip | apply length_universal_newlines].
Qed.

(** ** Running blocks in sequence *)

Lemma wp_ret {A} (a : A) (Q : outcome A -> state -> Prop) (st : state) :
  Q (Ret a) st -> wp (ret a) Q st.
Proof. exact (fun H => H). Qed.

Lemma wp_raise {A} (e : exn) (Q : outcome A -> state -> Prop) (st : state) :
  Q (Raise e) st -> wp (raise e) Q st.
Proof. exact (fun H => H). Qed.

Lemma wp_lift {A} (o : outcome A) (Q : outcome A -> state -> Prop) (st : state) :
  Q o st -> wp (lift o) Q st.
Proof. exact (fun H => H). Qed.

Lemma wp_log (s : string) (Q : outcome string -> state -> Prop) (st : state) :
  Q (Ret s) (add_logs st [s]) -> wp (log s) Q st.
Proof. exact (fun H => H). Qed.

Lemma wp_get_log (Q : outcome (list string) -> state -> Prop) (st : state) :
  Q (Ret (log_messages st)) st -> wp get_log Q st.
Proof. exact (fun H => H). Qed.

Lemma wp_bind {A B} (m : M A) (f : A -> M B) (Q : outcome B -> state -> Prop)
  (st : state) :
  wp m (fun o st' => match o with
                     | Ret a => wp (f a) Q st'
                     | Raise e => Q (Raise e) st'
                     end) st ->
  wp (bind m f) Q st.
Proof. unfold wp, bind. destruct (m st) as [[a|e] st']; exact (fun H => H). Qed.

Lemma wp_try_except {A} (m : M A) (h : exn -> M A)
  (Q : outcome A -> state -> Prop) (st : state) :
  wp m (fun o st' => match o with
                     | Ret a => Q (Ret a) st'
                     | Raise e => wp (h e) Q st'
                     end) st ->
  wp (try_except m h) Q st.
Proof. unfold wp, try_except. destruct (m st) as [[a|e] st']; exact (fun H => H). Qed.

Lemma wp_conseq {A} (m : M A) (Q Q' : outcome A -> state -> Prop) (st : state) :
  wp m Q st -> (forall o st', Q o st' -> Q' o st') -> wp m Q' st.
Proof. unfold wp. intros H HQ. now apply HQ. Qed.

(** A block that only logs ends in the state it started from, more log
    entries aside. *)
Lemma wp_logs_only {A} (m : M A) (st : state) :
  logs_only m -> wp m (fun _ st' => exists msgs, st' = add_logs st msgs) st.
Proof. intros H. exact (H st). Qed.


(** ** The request builder *)

Section Builder.

Variable L : Libs.

(** The reference block never raises, and whatever it decides the text it
    hands on starts with [simple_prompt]. *)
Lemma reference_block_spec (sp : string) (image : option tensor) (st : state) :
  exists c b st',
    reference_block L sp image st = (Ret (c, b), st') /\
    api_calls st' = api_calls st /\
    exists t suffix, In t (contents_texts c) /\ t = sp ++ suffix.
Proof.
  assert (Hsp : exists t suffix, In t (contents_texts (ContentsStr sp)) /\ t = sp ++ suffix).
  { exists sp, "". rewrite append_nil_r. simpl. auto. }
  unfold reference_block. destruct image as [image|].
  2:{ exists (ContentsStr sp), false, st. auto. }
  unfold try_except, bind, lift, log, ret.
  destruct (single_batch image).
  2:{ do 3 eexists. split; [reflexivity|]. auto. }
  destruct (to_pil L image) as [pil|e].
  2:{ do 3 eexists. split; [reflexivity|]. auto. }
  destruct (save_PNG L pil) as [b|e].
  2:{ do 3 eexists. split; [reflexivity|]. auto. }
  do 3 eexists. split; [reflexivity|]. split; [reflexivity|].
  exists (sp ++ " Use this reference image as style guidance."),
         " Use this reference image as style guidance.".
  simpl. auto.
Qed.

Lemma no_key_return_ok (prompt : string) (width height : Z) (temperature : f64)
  (seed : Z) (st st1 : state) :
  api_calls st1 = api_calls st ->
  wp (log no_key_message;;
      img <- generate_empty_image width height;;
      ret (inl (img, no_key_text)))
     (built_ok prompt width height temperature seed st) st1.
Proof.
  intros Hc. apply wp_bind, wp_log. apply wp_bind.
  eapply wp_conseq; [apply wp_logs_only, logs_only_generate_empty_image|].
  intros [img|e] st2 (msgs & ->); [apply wp_ret|]; split; auto.
Qed.

Lemma build_request_spec (prompt api_key : string) (width height : Z)
  (temperature : f64) (seed : Z) (image : option tensor) (st : state) :
  wp (build_request L prompt api_key width height temperature seed image)
     (built_ok prompt width height temperature seed st) st.
Proof.
  unfold build_request. apply wp_bind. unfold wp at 1.
  destruct (get_api_key_frame api_key st) as (Hc & Hr & Hp).
  destruct (get_api_key api_key st) as [[key|e] st1]; cbn [fst snd] in *; [|now split].
  destruct (key =? "")%string; [now apply no_key_return_ok|].
  apply wp_bind. unfold genai_Client.
  destruct (genai_Client_error L key); [apply wp_raise; now split | apply wp_ret].
  apply wp_bind. unfold wp at 1.
  destruct (handle_seed_spec seed st1) as (st2 & -> & Hc2). simpl.
  assert (Es : seed_used seed st1 = seed_used seed st).
  { unfold seed_used. now rewrite Hr, Hp. }
  rewrite Es. clear Es.
  apply wp_bind, wp_lift.
  destruct (int_true_div width height) as [ratio|e] eqn:Ediv; [|split; [congruence | exact I]].
  apply wp_bind, wp_log. apply wp_bind. unfold wp at 1.
  match goal with
  | |- context [reference_block L ?sp ?im ?s] =>
      destruct (reference_block_spec sp im s)
        as (c & b & st3 & -> & Hc3 & t & suffix & Hin & Ht)
  end.
  simpl. apply wp_bind, wp_log, wp_ret. split.
  - simpl. rewrite Hc3. simpl. congruence.
  - repeat split. exists ratio. split; [assumption|]. exists t, suffix. auto.
Qed.

(** The parts [process_image] hands on are inline data, never text. *)
Lemma process_image_spec (image : option tensor) (st : state) :
  exists o st', process_image L image st = (Ret o, st') /\
                api_calls st' = api_calls st /\
                match o with Some p => part_texts p = [] | None => True end.
Proof.
  unfold process_image. destruct image as [image|]; [|exists None, st; auto].
  unfold try_except, bind, lift, log, ret.
  destruct (single_batch image); [|do 2 eexists; split; [reflexivity|]; auto].
  destruct (to_pil L image) as [pil|e]; [|do 2 eexists; split; [reflexivity|]; auto].
  destruct (save_PNG L pil) as [b|e]; do 2 eexists; (split; [reflexivity|]; auto).
Qed.

Lemma collect_images_spec (imgs : list (option tensor)) :
  forall idx image_parts image_count st,
    flat_map part_texts image_parts = [] ->
    exists ps n st',
      collect_images L imgs idx image_parts image_count st = (Ret (ps, n), st') /\
      api_calls st' = api_calls st /\ flat_map part_texts ps = [].
Proof.
  induction imgs as [|img imgs IH]; intros idx image_parts image_count st Hp; simpl.
  - exists image_parts, image_count, st. auto.
  - destruct img as [image|]; [|now apply IH].
    unfold bind at 1.
    destruct (process_image_spec (Some image) st) as (o & st1 & -> & Hc & Ho).
    destruct o as [p|].
    + unfold bind at 1, log at 1.
      edestruct IH as (ps & n & st' & E & Hc' & Hps);
        [|exists ps, n, st'; split; [exact E|]; split; [|exact Hps]].
      * rewrite flat_map_app, Hp. simpl. now rewrite Ho.
      * rewrite Hc'. simpl. exact Hc.
    + edestruct IH as (ps & n & st' & E & Hc' & Hps);
        [exact Hp | exists ps, n, st'; split; [exact E|]; split; [|exact Hps]].
      congruence.
Qed.

Lemma build_request_multi_spec (prompt api_key : string) (width height : Z)
  (temperature : f64) (seed : Z) (image1 image2 image3 image4 : option tensor)
  (st : state) :
  wp (build_request_multi L prompt api_key width height temperature seed
        image1 image2 image3 image4)
     (built_ok prompt width height temperature seed st) st.
Proof.
  unfold build_request_multi. apply wp_bind. unfold wp at 1.
  destruct (get_api_key_frame api_key st) as (Hc & Hr & Hp).
  destruct (get_api_key api_key st) as [[key|e] st1]; cbn [fst snd] in *; [|now split].
  destruct (key =? "")%string; [now apply no_key_return_ok|].
  apply wp_bind. unfold genai_Client.
  destruct (genai_Client_error L key); [apply wp_raise; now split | apply wp_ret].
  apply wp_bind. unfold wp at 1.
  destruct (handle_seed_spec seed st1) as (st2 & -> & Hc2). cbn [fst snd].
  assert (Es : seed_used seed st1 = seed_used seed st).
  { unfold seed_used. now rewrite Hr, Hp. }
  rewrite Es. clear Es.
  apply wp_bind, wp_lift.
  destruct (int_true_div width height) as [ratio|e] eqn:Ediv; [|split; [congruence | exact I]].
  apply wp_bind, wp_log. apply wp_bind. unfold wp at 1.
  match goal with
  | |- context [collect_images L ?imgs ?i ?ps0 ?n0 ?s] =>
      destruct (collect_images_spec imgs i ps0 n0 s eq_refl)
    as (ps & n & st3 & -> & Hc3 & Hps)
  end.
  simpl. apply wp_bind, wp_log, wp_ret. split.
  - simpl. rewrite Hc3. simpl. congruence.
  - repeat split. exists ratio. split; [assumption|].
    unfold request_texts, contents_texts. cbn [req_contents].
    rewrite flat_map_app, Hps. cbn [app flat_map part_texts].
    destruct (0 <? n).
    + eexists _, _. split; [left; reflexivity | reflexivity].
    + eexists _, "". split; [left; reflexivity|]. now rewrite append_nil_r.
Qed.

(** ** The requests an entry operation sends *)

Lemma trace_ok_same (prompt : string) (width height : Z) (temperature : f64)
  (seed : Z) (st st' : state) :
  api_calls st' = api_calls st ->
  trace_ok prompt width height temperature seed st st'.
Proof. intros H. exists []. rewrite app_nil_r. auto. Qed.

End Builder.

Lemma trace_ok_logs (prompt : string) (width height : Z) (temperature : f64)
  (seed : Z) (st st' : state) (msgs : list string) :
  trace_ok prompt width height temperature seed st st' ->
  trace_ok prompt width height temperature seed st (add_logs st' msgs).
Proof. intros (new & E & H). exists new. auto. Qed.

Lemma trace_ok_reset (prompt : string) (width height : Z) (temperature : f64)
  (seed : Z) (st st' : state) :
  trace_ok prompt width height temperature seed (set_log st []) st' ->
  trace_ok prompt width height temperature seed st st'.
Proof. intros (new & E & H). exists new. auto. Qed.

Section Traces.

Variable L : Libs.

Lemma trace_after_call (prompt : string) (width height : Z) (temperature : f64)
  (seed : Z) (st st1 : state) (r : request) (msgs : list string) :
  api_calls st1 = api_calls st ->
  well_built prompt width height temperature seed st r ->
  trace_ok prompt width height temperature seed st
    (add_logs (set_api_calls st1 (api_calls st1 ++ [r])) msgs).
Proof.
  intros Hc Hr. exists [r]. split; [simpl; now rewrite Hc | now constructor].
Qed.

Lemma generate_image_try_trace (prompt api_key model : string) (width height : Z)
  (temperature : f64) (seed : Z) (image : option tensor) (st : state) :
  wp (generate_image_try L prompt api_key model width height temperature seed image)
     (fun _ st' => trace_ok prompt width height temperature seed st st') st.
Proof.
  unfold generate_image_try. cbv zeta. apply wp_bind.
  eapply wp_conseq; [apply build_request_spec|].
  intros [[returned|[[c cts] cfg]]|e] st1 [Hc Hb].
  - apply wp_ret. now apply trace_ok_same.
  - apply wp_bind. unfold wp at 1, models_generate_content. cbn [fst snd].
    destruct (generate_content L c (mk_request model_id cts cfg)) as [resp|e].
    + eapply wp_conseq; [apply wp_logs_only, logs_only_interpret_response|].
      intros _ st2 (msgs & ->). now apply trace_after_call.
    + rewrite <- (add_logs_nil (set_api_calls _ _)). now apply trace_after_call.
  - now apply trace_ok_same.
Qed.

Lemma generate_image_multi_try_trace (prompt api_key model : string)
  (width height : Z) (temperature : f64) (seed : Z)
  (image1 image2 image3 image4 : option tensor) (st : state) :
  wp (generate_image_multi_try L prompt api_key model width height temperature seed
        image1 image2 image3 image4)
     (fun _ st' => trace_ok prompt width height temperature seed st st') st.
Proof.
  unfold generate_image_multi_try. cbv zeta. apply wp_bind.
  eapply wp_conseq; [apply build_request_multi_spec|].
  intros [[returned|[[c cts] cfg]]|e] st1 [Hc Hb].
  - apply wp_ret. now apply trace_ok_same.
  - apply wp_bind. unfold wp at 1, models_generate_content. cbn [fst snd].
    destruct (generate_content L c (mk_request model_id cts cfg)) as [resp|e].
    + eapply wp_conseq; [apply wp_logs_only, logs_only_interpret_response_multi|].
      intros _ st2 (msgs & ->). now apply trace_after_call.
    + rewrite <- (add_logs_nil (set_api_calls _ _)). now apply trace_after_call.
  - now apply trace_ok_same.
Qed.

(** Every request [generate_image] adds to the trace is well built. *)
Lemma generate_image_trace (prompt api_key model : string) (width height : Z)
  (temperature : f64) (seed : Z) (image : option tensor) (st : state) :
  trace_ok prompt width height temperature seed st
    (snd (generate_image L prompt api_key model width height temperature seed image st)).
Proof.
  apply trace_ok_reset.
  change (wp (generate_image L prompt api_key model width height temperature seed image)
            (fun _ st' => trace_ok prompt width height temperature seed
                            (set_log st []) st') st).
  unfold generate_image. apply wp_bind. unfold wp at 1, reset_log. cbn [fst snd].
  apply wp_try_except.
  eapply wp_conseq; [apply generate_image_try_trace|].
  intros [r|e] st1 H; [exact H|].
  eapply wp_conseq; [apply wp_logs_only, logs_only_generate_image_except|].
  intros _ st2 (msgs & ->). now apply trace_ok_logs.
Qed.

Lemma generate_image_multi_trace (prompt api_key model : string)
  (width height : Z) (temperature : f64) (seed : Z)
  (image1 image2 image3 image4 : option tensor) (st : state) :
  trace_ok prompt width height temperature seed st
    (snd (generate_image_multi L prompt api_key model width height temperature seed
            image1 image2 image3 image4 st)).
Proof.
  apply trace_ok_reset.
  change (wp (generate_image_multi L prompt api_key model width height temperature
                seed image1 image2 image3 image4)
            (fun _ st' => trace_ok prompt width height temperature seed
                            (set_log st []) st') st).
  unfold generate_image_multi. apply wp_bind. unfold wp at 1, reset_log.
  cbn [fst snd]. apply wp_try_except.
  eapply wp_conseq; [apply generate_image_multi_try_trace|].
  intros [r|e] st1 H; [exact H|].
  eapply wp_conseq; [apply wp_logs_only, logs_only_generate_image_multi_except|].
  intros _ st2 (msgs & ->). now apply trace_ok_logs.
Qed.

End Traces.

(** ** Comparing the aspect ratio with 1 *)

Lemma f64_one_value : f64_one = S754_finite false 4503599627370496 (-52).
Proof. vm_compute. reflexivity. Qed.

Lemma SFcompare_antisym_finite (x : spec_float) (m1 : positive) (e1 : Z) :
  SFcompare (S754_finite false m1 e1) x
  = option_map CompOpp (SFcompare x (S754_finite false m1 e1)).
Proof.
  destruct x as [s|s| |s m e]; cbn [SFcompare option_map];
    try reflexivity; try (destruct s; reflexivity).
  destruct s; [reflexivity|].
  rewrite (Z.compare_antisym e e1).
  destruct (e ?= e1); cbn [CompOpp]; try reflexivity.
  rewrite (Pos.compare_cont_antisym m m1 Eq). reflexivity.
Qed.

(** [1 < x] holds exactly when [x] compares greater than 1. *)
Lemma one_lt_iff (x : f64) :
  SFltb f64_one x = match SFcompare x f64_one with Some Gt => true | _ => false end.
Proof.
  rewrite f64_one_value. unfold SFltb. rewrite SFcompare_antisym_finite.
  destruct (SFcompare x (S754_finite false 4503599627370496 (-52))) as [[| |]|];
    reflexivity.
Qed.

(** The label follows the comparison of the ratio with 1. *)
Lemma orientation_of_compare (x : f64) :
  orientation_of x =
  match SFcompare x f64_one with
  | Some Gt => "landscape (horizontal)"
  | Some Lt => "portrait (vertical)"
  | _ => "square"
  end.
Proof.
  unfold orientation_of. rewrite one_lt_iff. unfold SFltb.
  destruct (SFcompare x f64_one) as [[| |]|]; reflexivity.
Qed.

Lemma simple_prompt_contains_orientation (prompt orientation : string)
  (width height : Z) :
  contains orientation (simple_prompt_of prompt orientation width height).
Proof.
  unfold simple_prompt_of.
  exists ("Create a detailed image of: " ++ prompt ++ ". Generate the image in "),
    (" orientation with exact dimensions of "
     ++ str_of_Z width ++ "x" ++ str_of_Z height
     ++ " pixels. Ensure the composition fits properly within these dimensions without stretching or distortion.").
  rewrite !append_assoc. reflexivity.
Qed.

Lemma simple_prompt_contains_size (prompt orientation : string)
  (width height : Z) :
  contains (str_of_Z width ++ "x" ++ str_of_Z height)
           (simple_prompt_of prompt orientation width height).
Proof.
  unfold simple_prompt_of.
  exists ("Create a detailed image of: " ++ prompt ++ ". Generate the image in "
          ++ orientation ++ " orientation with exact dimensions of "),
    " pixels. Ensure the composition fits properly within these dimensions without stretching or distortion.".
  rewrite !append_assoc. reflexivity.
Qed.

(** ** The quotient of two integers as a binary64 number

    For operands below [2^52] the correctly rounded quotient compares with 1
    the way the operands compare with each other: rounding never moves a
    quotient onto or across 1. *)

Lemma digits2_pos_log2 (p : positive) :
  Zpos (digits2_pos p) = Z.log2 (Zpos p) + 1.
Proof.
  assert (H : forall p, digits2_pos p = Pos.size p).
  { induction p0 as [p0 IH|p0 IH|]; simpl; now rewrite ?IH. }
  destruct p as [p|p|]; simpl; rewrite ?H; lia.
Qed.

(** The number of binary digits of a positive number is [k] exactly when
    the number lies between [2^(k-1)] and [2^k]. *)
Lemma digits2_pos_bounds (p : positive) :
  2 ^ (Zpos (digits2_pos p) - 1) <= Zpos p < 2 ^ Zpos (digits2_pos p).
Proof.
  rewrite digits2_pos_log2.
  replace (Z.log2 (Zpos p) + 1 - 1) with (Z.log2 (Zpos p)) by lia.
  replace (Z.log2 (Zpos p) + 1) with (Z.succ (Z.log2 (Zpos p))) by lia.
  apply Z.log2_spec. lia.
Qed.

Lemma digits2_pos_unique (p : positive) (k : Z) :
  2 ^ (k - 1) <= Zpos p < 2 ^ k -> Zpos (digits2_pos p) = k.
Proof.
  intros H. rewrite digits2_pos_log2.
  assert (0 <= k - 1).
  { destruct (Z_lt_le_dec (k - 1) 0) as [Hk|Hk]; [|exact Hk].
    destruct (Z_lt_le_dec k 0) as [Hk0|Hk0].
    - rewrite (Z.pow_neg_r 2 k) in H by lia. lia.
    - assert (k = 0) by lia. subst. simpl in H. lia. }
  rewrite (Z.log2_unique (Zpos p) (k - 1)); [lia | assumption |].
  replace (Z.succ (k - 1)) with k by lia. exact H.
Qed.

(** ** The tail of [binary_round_aux] on a mantissa of 53 bits *)

Lemma fexp_53 (x : Z) : -1021 <= x -> fexp 53 1024 x = x - 53.
Proof. intros H. unfold fexp, emin. lia. Qed.

Lemma round_nearest_even_bounds (m : Z) (l : location) :
  round_nearest_even m l = m \/ round_nearest_even m l = m + 1.
Proof.
  unfold round_nearest_even. destruct l as [|[| |]]; auto.
  destruct (Z.even m); auto.
Qed.

Lemma shr_m_of_loc (m : Z) (l : location) : shr_m (shr_record_of_loc m l) = m.
Proof. now destruct l as [|[| |]]. Qed.

Lemma shr_m_shr_1 (mrs : shr_record) :
  0 <= shr_m mrs -> shr_m (shr_1 mrs) = Z.div2 (shr_m mrs).
Proof.
  destruct mrs as [m r s]. cbn [shr_m]. intros H.
  destruct m as [|[p|p|]|p]; try reflexivity; lia.
Qed.

(** What the second half of [binary_round_aux] makes of a rounded
    mantissa [m] of 53 bits, or of [2^53]. *)
Lemma round_tail (m e : Z) :
  2 ^ 52 <= m <= 2 ^ 53 -> -1074 <= e <= 969 ->
  (let '(mrs, e') := shr_fexp 53 1024 m e loc_Exact in
   match shr_m mrs with
   | Z0 => S754_zero false
   | Zpos p => if e' <=? 1024 - 53 then S754_finite false p e' else S754_infinity false
   | Zneg _ => S754_nan
   end)
  = if m <? 2 ^ 53 then S754_finite false (Z.to_pos m) e
    else S754_finite false (Z.to_pos (2 ^ 52)) (e + 1).
Proof.
  intros Hm He. destruct m as [|p|p]; try lia.
  unfold shr_fexp. cbn [Zdigits2].
  destruct (Z.ltb_spec (Zpos p) (2 ^ 53)) as [Hlt|Hge].
  - rewrite (digits2_pos_unique p 53) by (change (53 - 1) with 52; lia).
    rewrite fexp_53 by lia. replace (53 + e - 53 - e) with 0 by lia.
    cbn [shr shr_record_of_loc shr_m].
    destruct (Z.leb_spec e (1024 - 53)); [reflexivity | lia].
  - assert (E : Zpos p = 2 ^ 53) by lia.
    rewrite (digits2_pos_unique p 54) by (change (54 - 1) with 53; lia).
    rewrite fexp_53 by lia. replace (54 + e - 53 - e) with 1 by lia.
    cbn [shr iter_pos shr_record_of_loc]. rewrite shr_m_shr_1 by (cbn; lia).
    cbn [shr_m]. rewrite E. change (Z.div2 (2 ^ 53)) with (Z.pos (Z.to_pos (2 ^ 52))).
    destruct (Z.leb_spec (e + 1) (1024 - 53)); [reflexivity | lia].
Qed.

(** [binary_round_aux] on a quotient of 53 or 54 bits: the mantissa is
    halved when it has 54 bits, rounded up by at most one, and renormalised
    when rounding reaches [2^53]. *)
Lemma binary_round_aux_quotient (q e : Z) (l : location) :
  2 ^ 52 <= q < 2 ^ 54 -> -1074 <= e <= 900 ->
  exists m1 e1 m2,
    (if q <? 2 ^ 53 then m1 = q /\ e1 = e else m1 = q / 2 /\ e1 = e + 1) /\
    (m2 = m1 \/ m2 = m1 + 1) /\
    binary_round_aux 53 1024 false q e l
    = if m2 <? 2 ^ 53 then S754_finite false (Z.to_pos m2) e1
      else S754_finite false (Z.to_pos (2 ^ 52)) (e1 + 1).
Proof.
  intros Hq He. destruct q as [|p|p]; try lia.
  unfold binary_round_aux, shr_fexp at 1. cbn [Zdigits2].
  destruct (Z.ltb_spec (Zpos p) (2 ^ 53)) as [Hlt|Hge].
  - rewrite (digits2_pos_unique p 53) by (change (53 - 1) with 52; lia).
    rewrite fexp_53 by lia. replace (53 + e - 53 - e) with 0 by lia.
    cbn [shr]. rewrite shr_m_of_loc.
    set (m2 := round_nearest_even (Zpos p) _).
    exists (Zpos p), e, m2. split; [auto|].
    split; [apply round_nearest_even_bounds|].
    apply round_tail; [|lia].
    destruct (round_nearest_even_bounds (Zpos p)
                (loc_of_shr_record (shr_record_of_loc (Zpos p) l))); fold m2 in H; lia.
  - rewrite (digits2_pos_unique p 54) by (change (54 - 1) with 53; lia).
    rewrite fexp_53 by lia. replace (54 + e - 53 - e) with 1 by lia.
    cbn [shr iter_pos].
    rewrite shr_m_shr_1 by (rewrite shr_m_of_loc; lia).
    rewrite shr_m_of_loc, Z.div2_div.
    set (m2 := round_nearest_even (Zpos p / 2) _).
    exists (Zpos p / 2), (e + 1), m2. split; [auto|].
    split; [apply round_nearest_even_bounds|].
    assert (2 ^ 52 <= Zpos p / 2 < 2 ^ 53).
    { split; [apply Z.div_le_lower_bound | apply Z.div_lt_upper_bound]; lia. }
    apply round_tail; [|lia].
    destruct (round_nearest_even_bounds (Zpos p / 2)
                (loc_of_shr_record (shr_1 (shr_record_of_loc (Zpos p) l))));
      fold m2 in H0; lia.
Qed.

Lemma compare_with_one (m : positive) (e : Z) :
  SFcompare (S754_finite false m e) f64_one
  = Some (match e ?= -52 with
          | Lt => Lt
          | Gt => Gt
          | Eq => Pos.compare m 4503599627370496
          end).
Proof. unfold Pos.compare. reflexivity. Qed.

Lemma pow2_pos (k : Z) : 0 <= k -> 0 < 2 ^ k.
Proof. intros. now apply Z.pow_pos_nonneg. Qed.

Lemma digits2_pos_upper (p : positive) (k : Z) :
  0 <= k -> Zpos p < 2 ^ k -> Zpos (digits2_pos p) <= k.
Proof.
  intros Hk Hp. pose proof (digits2_pos_bounds p) as [Hlo _].
  destruct (Z_le_gt_dec (Zpos (digits2_pos p)) k) as [H|H]; [exact H|].
  assert (2 ^ k <= 2 ^ (Zpos (digits2_pos p) - 1)) by (apply Z.pow_le_mono_r; lia).
  lia.
Qed.

Lemma SFdiv_int_operands (pw ph : positive) :
  Zpos pw < 2 ^ 52 -> Zpos ph < 2 ^ 52 ->
  exists m e,
    SFdiv 53 1024 (S754_finite false pw 0) (S754_finite false ph 0)
    = S754_finite false m e /\
    match Zpos pw ?= Zpos ph with
    | Eq => e = -52 /\ Zpos m = 2 ^ 52
    | Gt => -52 < e \/ (e = -52 /\ 2 ^ 52 < Zpos m)
    | Lt => e < -52
    end.
Proof.
  intros Hw Hh. unfold SFdiv, SFdiv_core_binary. cbn [xorb Zdigits2].
  pose proof (digits2_pos_bounds pw) as Hd1.
  pose proof (digits2_pos_bounds ph) as Hd2.
  pose proof (digits2_pos_upper pw 52 ltac:(lia) Hw) as Hu1.
  pose proof (digits2_pos_upper ph 52 ltac:(lia) Hh) as Hu2.
  set (d1 := Zpos (digits2_pos pw)) in *.
  set (d2 := Zpos (digits2_pos ph)) in *.
  assert (Hp1 : 1 <= d1) by (unfold d1; lia).
  assert (Hp2 : 1 <= d2) by (unfold d2; lia).
  replace (Z.min (fexp 53 1024 (d1 + 0 - (d2 + 0))) (0 - 0)) with (d1 - d2 - 53)
    by (rewrite fexp_53 by lia; lia).
  replace (0 - 0 - (d1 - d2 - 53)) with (53 - d1 + d2) by lia.
  set (s := 53 - d1 + d2).
  assert (Hs : 0 < s) by (unfold s; lia).
  assert (Em : match s with
               | 0 => Zpos pw
               | Zpos _ => Z.shiftl (Zpos pw) s
               | Zneg _ => 0
               end = Zpos pw * 2 ^ s).
  { destruct s; try lia. apply Z.shiftl_mul_pow2. lia. }
  rewrite Em. clear Em.
  set (S := 2 ^ s). set (A := 2 ^ (d1 - 1)) in *. set (B := 2 ^ (d2 - 1)) in *.
  assert (HA : 0 < A) by (apply pow2_pos; lia).
  assert (HB : 0 < B) by (apply pow2_pos; lia).
  assert (HS : 0 < S) by (apply pow2_pos; lia).
  assert (E1 : 2 ^ d1 = 2 * A).
  { unfold A. rewrite <- (Z.pow_succ_r 2 (d1 - 1)) by lia. f_equal. lia. }
  assert (E2 : 2 ^ d2 = 2 * B).
  { unfold B. rewrite <- (Z.pow_succ_r 2 (d2 - 1)) by lia. f_equal. lia. }
  assert (ES : S * A = 2 ^ 53 * B).
  { unfold S, A, B. rewrite <- !Z.pow_add_r by lia. f_equal. unfold s. lia. }
  rewrite E1 in Hd1. rewrite E2 in Hd2.
  pose proof (Z.div_mod (Zpos pw * S) (Zpos ph) ltac:(lia)) as Hdiv.
  pose proof (Z.mod_pos_bound (Zpos pw * S) (Zpos ph) ltac:(lia)) as Hmod.
  assert (Eq : Z.div_eucl (Zpos pw * S) (Zpos ph)
               = ((Zpos pw * S) / Zpos ph, (Zpos pw * S) mod Zpos ph)).
  { unfold Z.div, Z.modulo. now destruct (Z.div_eucl (Zpos pw * S) (Zpos ph)). }
  rewrite Eq. clear Eq.
  set (q := (Zpos pw * S) / Zpos ph) in *.
  set (r := (Zpos pw * S) mod Zpos ph) in *.
  assert (Hq : 2 ^ 52 <= q < 2 ^ 54) by nia.
  assert (Hsame : d1 = d2 -> A = B /\ S = 2 ^ 53).
  { intros E. unfold A, B, S, s. rewrite E. split; f_equal; lia. }
  assert (Hmore : d1 = d2 + 1 -> S = 2 ^ 52).
  { intros E. unfold S, s. f_equal. lia. }
  assert (Hless : d1 + 1 = d2 -> S = 2 ^ 54).
  { intros E. unfold S, s. f_equal. lia. }
  assert (Hord1 : d1 < d2 -> 2 * A <= B).
  { intros E. rewrite <- E1. unfold B. apply Z.pow_le_mono_r; lia. }
  assert (Hord2 : d2 < d1 -> 2 * B <= A).
  { intros E. rewrite <- E2. unfold A. apply Z.pow_le_mono_r; lia. }
  assert (Hdig : Zpos pw = Zpos ph -> d1 = d2) by (unfold d1, d2; congruence).
  pose proof (Z.div_mod q 2 ltac:(lia)) as Hhalf.
  pose proof (Z.mod_pos_bound q 2 ltac:(lia)) as Hrem.
  clearbody q r S A B s d1 d2.
  destruct (Z.compare_spec (Zpos pw) (Zpos ph)) as [Heq|Hlt|Hgt].
  - (* equal operands: the quotient is exactly one *)
    assert (Ed : d1 = d2) by auto.
    destruct (Hsame Ed) as [_ ES']. rewrite ES' in *.
    assert (Eq : q = 2 ^ 53) by nia.
    assert (Er : r = 0) by nia.
    rewrite Eq, Er, Ed. replace (d2 - d2 - 53) with (-53) by lia.
    assert (El : new_location (Zpos ph) 0 = loc_Exact).
    { unfold new_location. now destruct (Z.even (Zpos ph)). }
    rewrite El. exists (Z.to_pos (2 ^ 52)), (-52).
    split; [vm_compute; reflexivity | split; reflexivity].
  - (* w < h *)
    destruct (binary_round_aux_quotient q (d1 - d2 - 53)
                (new_location (Zpos ph) r) Hq ltac:(lia))
      as (m1 & e1 & m2 & H1 & H2 & ->).
    assert (Hd : d1 <= d2) by lia.
    assert (Hb : (d1 = d2 -> q <= 2 ^ 53 - 2) /\ (d1 + 1 = d2 -> q <= 2 ^ 54 - 4)).
    { split; intros E.
      - destruct (Hsame E) as [_ ES']. rewrite ES' in *. nia.
      - rewrite (Hless E) in *. nia. }
    destruct Hb as [Hb1 Hb2].
    destruct (Z.ltb_spec q (2 ^ 53)) as [Hq53|Hq53]; destruct H1 as [-> ->];
      destruct (Z.ltb_spec m2 (2 ^ 53)) as [Hm|Hm];
      eexists _, _; (split; [reflexivity|]); lia.
  - (* h < w *)
    destruct (binary_round_aux_quotient q (d1 - d2 - 53)
                (new_location (Zpos ph) r) Hq ltac:(lia))
      as (m1 & e1 & m2 & H1 & H2 & ->).
    assert (Hd : d2 <= d1) by lia.
    assert (Hb : (d1 = d2 -> 2 ^ 53 + 2 <= q) /\ (d1 = d2 + 1 -> 2 ^ 52 + 1 <= q)).
    { split; intros E.
      - destruct (Hsame E) as [_ ES']. rewrite ES' in *. nia.
      - rewrite (Hmore E) in *. nia. }
    destruct Hb as [Hb1 Hb2].
    destruct (Z.ltb_spec q (2 ^ 53)) as [Hq53|Hq53]; destruct H1 as [-> ->];
      destruct (Z.ltb_spec m2 (2 ^ 53)) as [Hm|Hm];
      eexists _, _; (split; [reflexivity|]);
      rewrite ?Z2Pos.id by lia; lia.
Qed.

(** [width / height] compares with 1 as [width] compares with [height]. *)
Lemma int_true_div_compare (w h : Z) :
  0 < w < 2 ^ 52 -> 0 < h < 2 ^ 52 ->
  exists r, int_true_div w h = Ret r /\ SFcompare r f64_one = Some (w ?= h).
Proof.
  intros Hw Hh. destruct w as [|pw|pw]; try lia. destruct h as [|ph|ph]; try lia.
  destruct (SFdiv_int_operands pw ph ltac:(lia) ltac:(lia)) as (m & e & E & Hc).
  unfold int_true_div. change (Zpos ph =? 0) with false. cbn [int_operand].
  rewrite E. eexists. split; [reflexivity|]. rewrite compare_with_one. f_equal.
  destruct (Zpos pw ?= Zpos ph).
  - destruct Hc as [-> Hm]. rewrite Z.compare_refl.
    assert (m = 4503599627370496%positive) as -> by lia. apply Pos.compare_refl.
  - destruct (Z.compare_spec e (-52)); [lia | reflexivity | lia].
  - destruct Hc as [He|[-> Hm]].
    + destruct (Z.compare_spec e (-52)); [lia | lia | reflexivity].
    + rewrite Z.compare_refl. apply Pos.compare_gt_iff. lia.
Qed.

(** ** The claims about the entry operations as a whole *)




(** C2: for [width] and [height] within the declared bounds 512..2048,
    [generate_empty_image] returns a tensor of shape [(1, height, width, 3)]
    whose [height * width * 3] samples all equal the [float32] value of
    0.2. *)
Theorem generate_empty_image_gray (width height : Z) (st : state) :
  declared_dim width -> declared_dim height ->
  exists t st',
    generate_empty_image width height st = (Ret t, st') /\
    shape t = [1; height; width; 3] /\
    Forall (fun x => x = f32_0_2) (elems t) /\
    List.length (elems t) = (1 * Z.to_nat height * Z.to_nat width * 3)%nat.
Proof.
  unfold declared_dim. intros Hw Hh.
  exists (placeholder width height), (add_logs st [empty_image_message width height]).
  split; [apply generate_empty_image_nonneg; lia|].
  split; [apply placeholder_shape|].
  split; [apply placeholder_samples | apply placeholder_size; lia].
Qed.

Lemma generate_empty_image_gray_witness :
  exists t st',
    generate_empty_image 1024 768 fresh_state = (Ret t, st') /\
    shape t = [1; 768; 1024; 3] /\
    Forall (fun x => x = f32_0_2) (elems t) /\
    List.length (elems t) = (1 * Z.to_nat 768 * Z.to_nat 1024 * 3)%nat.
Proof. apply generate_empty_image_gray; unfold declared_dim; lia. Defined.

(** C3 (amended): a key longer than 10 is returned as it is; when the key
    file can be written the key is stored, and a later call without a fresh
    key, on a readable file holding it, returns the same string provided the
    key is what reading it back and stripping gives (no leading or trailing
    whitespace, no carriage return). *)
Theorem key_round_trip (user_input_key : string) (st : state) :
  10 < len user_input_key ->
  fst (get_api_key user_input_key st) = Ret user_input_key /\
  (key_file_write_failure st user_input_key = None ->
   key_file (snd (get_api_key user_input_key st)) = Some user_input_key /\
   forall (later : string) (st2 : state),
     len later <= 10 ->
     key_file st2 = key_file (snd (get_api_key user_input_key st)) ->
     key_file_read_error st2 = None ->
     strip (universal_newlines user_input_key) = user_input_key ->
     fst (get_api_key later st2) = Ret user_input_key).
Proof.
  intros Hlen. destruct (get_api_key_fresh user_input_key st Hlen) as [Hret Hfile].
  split; [exact Hret|]. intros Hw. rewrite Hw in Hfile.
  split; [exact Hfile|]. intros later st2 Hlater Hsame Hread Hclean.
  rewrite Hfile in Hsame.
  rewrite (get_api_key_stored later user_input_key st2 Hlater Hsame Hread);
    rewrite Hclean; [reflexivity | exact Hlen].
Qed.

Lemma key_round_trip_witness :
  fst (get_api_key sample_key fresh_state) = Ret sample_key /\
  (key_file_write_failure fresh_state sample_key = None ->
   key_file (snd (get_api_key sample_key fresh_state)) = Some sample_key /\
   forall (later : string) (st2 : state),
     len later <= 10 ->
     key_file st2 = key_file (snd (get_api_key sample_key fresh_state)) ->
     key_file_read_error st2 = None ->
     strip (universal_newlines sample_key) = sample_key ->
     fst (get_api_key later st2) = Ret sample_key).
Proof. apply key_round_trip. vm_compute. reflexivity. Defined.

(** C3 as stated fails: a key that ends in a space is returned and stored
    with the space, and comes back from the file without it. *)
Lemma stored_key_loses_trailing_space :
  let key := "AIzaSy-0123456789 " in
  let first := get_api_key key fresh_state in
  10 < len key /\
  fst first = Ret key /\
  key_file (snd first) = Some key /\
  fst (get_api_key "" (snd first)) = Ret "AIzaSy-0123456789" /\
  fst (get_api_key "" (snd first)) <> Ret key.
Proof.
  cbv zeta. repeat split; try (vm_compute; reflexivity).
  vm_compute. discriminate.
Qed.

(** C4: a key of length at most 10, when the key file is absent or holds
    at most 10 characters, makes [get_api_key] return the empty string; it
    returns, it does not raise. *)
Theorem short_key_without_stored_key (user_input_key : string) (st : state) :
  len user_input_key <= 10 ->
  (forall stored, key_file st = Some stored -> len stored <= 10) ->
  exists st', get_api_key user_input_key st = (Ret "", st').
Proof.
  intros Hk Hs.
  assert (E : fst (get_api_key user_input_key st) = Ret "").
  { apply get_api_key_none; [exact Hk|]. intros c Hc.
    pose proof (len_read_back c). specialize (Hs c Hc). lia. }
  exists (snd (get_api_key user_input_key st)).
  rewrite <- E. destruct (get_api_key user_input_key st). reflexivity.
Qed.

Lemma short_key_without_stored_key_witness :
  exists st', get_api_key "short" (set_key_file fresh_state (Some "old-key")) = (Ret "", st').
Proof.
  apply short_key_without_stored_key.
  - vm_compute. discriminate.
  - intros stored H. injection H as <-. vm_compute. discriminate.
Defined.



(** The scenario of C6 run: a red ball at 1024 by 768, with a key at hand,
    sends exactly one request, with the landscape prompt. *)
Example red_ball_request :
  api_calls (snd (generate_image offline_libs "a red ball" sample_key model_id
                    1024 768 (f64_of_Z 1) 7 None fresh_state))
  = [mk_request model_id
       (ContentsStr "Create a detailed image of: a red ball. Generate the image in landscape (horizontal) orientation with exact dimensions of 1024x768 pixels. Ensure the composition fits properly within these dimensions without stretching or distortion.")
       (mk_config (f64_of_Z 1) 7 ["Text"; "Image"])].
Proof. lazy. reflexivity. Qed.

(** C10: the [model] input has no effect: two invocations that differ in
    it alone end in the same outcome and the same state, trace of requests
    included, and every request either entry operation sends names
    "models/gemini-2.0-flash-exp". *)
Theorem model_input_is_ignored (L : Libs) (prompt api_key model model' : string)
  (width height : Z) (temperature : f64) (seed : Z)
  (image image1 image2 image3 image4 : option tensor) (st : state) :
  generate_image L prompt api_key model width height temperature seed image st
  = generate_image L prompt api_key model' width height temperature seed image st /\
  generate_image_multi L prompt api_key model width height temperature seed
    image1 image2 image3 image4 st
  = generate_image_multi L prompt api_key model' width height temperature seed
      image1 image2 image3 image4 st /\
  (exists new,
     api_calls (snd (generate_image L prompt api_key model width height
                       temperature seed image st))
     = (api_calls st ++ new)%list /\
     Forall (fun r => req_model r = "models/gemini-2.0-flash-exp") new) /\
  (exists new,
     api_calls (snd (generate_image_multi L prompt api_key model width height
                       temperature seed image1 image2 image3 image4 st))
     = (api_calls st ++ new)%list /\
     Forall (fun r => req_model r = "models/gemini-2.0-flash-exp") new).
Proof.
  assert (Hsel : forall new,
             Forall (well_built prompt width height temperature seed st) new ->
             Forall (fun r => req_model r = "models/gemini-2.0-flash-exp") new).
  { intros new H. eapply Forall_impl; [|exact H]. now intros r (Hm & _). }
  split; [reflexivity|]. split; [reflexivity|]. split.
  - destruct (generate_image_trace L prompt api_key model width height temperature
                seed image st) as (new & E & H).
    exists new. auto.
  - destruct (generate_image_multi_trace L prompt api_key model width height
                temperature seed image1 image2 image3 image4 st) as (new & E & H).
    exists new. auto.
Qed.

(** ** The response loops *)

Lemma run_bind_log {B} (s : string) (f : string -> M B) (st : state) :
  bind (log s) f st = f s (add_logs st [s]).
Proof. reflexivity. Qed.

Lemma run_bind_ret {A B} (a : A) (f : A -> M B) (st : state) :
  bind (ret a) f st = f a st.
Proof. reflexivity. Qed.

Lemma run_bind_lift_ret {A B} (a : A) (f : A -> M B) (st : state) :
  bind (lift (Ret a)) f st = f a st.
Proof. reflexivity. Qed.

Lemma run_bind_lift_raise {A B} (e : exn) (f : A -> M B) (st : state) :
  bind (lift (@Raise A e)) f st = (Raise e, st).
Proof. reflexivity. Qed.

Lemma run_bind_get_log {B} (f : list string -> M B) (st : state) :
  bind get_log f st = f (log_messages st) st.
Proof. reflexivity. Qed.

Lemma run_bind {A B} (m : M A) (f : A -> M B) (st st' : state) (a : A) :
  m st = (Ret a, st') -> bind m f st = f a st'.
Proof. intros E. unfold bind. now rewrite E. Qed.

Lemma run_bind_assoc {A B C} (m : M A) (g : A -> M B) (f : B -> M C) (st : state) :
  bind (bind m g) f st = bind m (fun x => bind (g x) f) st.
Proof. unfold bind. now destruct (m st) as [[a|e] st']. Qed.

Lemma run_try_ret {A} (m : M A) (h : exn -> M A) (st st' : state) (a : A) :
  m st = (Ret a, st') -> try_except m h st = (Ret a, st').
Proof. intros E. unfold try_except. now rewrite E. Qed.

Lemma run_try_raise {A} (m : M A) (h : exn -> M A) (st st' : state) (e : exn) :
  m st = (Raise e, st') -> try_except m h st = h e st'.
Proof. intros E. unfold try_except. now rewrite E. Qed.

(** Closes a goal [exists msgs, (o, st') = (o, add_logs st msgs)] once the
    run has been rewritten into nested [add_logs]. *)
Ltac logged :=
  rewrite ?add_logs_app;
  first [ eexists; reflexivity
        | exists (@nil string); rewrite add_logs_nil; reflexivity ].

Section Loops.

Variable L : Libs.

Lemma sniff_base64_run (d : option bytes) (st : state) :
  exists msgs, sniff_base64 L d st = (Ret (sniffed L d), add_logs st msgs).
Proof.
  unfold sniff_base64, sniffed. destruct d as [b|]; [|logged].
  destruct (negb (Z.of_nat (List.length b) =? 0) && (8 <? Z.of_nat (List.length b)));
    [|logged].
  rewrite run_bind_log.
  destruct (String.prefix "69 56 42 4f 52" (join " " (map hex2 (firstn 8 b))));
    [|logged].
  destruct (b64decode L (decode_utf8_ignore L b)) as [decoded|e].
  - erewrite run_try_ret.
    2:{ rewrite run_bind_log. cbv zeta. rewrite run_bind_lift_ret, run_bind_log.
        reflexivity. }
    logged.
  - erewrite run_try_raise.
    2:{ rewrite run_bind_log. cbv zeta. rewrite run_bind_lift_raise. reflexivity. }
    rewrite run_bind_log. logged.
Qed.

Lemma open_image_run (width height : Z) (d : option bytes) (st : state) :
  exists msgs,
    open_image L width height d st = (decode_image L width height d, add_logs st msgs).
Proof.
  unfold open_image, decode_image.
  destruct (Image_open L (buffer_of d)) as [im|e];
    [rewrite run_bind_lift_ret | rewrite run_bind_lift_raise; logged].
  rewrite run_bind_log. cbn [obind].
  set (c := if negb (im_mode im =? "RGB")%string
            then Image_convert L im "RGB" else Ret im).
  assert (Ec : (if negb (im_mode im =? "RGB")%string
                then lift (Image_convert L im "RGB") else ret im) = lift c).
  { unfold c. now destruct (negb (im_mode im =? "RGB")%string). }
  rewrite Ec. clear Ec. destruct c as [im1|e];
    [rewrite run_bind_lift_ret | rewrite run_bind_lift_raise; logged].
  cbn [obind].
  set (c := if negb (im_width im1 =? width) || negb (im_height im1 =? height)
            then Image_resize_LANCZOS L im1 width height else Ret im1).
  assert (Ec : (if negb (im_width im1 =? width) || negb (im_height im1 =? height)
                then lift (Image_resize_LANCZOS L im1 width height) else ret im1)
               = lift c).
  { unfold c.
    now destruct (negb (im_width im1 =? width) || negb (im_height im1 =? height)). }
  rewrite Ec. clear Ec. destruct c as [im2|e];
    [rewrite run_bind_lift_ret | rewrite run_bind_lift_raise; logged].
  cbn [obind].
  destruct (np_array im2) as [arr|e];
    [rewrite run_bind_lift_ret | rewrite run_bind_lift_raise; logged].
  cbn [obind]. rewrite run_bind_log. logged.
Qed.

Lemma generate_empty_image_run (width height : Z) (st : state) :
  exists o msgs, generate_empty_image width height st = (o, add_logs st msgs).
Proof.
  destruct (Z_lt_le_dec width 0) as [Hw|Hw].
  - rewrite generate_empty_image_negative by auto.
    eexists _, []. now rewrite add_logs_nil.
  - destruct (Z_lt_le_dec height 0) as [Hh|Hh].
    + rewrite generate_empty_image_negative by auto.
      eexists _, []. now rewrite add_logs_nil.
    + rewrite generate_empty_image_nonneg by assumption. eauto.
Qed.

Ltac wp_sniff :=
  match goal with
  | |- wp (sniff_base64 _ ?d) _ ?s =>
      let m := fresh "m" in
      let E := fresh "E" in
      destruct (sniff_base64_run d s) as (m & E);
      unfold wp at 1; rewrite E; cbn [fst snd]
  end.

Ltac wp_open :=
  match goal with
  | |- wp (open_image _ ?w ?h ?d) _ ?s =>
      let m := fresh "m" in
      let E := fresh "E" in
      destruct (open_image_run w h d s) as (m & E);
      unfold wp at 1; rewrite E; cbn [fst snd]
  end.

Lemma locals_unchanged (v : locals) :
  mk_locals (v_response_text v ++ "") (v_image_found v) = v.
Proof. destruct v. cbn. now rewrite append_nil_r. Qed.

Lemma scan_part_spec (width height : Z) (p : part) (v : locals) (st : state) :
  wp (scan_part L width height p v)
     (scanned_ok L width height p v (locals_after p v) st) st.
Proof.
  unfold scan_part, scanned_ok, locals_after, part_image, part_decoding, part_text.
  destruct (text p) as [t|].
  { apply wp_bind. unfold log_text_part. apply wp_log, wp_ret.
    eexists. split; [reflexivity|]. split; [reflexivity | discriminate]. }
  destruct (inline_data p) as [inline|].
  2:{ apply wp_ret. exists []. rewrite add_logs_nil, locals_unchanged.
      split; [reflexivity|]. split; [reflexivity | discriminate]. }
  rewrite locals_unchanged.
  apply wp_bind, wp_log. apply wp_try_except. cbv zeta.
  apply wp_bind, wp_log. apply wp_bind. wp_sniff.
  apply wp_try_except. apply wp_bind. wp_open.
  destruct (decode_image L width height (sniffed L (data inline))) as [img|e].
  - apply wp_bind, wp_get_log, wp_ret. rewrite !add_logs_app.
    eexists. split; [reflexivity|]. split; [reflexivity | discriminate].
  - apply wp_bind, wp_log. apply wp_bind, wp_log. apply wp_bind.
    unfold wp at 1.
    match goal with
    | |- context [generate_empty_image ?w ?h ?s] =>
        destruct (generate_empty_image_run w h s) as ([placeholder_img|e'] & m1 & ->)
    end; cbn [fst snd].
    + apply wp_ret. rewrite !add_logs_app.
      eexists. split; [reflexivity|]. split; [reflexivity|].
      intros e0 [= <-]. unfold open_failure_message.
      rewrite !in_app_iff. cbn [In]. auto 20.
    + apply wp_bind, wp_log, wp_ret. rewrite !add_logs_app.
      eexists. split; [reflexivity|]. split; [reflexivity|].
      intros e0 [= <-]. unfold open_failure_message.
      rewrite !in_app_iff. cbn [In]. auto 20.
Qed.

Lemma scan_part_multi_spec (width height : Z) (p : part) (v : locals) (st : state) :
  wp (scan_part_multi L width height p v)
     (scanned_ok L width height p v (locals_after_multi L p v) st) st.
Proof.
  unfold scan_part_multi, scanned_ok, locals_after_multi, part_image, part_decoding,
    part_text, is_inline.
  destruct (text p) as [t|].
  { apply wp_bind. unfold log_text_part. apply wp_log, wp_ret.
    rewrite orb_false_r.
    eexists. split; [reflexivity|]. split; [reflexivity | discriminate]. }
  destruct (inline_data p) as [inline|].
  2:{ apply wp_ret. exists []. rewrite add_logs_nil, orb_false_r, locals_unchanged.
      split; [reflexivity|]. split; [reflexivity | discriminate]. }
  rewrite orb_true_r, append_nil_r.
  apply wp_bind, wp_log. cbv zeta. apply wp_try_except.
  apply wp_bind, wp_log. apply wp_bind. wp_sniff.
  apply wp_try_except. apply wp_bind. wp_open.
  destruct (decode_image L width height (sniffed L (data inline))) as [img|e].
  - apply wp_bind, wp_get_log, wp_ret. rewrite !add_logs_app.
    eexists. split; [reflexivity|]. split; [reflexivity | discriminate].
  - apply wp_bind, wp_log. apply wp_bind, wp_log. apply wp_ret.
    rewrite !add_logs_app.
    eexists. split; [reflexivity|]. split; [reflexivity|].
    intros e0 [= <-]. unfold open_failure_message.
      rewrite !in_app_iff. cbn [In]. auto 20.
Qed.

End Loops.

Section Loop.

Variable L : Libs.
Variables width height : Z.
Variable body : part -> locals -> M (locals + result).
Variable after : part -> locals -> locals.
Hypothesis body_spec : forall p v st,
  wp (body p v) (scanned_ok L width height p v (after p v) st) st.

Lemma body_run (p : part) (v : locals) (st : state) :
  exists msgs,
    body p v st =
      (Ret (match part_image L width height p with
            | Some t => inr (t, response_report (log_messages st ++ msgs)
                                  (v_response_text v))
            | None => inl (after p v)
            end), add_logs st msgs) /\
    forall e, part_decoding L width height p = Some (Raise e) ->
              In (open_failure_message e) msgs.
Proof.
  destruct (body_spec p v st) as (msgs & Hst & Ho & Hlog). exists msgs.
  split; [|exact Hlog]. rewrite <- Hst, <- Ho. now destruct (body p v st).
Qed.

(** A loop over parts none of which decodes runs to its end, and has
    logged every failure. *)
Lemma for_each_no_image (ps : list part) :
  Forall (fun q => part_image L width height q = None) ps ->
  forall v st, exists msgs,
    for_each body ps v st = (Ret (inl (locals_at_end after ps v)), add_logs st msgs) /\
    forall q e, In q ps -> part_decoding L width height q = Some (Raise e) ->
                In (open_failure_message e) msgs.
Proof.
  induction 1 as [|q ps Hq _ IH]; intros v st.
  - exists []. rewrite add_logs_nil. split; [reflexivity | intros q e []].
  - destruct (body_run q v st) as (m1 & E1 & H1). rewrite Hq in E1.
    destruct (IH (after q v) (add_logs st m1)) as (m2 & E2 & H2).
    exists (m1 ++ m2)%list. split.
    + cbn [for_each locals_at_end]. rewrite (run_bind _ _ _ _ _ E1), E2.
      now rewrite add_logs_app.
    + intros q' e [<-|Hin] Hd; apply in_or_app; [left; now apply H1 | right].
      now apply (H2 q' e).
Qed.

(** A loop returns at the first part that decodes: what comes after that
    part has no say in the outcome, in the log or in the state. *)
Lemma for_each_first_image (pre : list part) (p : part) (t : tensor) :
  Forall (fun q => part_image L width height q = None) pre ->
  part_image L width height p = Some t ->
  forall v st, exists msgs,
    (forall post,
       for_each body (pre ++ p :: post) v st =
       (Ret (inr (t, response_report (log_messages st ++ msgs)
                       (v_response_text (locals_at_end after pre v)))),
        add_logs st msgs)) /\
    forall q e, In q pre -> part_decoding L width height q = Some (Raise e) ->
                In (open_failure_message e) msgs.
Proof.
  intros Hpre Hp. induction Hpre as [|q pre Hq _ IH]; intros v st.
  - destruct (body_run p v st) as (m1 & E1 & _). rewrite Hp in E1.
    exists m1. split; [|intros q e []]. intros post.
    cbn [app for_each locals_at_end]. now rewrite (run_bind _ _ _ _ _ E1).
  - destruct (body_run q v st) as (m1 & E1 & H1). rewrite Hq in E1.
    destruct (IH (after q v) (add_logs st m1)) as (m2 & E2 & H2).
    exists (m1 ++ m2)%list. split.
    + intros post. cbn [app for_each locals_at_end].
      rewrite (run_bind _ _ _ _ _ E1), E2, add_logs_app.
      rewrite log_messages_add_logs, <- app_assoc. reflexivity.
    + intros q' e [<-|Hin] Hd; apply in_or_app; [left; now apply H1 | right].
      now apply (H2 q' e).
Qed.

End Loop.

Lemma locals_at_end_single (ps : list part) (v : locals) :
  locals_at_end locals_after ps v
  = mk_locals (v_response_text v ++ texts_of ps) (v_image_found v).
Proof.
  revert v. induction ps as [|p ps IH]; intros v; cbn [locals_at_end texts_of].
  - now rewrite locals_unchanged.
  - rewrite IH. unfold locals_after. cbn [v_response_text v_image_found].
    now rewrite append_assoc.
Qed.

Lemma locals_at_end_multi (L : Libs) (ps : list part) (v : locals) :
  locals_at_end (locals_after_multi L) ps v
  = mk_locals (v_response_text v ++ texts_of ps)
              (v_image_found v || existsb is_inline ps).
Proof.
  revert v. induction ps as [|p ps IH]; intros v; cbn [locals_at_end texts_of existsb].
  - now rewrite orb_false_r, locals_unchanged.
  - rewrite IH. unfold locals_after_multi. cbn [v_response_text v_image_found].
    now rewrite append_assoc, orb_assoc.
Qed.

(** ** The tensor of a decoded image *)

Lemma byte_sample_in_unit_interval (b : byte) :
  in_unit_interval (SFdiv 24 128 (f32_of_Z (Z.of_N (Byte.to_N b))) (f32_of_f64 f64_255))
  = true.
Proof. destruct b; vm_compute; reflexivity. Qed.

Lemma decode_image_tensor (L : Libs) (width height : Z) (d : option bytes)
  (t : tensor) :
  decode_image L width height d = Ret t ->
  shape t = [1; height; width; 3] /\
  Forall (fun x => in_unit_interval x = true) (elems t).
Proof.
  unfold decode_image.
  destruct (Image_open L (buffer_of d)) as [im|e]; cbn [obind]; [|discriminate].
  destruct (if negb (im_mode im =? "RGB")%string
            then Image_convert L im "RGB" else Ret im) as [im1|e];
    cbn [obind]; [|discriminate].
  destruct (negb (im_width im1 =? width) || negb (im_height im1 =? height)) eqn:Esize.
  - unfold Image_resize_LANCZOS.
    destruct (resize_LANCZOS_pixels L im1 width height) as [px|e];
      cbn [obind]; [|discriminate].
    unfold np_array. cbn [im_load im_width im_height obind].
    intros [= <-]. split; [reflexivity|].
    cbn [unsqueeze0 div_scalar astype_float32 elems shape].
    rewrite map_map. apply Forall_forall. intros x Hx.
    apply in_map_iff in Hx as (b & <- & _). apply byte_sample_in_unit_interval.
  - apply orb_false_elim in Esize as [Ew Eh].
    apply negb_false_iff, Z.eqb_eq in Ew. apply negb_false_iff, Z.eqb_eq in Eh.
    cbn [obind]. unfold np_array.
    destruct (im_load im1) as [px|e]; cbn [obind]; [|discriminate].
    intros [= <-]. split; [cbn; now rewrite Ew, Eh|].
    cbn [unsqueeze0 div_scalar astype_float32 elems shape].
    rewrite map_map. apply Forall_forall. intros x Hx.
    apply in_map_iff in Hx as (b & <- & _). apply byte_sample_in_unit_interval.
Qed.

Lemma part_image_tensor (L : Libs) (width height : Z) (p : part) (t : tensor) :
  part_image L width height p = Some t ->
  shape t = [1; height; width; 3] /\
  Forall (fun x => in_unit_interval x = true) (elems t).
Proof.
  unfold part_image, part_decoding.
  destruct (text p); [discriminate|]. destruct (inline_data p) as [inline|]; [|discriminate].
  destruct (decode_image L width height (sniffed L (data inline))) as [t'|e] eqn:E;
    [|discriminate].
  intros [= <-]. now apply (decode_image_tensor L width height _ _ E).
Qed.

(** ** The response interpreter without an image *)

Lemma finish_without_image_run (width height : Z) (v : locals) (st : state) :
  0 <= width -> 0 <= height ->
  exists logs st',
    finish_without_image width height v st
    = (Ret (placeholder width height, response_report logs (final_text v)), st').
Proof.
  intros Hw Hh. unfold finish_without_image, final_text.
  destruct (negb (v_image_found v)).
  - rewrite run_bind_assoc, run_bind_log.
    destruct (v_response_text v =? "")%string;
      rewrite run_bind_ret, run_bind_get_log; cbv zeta;
      erewrite run_bind by (apply generate_empty_image_nonneg; assumption);
      eexists _, _; reflexivity.
  - rewrite run_bind_ret, run_bind_get_log. cbv zeta.
    erewrite run_bind by (apply generate_empty_image_nonneg; assumption).
    eexists _, _. reflexivity.
Qed.

Section Interpreter.

Variable L : Libs.

Lemma interpret_response_no_image (width height : Z) (resp : response)
  (c : candidate) (rest : list candidate) (ps : list part) (st : state) :
  0 <= width -> 0 <= height ->
  candidates resp = Some (c :: rest) -> parts_of c = Ret ps ->
  Forall (fun q => part_image L width height q = None) ps ->
  exists logs st',
    interpret_response L width height "" resp st
    = (Ret (placeholder width height,
            response_report logs (final_text (mk_locals (texts_of ps) false))), st').
Proof.
  intros Hw Hh Hc Hps Hno. unfold interpret_response.
  rewrite run_bind_log, Hc, Hps, run_bind_lift_ret. cbv zeta.
  destruct (for_each_no_image L width height _ _ (scan_part_spec L width height) ps Hno
              (mk_locals "" false)
              (add_logs st ["API response received successfully, processing..."]))
    as (msgs & E & _).
  rewrite (run_bind _ _ _ _ _ E), locals_at_end_single.
  apply finish_without_image_run; assumption.
Qed.

Lemma interpret_response_multi_no_image (width height : Z) (resp : response)
  (c : candidate) (rest : list candidate) (ps : list part) (st : state) :
  0 <= width -> 0 <= height ->
  candidates resp = Some (c :: rest) -> parts_of c = Ret ps ->
  Forall (fun q => part_image L width height q = None) ps ->
  exists logs st',
    interpret_response_multi L width height "" resp st
    = (Ret (placeholder width height,
            response_report logs
              (final_text (mk_locals (texts_of ps) (existsb is_inline ps)))), st').
Proof.
  intros Hw Hh Hc Hps Hno. unfold interpret_response_multi.
  rewrite run_bind_log, Hc, Hps, run_bind_lift_ret. cbv zeta.
  destruct (for_each_no_image L width height _ _ (scan_part_multi_spec L width height)
              ps Hno (mk_locals "" false)
              (add_logs st ["API response received successfully, processing..."]))
    as (msgs & E & _).
  rewrite (run_bind _ _ _ _ _ E), locals_at_end_multi.
  apply finish_without_image_run; assumption.
Qed.

Lemma interpret_response_first_image (width height : Z) (resp : response)
  (c : candidate) (rest : list candidate) (pre post : list part) (p : part)
  (t : tensor) (st : state) :
  candidates resp = Some (c :: rest) -> parts_of c = Ret (pre ++ p :: post)%list ->
  Forall (fun q => part_image L width height q = None) pre ->
  part_image L width height p = Some t ->
  exists logs st',
    interpret_response L width height "" resp st
    = (Ret (t, response_report logs (texts_of pre)), st').
Proof.
  intros Hc Hps Hpre Hp. unfold interpret_response.
  rewrite run_bind_log, Hc, Hps, run_bind_lift_ret. cbv zeta.
  destruct (for_each_first_image L width height _ _ (scan_part_spec L width height)
              pre p t Hpre Hp (mk_locals "" false)
              (add_logs st ["API response received successfully, processing..."]))
    as (msgs & E & _).
  rewrite (run_bind _ _ _ _ _ (E post)), locals_at_end_single.
  eexists _, _. reflexivity.
Qed.

Lemma interpret_response_multi_first_image (width height : Z) (resp : response)
  (c : candidate) (rest : list candidate) (pre post : list part) (p : part)
  (t : tensor) (st : state) :
  candidates resp = Some (c :: rest) -> parts_of c = Ret (pre ++ p :: post)%list ->
  Forall (fun q => part_image L width height q = None) pre ->
  part_image L width height p = Some t ->
  exists logs st',
    interpret_response_multi L width height "" resp st
    = (Ret (t, response_report logs (texts_of pre)), st').
Proof.
  intros Hc Hps Hpre Hp. unfold interpret_response_multi.
  rewrite run_bind_log, Hc, Hps, run_bind_lift_ret. cbv zeta.
  destruct (for_each_first_image L width height _ _
              (scan_part_multi_spec L width height)
              pre p t Hpre Hp (mk_locals "" false)
              (add_logs st ["API response received successfully, processing..."]))
    as (msgs & E & _).
  rewrite (run_bind _ _ _ _ _ (E post)), locals_at_end_multi.
  eexists _, _. reflexivity.
Qed.

(** Once the service has answered, an entry operation returns what its
    response interpreter returns. *)
Lemma generate_image_served (prompt api_key model : string) (width height : Z)
  (temperature : f64) (seed : Z) (image : option tensor) (st : state)
  (resp : response) :
  served L (build_request L prompt api_key width height temperature seed image) st resp ->
  exists st1,
    forall r st',
      interpret_response L width height "" resp st1 = (Ret r, st') ->
      generate_image L prompt api_key model width height temperature seed image st
      = (Ret r, st').
Proof.
  intros (c & cts & cfg & st1 & Eb & Es).
  exists (set_api_calls st1 (api_calls st1 ++ [mk_request model_id cts cfg])).
  intros r st' Ei. unfold generate_image, reset_log, bind at 1.
  apply run_try_ret. unfold generate_image_try. cbv zeta.
  rewrite (run_bind _ _ _ _ _ Eb). unfold bind, models_generate_content.
  rewrite Es. exact Ei.
Qed.

Lemma generate_image_multi_served (prompt api_key model : string)
  (width height : Z) (temperature : f64) (seed : Z)
  (image1 image2 image3 image4 : option tensor) (st : state) (resp : response) :
  served L (build_request_multi L prompt api_key width height temperature seed
              image1 image2 image3 image4) st resp ->
  exists st1,
    forall r st',
      interpret_response_multi L width height "" resp st1 = (Ret r, st') ->
      generate_image_multi L prompt api_key model width height temperature seed
        image1 image2 image3 image4 st
      = (Ret r, st').
Proof.
  intros (c & cts & cfg & st1 & Eb & Es).
  exists (set_api_calls st1 (api_calls st1 ++ [mk_request model_id cts cfg])).
  intros r st' Ei. unfold generate_image_multi, reset_log, bind at 1.
  apply run_try_ret. unfold generate_image_multi_try. cbv zeta.
  rewrite (run_bind _ _ _ _ _ Eb). unfold bind, models_generate_content.
  rewrite Es. exact Ei.
Qed.

End Interpreter.

Lemma response_report_ends (logs : list string) (response_text : string) :
  contains response_text (response_report logs response_text).
Proof.
  unfold response_report.
  exists ("## Processing Log" ++ nl ++ join nl logs ++ nl ++ nl ++ "## API Response" ++ nl),
    "".
  rewrite append_nil_r, !append_assoc. reflexivity.
Qed.

(** ** The claims about reference images and about the response *)

Section References.

Variable L : Libs.

(** A reference image that passes the batch test and that Pillow can turn
    into a PNG is put into the request, whatever its last dimension. *)
Lemma reference_kept (sp : string) (image : tensor) (pil : pil_image)
  (png : bytes) (st : state) :
  single_batch image = true ->
  to_pil L image = Ret pil -> save_PNG L pil = Ret png ->
  fst (reference_block L sp (Some image) st)
  = Ret (ContentsParts [InlineData "image/png" png;
                        Text (sp ++ " Use this reference image as style guidance.")],
         true) /\
  fst (process_image L (Some image) st) = Ret (Some (InlineData "image/png" png)).
Proof.
  intros Hb Hp Hs. unfold reference_block, process_image, try_except, bind, lift.
  rewrite Hb, Hp, Hs. split; reflexivity.
Qed.

(** A reference image that fails the batch test is left out, with one line
    in the log, and nothing is raised. *)
Lemma reference_dropped (sp : string) (image : tensor) (st : state) :
  single_batch image = false ->
  reference_block L sp (Some image) st
  = (Ret (ContentsStr sp, false),
     add_logs st ["Reference image format incorrect: " ++ str_of_shape (shape image)]) /\
  process_image L (Some image) st
  = (Ret None, add_logs st ["Image format incorrect: " ++ str_of_shape (shape image)]).
Proof.
  intros Hb. unfold reference_block, process_image, try_except, bind.
  rewrite Hb. split; reflexivity.
Qed.

End References.

(** C7 (the code on a reference image of shape [(1, 2, 2, 4)]): the image
    passes the only shape test there is, [len(image.shape) == 4 and
    image.shape[0] == 1], is encoded and sent as inline data by both entry
    operations, and the log says so; a batch of two images, of shape
    [(2, 2, 2, 3)], is left out with a line in the log. *)
Theorem four_channel_reference_is_sent :
  let png := (png_signature ++ [x00; x00; x00; x0d])%list in
  let sp := "Create a detailed image of: a red ball. Generate the image in square orientation with exact dimensions of 512x512 pixels. Ensure the composition fits properly within these dimensions without stretching or distortion." in
  let cfg := mk_config (f64_of_Z 1) 7 ["Text"; "Image"] in
  let single img := snd (generate_image offline_libs "a red ball" sample_key model_id
                           512 512 (f64_of_Z 1) 7 (Some img) fresh_state) in
  let multi img := snd (generate_image_multi offline_libs "a red ball" sample_key
                          model_id 512 512 (f64_of_Z 1) 7 (Some img) None None None
                          fresh_state) in
  shape rgba_image = [1; 2; 2; 4] /\
  api_calls (single rgba_image)
  = [mk_request model_id
       (ContentsParts [InlineData "image/png" png;
                       Text (sp ++ " Use this reference image as style guidance.")])
       cfg] /\
  In "Reference image added to request" (log_messages (single rgba_image)) /\
  api_calls (multi rgba_image)
  = [mk_request model_id
       (ContentsParts [InlineData "image/png" png;
                       Text (sp ++ " Use these 1 reference images as style/content guidance.")])
       cfg] /\
  In "Reference image 1 added to request" (log_messages (multi rgba_image)) /\
  api_calls (single rgb_batch) = [mk_request model_id (ContentsStr sp) cfg] /\
  In "Reference image format incorrect: torch.Size([2, 2, 2, 3])"
     (log_messages (single rgb_batch)) /\
  api_calls (multi rgb_batch) = [mk_request model_id (ContentsParts [Text sp]) cfg] /\
  In "Image format incorrect: torch.Size([2, 2, 2, 3])"
     (log_messages (multi rgb_batch)).
Proof.
  cbv zeta. repeat split; lazy; try reflexivity; auto 20.
Qed.






(** [generate_image] on the same response does put the message in. *)
Example single_report_has_message :
  exists full_text,
    returned_text (fst (generate_image (answering_libs [broken_part]) "a red ball"
                          sample_key model_id 512 512 (f64_of_Z 1) 7 None
                          fresh_state))
    = Some full_text /\
    containsb no_image_or_text full_text = true.
Proof. eexists. split; [lazy; reflexivity | vm_compute; reflexivity]. Qed.
(** * Further properties of the code *)

(** ** States *)

Lemma set_key_file_same (st : state) : set_key_file st (key_file st) = st.
Proof. now destruct st. Qed.

Lemma set_rng_pos_add_logs (st : state) (n : nat) (msgs : list string) :
  set_rng_pos (add_logs st msgs) n = add_logs (set_rng_pos st n) msgs.
Proof. reflexivity. Qed.

(** ** The key resolver, in full *)

Lemma stored_key_length (st : state) :
  stored_key st = "" \/ 10 < len (stored_key st).
Proof.
  unfold stored_key. destruct (key_file st); [|now left].
  destruct (key_file_read_error st); [now left|]. cbv zeta.
  destruct (Z.ltb_spec 10 (len (strip (universal_newlines s)))); [now right | now left].
Qed.

Lemma resolved_key_length (k : string) (st : state) :
  resolved_key k st = "" \/ 10 < len (resolved_key k st).
Proof.
  unfold resolved_key. destruct (Z.ltb_spec 10 (len k)); [now right|].
  apply stored_key_length.
Qed.

(** The run of [get_api_key], whatever the input and the state. *)
Lemma get_api_key_run (k : string) (st : state) :
  exists msgs,
    get_api_key k st
    = (Ret (resolved_key k st), add_logs (set_key_file st (key_file_after k st)) msgs)
    /\ (resolved_key k st = "" <-> In "Warning: No valid API key provided" msgs).
Proof.
  unfold get_api_key, resolved_key, key_file_after.
  destruct (Z.lt_ge_cases 10 (len k)) as [Hk|Hk].
  - rewrite long_key_test by assumption.
    replace (10 <? len k) with true by (symmetry; apply Z.ltb_lt; lia).
    unfold bind, try_except, log, write_key_file, ret. cbn [log_messages set_log].
    destruct st as [lg kf wf re rg rp ac]. cbn.
    destruct (wf k) as [[e left_behind]|]; cbn.
    + exists ["Using user input API key"; "Failed to save API key: " ++ exn_str e].
      unfold add_logs, set_key_file, set_log. cbn. rewrite <- app_assoc. split; [reflexivity|].
      split.
      * intros ->. unfold len in Hk. simpl in Hk. lia.
      * intros [H|[H|[]]]; discriminate H.
    + exists ["Using user input API key"; "API key saved to node directory"].
      unfold add_logs, set_key_file, set_log. cbn. rewrite <- app_assoc. split; [reflexivity|].
      split.
      * intros ->. unfold len in Hk. simpl in Hk. lia.
      * intros [H|[H|[]]]; discriminate H.
  - rewrite short_key_test by lia.
    replace (10 <? len k) with false by (symmetry; apply Z.ltb_ge; lia).
    rewrite set_key_file_same.
    unfold stored_key, bind, try_except, log, key_file_exists, read_key_file, ret.
    destruct st as [lg kf wf re rg rp ac]. cbn.
    destruct kf as [c|]; cbn.
    2:{ exists ["Warning: No valid API key provided"]. split; [reflexivity|].
        split; [simpl; auto | reflexivity]. }
    destruct re as [e|]; cbn.
    { exists ["Failed to read saved API key: " ++ exn_str e;
              "Warning: No valid API key provided"].
      unfold add_logs, set_log. cbn. rewrite <- app_assoc. split; [reflexivity|].
      split; [simpl; auto | reflexivity]. }
    destruct (Z.lt_ge_cases 10 (len (strip (universal_newlines c)))) as [Hc|Hc].
    + rewrite long_key_test by assumption.
      replace (10 <? len (strip (universal_newlines c))) with true
        by (symmetry; apply Z.ltb_lt; lia). cbn.
      exists ["Using saved API key"]. split; [reflexivity|]. split.
      * intros E. rewrite E in Hc. unfold len in Hc. simpl in Hc. lia.
      * intros [H|[]]; discriminate H.
    + rewrite short_key_test by lia.
      replace (10 <? len (strip (universal_newlines c))) with false
        by (symmetry; apply Z.ltb_ge; lia). cbn.
      exists ["Warning: No valid API key provided"]. split; [reflexivity|].
      split; [simpl; auto | reflexivity].
Qed.

(** X1: [get_api_key] never raises.  It returns the input when that has
    more than 10 characters, and otherwise the stripped content of the key
    file when the file is there, can be read and holds more than 10
    characters, and otherwise the empty string; what it returns is empty or
    longer than 10 characters, and it is empty exactly when the warning that
    no valid key was provided is logged.  Only a long input makes it write
    the key file, and apart from the log and the key file it changes
    nothing. *)
Theorem get_api_key_resolves (user_input_key : string) (st : state) :
  exists msgs,
    get_api_key user_input_key st
    = (Ret (resolved_key user_input_key st),
       add_logs (set_key_file st (key_file_after user_input_key st)) msgs) /\
    (resolved_key user_input_key st = "" \/ 10 < len (resolved_key user_input_key st)) /\
    (resolved_key user_input_key st = ""
     <-> In "Warning: No valid API key provided" msgs) /\
    (len user_input_key <= 10 -> key_file_after user_input_key st = key_file st).
Proof.
  destruct (get_api_key_run user_input_key st) as (msgs & E & Hw).
  exists msgs. split; [exact E|]. split; [apply resolved_key_length|].
  split; [exact Hw|]. intros Hk. unfold key_file_after.
  destruct (Z.ltb_spec 10 (len user_input_key)); [lia | reflexivity].
Qed.

(** X2: a key of more than 10 characters that cannot be saved is used all
    the same: [get_api_key] returns it, and the log says that saving failed
    instead of saying that the key was saved; the next call without a key
    then has only what the file was left with to fall back on. *)
Theorem unsaved_key_is_still_used (user_input_key : string) (e : exn)
  (left_behind : option string) (st : state) :
  10 < len user_input_key ->
  key_file_write_failure st user_input_key = Some (e, left_behind) ->
  let st' := add_logs (set_key_file st left_behind)
               ["Using user input API key"; "Failed to save API key: " ++ exn_str e] in
  get_api_key user_input_key st = (Ret user_input_key, st') /\
  fst (get_api_key "" st') = Ret (stored_key (set_key_file st left_behind)).
Proof.
  intros Hk Hw st'. split.
  - unfold get_api_key. rewrite long_key_test by assumption.
    unfold bind, try_except, log, write_key_file, ret. cbn [log_messages set_log].
    destruct st as [lg kf wf re rg rp ac]. cbn in *. rewrite Hw. cbn.
    unfold st', add_logs, set_key_file, set_log. cbn. now rewrite <- app_assoc.
  - destruct (get_api_key_run "" st') as (msgs & -> & _). reflexivity.
Qed.

Lemma unsaved_key_is_still_used_witness :
  let st := read_only_state (mk_exn "PermissionError" "[Errno 13] Permission denied")
              fresh_state in
  let st' := add_logs (set_key_file st None)
               ["Using user input API key";
                "Failed to save API key: [Errno 13] Permission denied"] in
  get_api_key sample_key st = (Ret sample_key, st') /\
  fst (get_api_key "" st') = Ret "".
Proof.
  cbv zeta.
  apply (unsaved_key_is_still_used sample_key
           (mk_exn "PermissionError" "[Errno 13] Permission denied") None
           (read_only_state (mk_exn "PermissionError" "[Errno 13] Permission denied")
              fresh_state)).
  - vm_compute. reflexivity.
  - reflexivity.
Defined.

(** ** Stripping *)

Lemma lstrip_spaces (ws s : string) : all_space ws = true -> lstrip (ws ++ s) = lstrip s.
Proof.
  induction ws as [|c ws IH]; [reflexivity|]. cbn [all_space append lstrip].
  intros H. apply andb_prop in H as [Hc Hws]. rewrite Hc. now apply IH.
Qed.

Lemma rstrip_all_space (ws : string) : all_space ws = true -> rstrip ws = "".
Proof.
  induction ws as [|c ws IH]; [reflexivity|]. cbn [all_space rstrip].
  intros H. apply andb_prop in H as [Hc Hws]. now rewrite IH, Hc.
Qed.

Lemma rstrip_spaces (s ws : string) : all_space ws = true -> rstrip (s ++ ws) = rstrip s.
Proof.
  intros Hws. induction s as [|c s IH].
  - cbn [append]. now rewrite rstrip_all_space.
  - cbn [append rstrip]. now rewrite IH.
Qed.

Lemma lstrip_same_length (s : string) :
  String.length (lstrip s) = String.length s -> lstrip s = s.
Proof.
  destruct s as [|c s]; [reflexivity|]. cbn [lstrip].
  destruct (isspace c); [|reflexivity].
  pose proof (length_lstrip s). cbn [String.length]. lia.
Qed.

Lemma strip_fixed (s : string) : strip s = s -> lstrip s = s /\ rstrip s = s.
Proof.
  unfold strip. intros H.
  assert (E : lstrip s = s).
  { apply lstrip_same_length. pose proof (length_rstrip (lstrip s)).
    pose proof (length_lstrip s). rewrite H in *. lia. }
  rewrite E in H. now split.
Qed.

Lemma universal_newlines_no_CR (s t : string) :
  no_CR s = true -> universal_newlines (s ++ t) = s ++ universal_newlines t.
Proof.
  induction s as [|c s IH]; [reflexivity|]. cbn [no_CR append universal_newlines].
  intros H. apply andb_prop in H as [Hc Hs].
  destruct (Ascii.eqb c CR); [discriminate|]. now rewrite IH.
Qed.

Lemma universal_newlines_plain (a : ascii) (s : string) :
  Ascii.eqb a CR = false ->
  universal_newlines (String a s) = String a (universal_newlines s).
Proof. intros H. cbn [universal_newlines]. now rewrite H. Qed.

Lemma universal_newlines_CR_LF (s : string) :
  universal_newlines (String CR (String LF s)) = String LF (universal_newlines s).
Proof. reflexivity. Qed.

Lemma universal_newlines_CR (b : ascii) (s : string) :
  Ascii.eqb b LF = false ->
  universal_newlines (String CR (String b s))
  = String LF (universal_newlines (String b s)).
Proof.
  intros H. change (universal_newlines (String CR (String b s)))
    with (if Ascii.eqb b LF then String LF (universal_newlines s)
          else String LF (universal_newlines (String b s))).
  now rewrite H.
Qed.

Lemma universal_newlines_app (ws r : string) (c : ascii) (s : string) :
  r = String c s -> Ascii.eqb c LF = false ->
  universal_newlines (ws ++ r) = universal_newlines ws ++ universal_newlines r.
Proof.
  intros Hr Hc. remember (String.length ws) as n eqn:Hn. revert ws Hn.
  induction n as [n IH] using lt_wf_ind. intros ws Hn.
  destruct ws as [|a ws]; [reflexivity|].
  destruct (Ascii.eqb_spec a CR) as [->|Ha].
  - destruct ws as [|b ws].
    + cbn [append]. rewrite Hr at 1. rewrite universal_newlines_CR by assumption.
      now rewrite <- Hr.
    + cbn [append]. destruct (Ascii.eqb_spec b LF) as [->|Hb].
      * rewrite !universal_newlines_CR_LF. cbn [append]. f_equal.
        apply (IH (String.length ws)); [|reflexivity].
        subst n. cbn [String.length]. lia.
      * apply Ascii.eqb_neq in Hb. rewrite !universal_newlines_CR by assumption.
        cbn [append]. f_equal.
        apply (IH (String.length (String b ws)) ltac:(subst n; cbn [String.length]; lia)
                 (String b ws) eq_refl).
  - apply Ascii.eqb_neq in Ha. cbn [append].
    rewrite !universal_newlines_plain by assumption. cbn [append]. f_equal.
    apply (IH (String.length ws)); [|reflexivity].
    subst n. cbn [String.length]. lia.
Qed.

Lemma all_space_universal_newlines (ws : string) :
  all_space ws = true -> all_space (universal_newlines ws) = true.
Proof.
  remember (String.length ws) as n eqn:Hn. revert ws Hn.
  induction n as [n IH] using lt_wf_ind. intros ws Hn H.
  destruct ws as [|a ws]; [reflexivity|].
  cbn [all_space] in H. apply andb_prop in H as [Ha Hws].
  destruct (Ascii.eqb_spec a CR) as [->|Hna].
  - destruct ws as [|b ws]; [reflexivity|].
    cbn [all_space] in Hws. apply andb_prop in Hws as [Hb Hws'].
    destruct (Ascii.eqb_spec b LF) as [->|Hnb].
    + rewrite universal_newlines_CR_LF. cbn [all_space].
      change (isspace LF) with true. cbn [andb].
      apply (IH (String.length ws)); [subst n; cbn [String.length]; lia | reflexivity | exact Hws'].
    + apply Ascii.eqb_neq in Hnb. rewrite universal_newlines_CR by assumption.
      cbn [all_space]. change (isspace LF) with true. cbn [andb].
      apply (IH (String.length (String b ws)));
        [subst n; cbn [String.length]; lia | reflexivity |].
      cbn [all_space]. now rewrite Hb.
  - apply Ascii.eqb_neq in Hna. rewrite universal_newlines_plain by assumption.
    cbn [all_space]. rewrite Ha. cbn [andb].
    apply (IH (String.length ws)); [subst n; cbn [String.length]; lia | reflexivity | exact Hws].
Qed.

(** What reading back and stripping makes of a key that sits in the file
    between white space. *)
Lemma read_back_padded (lead key trail : string) :
  all_space lead = true -> all_space trail = true ->
  strip key = key -> no_CR key = true -> key <> "" ->
  strip (universal_newlines (lead ++ key ++ trail)) = key.
Proof.
  intros Hl Ht Hs Hcr Hne. apply strip_fixed in Hs as [Hls Hrs].
  destruct key as [|c key]; [congruence|].
  assert (Hc : isspace c = false).
  { cbn [lstrip] in Hls. destruct (isspace c); [|reflexivity].
    pose proof (length_lstrip key) as Hlen. rewrite Hls in Hlen.
    cbn [String.length] in Hlen. lia. }
  assert (Hlf : Ascii.eqb c LF = false).
  { destruct (Ascii.eqb_spec c LF) as [->|]; [discriminate Hc | reflexivity]. }
  change (lead ++ String c key ++ trail) with (lead ++ String c (key ++ trail)).
  rewrite (universal_newlines_app lead _ c (key ++ trail) eq_refl Hlf).
  change (String c (key ++ trail)) with (String c key ++ trail).
  rewrite universal_newlines_no_CR by assumption.
  unfold strip. rewrite lstrip_spaces by now apply all_space_universal_newlines.
  cbn [append lstrip]. rewrite Hc.
  change (String c (key ++ universal_newlines trail))
    with (String c key ++ universal_newlines trail).
  rewrite rstrip_spaces by now apply all_space_universal_newlines. exact Hrs.
Qed.

(** X3: a stored key is read back stripped: when the key file holds a key
    of more than 10 characters between white space (a trailing newline, a
    Windows line ending, indentation), a call without a usable input returns
    the key without that white space. *)
Theorem padded_stored_key_is_found (user_input_key lead key trail : string)
  (st : state) :
  len user_input_key <= 10 ->
  key_file st = Some (lead ++ key ++ trail) -> key_file_read_error st = None ->
  all_space lead = true -> all_space trail = true ->
  strip key = key -> no_CR key = true -> 10 < len key ->
  fst (get_api_key user_input_key st) = Ret key.
Proof.
  intros Hk Hf Hr Hl Ht Hs Hcr Hlen.
  assert (Hne : key <> "") by (intros ->; unfold len in Hlen; simpl in Hlen; lia).
  pose proof (read_back_padded lead key trail Hl Ht Hs Hcr Hne) as E.
  rewrite (get_api_key_stored user_input_key (lead ++ key ++ trail) st Hk Hf Hr);
    rewrite E; [reflexivity | exact Hlen].
Qed.

Lemma padded_stored_key_is_found_witness :
  fst (get_api_key ""
         (set_key_file fresh_state
            (Some (" " ++ sample_key ++ String CR (String LF "")))))
  = Ret sample_key.
Proof.
  apply (padded_stored_key_is_found "" " " sample_key (String CR (String LF ""))
           (set_key_file fresh_state
              (Some (" " ++ sample_key ++ String CR (String LF "")))));
    try reflexivity; vm_compute; congruence.
Defined.

(** ** The lines before the remote call, run *)

Lemma set_rng_pos_same (st : state) : set_rng_pos st (rng_pos st) = st.
Proof. now destruct st. Qed.

Lemma set_api_calls_same (st : state) : set_api_calls st (api_calls st) = st.
Proof. now destruct st. Qed.

Lemma set_api_calls_nil (st : state) : set_api_calls st (api_calls st ++ []) = st.
Proof. rewrite app_nil_r. apply set_api_calls_same. Qed.

Lemma handle_seed_run (seed : Z) (st : state) :
  exists msgs,
    handle_seed seed st
    = (Ret (seed_used seed st),
       add_logs (set_rng_pos st (if seed =? 0 then S (rng_pos st) else rng_pos st)) msgs).
Proof.
  unfold handle_seed, seed_used. destruct (seed =? 0).
  - unfold bind, random_randint, randbelow, log, ret. eexists. reflexivity.
  - rewrite set_rng_pos_same. unfold bind, log, ret. eexists. reflexivity.
Qed.

Section Builders.

Variable L : Libs.

Lemma process_image_run (image : tensor) (st : state) :
  exists msgs,
    process_image L (Some image) st = (Ret (encoded L image), add_logs st msgs).
Proof.
  unfold process_image, encoded, try_except, bind, lift, log, ret.
  destruct (single_batch image); [|eexists; reflexivity].
  destruct (to_pil L image) as [pil|e]; cbn [obind]; [|eexists; reflexivity].
  destruct (save_PNG L pil) as [b|e]; eexists; reflexivity.
Qed.

Lemma reference_block_run (sp : string) (image : option tensor) (st : state) :
  exists has_reference msgs,
    reference_block L sp image st
    = (Ret (contents_of L image sp, has_reference), add_logs st msgs).
Proof.
  unfold reference_block, contents_of. destruct image as [image|].
  2:{ exists false, []. now rewrite add_logs_nil. }
  unfold encoded, try_except. destruct (single_batch image).
  2:{ rewrite run_bind_log. do 2 eexists. reflexivity. }
  destruct (to_pil L image) as [pil|e]; cbn [obind].
  2:{ rewrite run_bind_lift_raise. cbv beta iota. rewrite run_bind_log.
      do 2 eexists. reflexivity. }
  rewrite run_bind_lift_ret, run_bind_log.
  destruct (save_PNG L pil) as [b|e].
  - rewrite run_bind_lift_ret. cbv zeta. rewrite run_bind_log. cbv beta iota.
    rewrite add_logs_app. do 2 eexists. reflexivity.
  - rewrite run_bind_lift_raise. cbv beta iota. rewrite run_bind_log.
    rewrite add_logs_app. do 2 eexists. reflexivity.
Qed.

Lemma collect_images_run (imgs : list (option tensor)) :
  forall idx image_parts image_count st,
  exists msgs,
    collect_images L imgs idx image_parts image_count st
    = (Ret ((image_parts ++ image_parts_of L imgs)%list,
            image_count + Z.of_nat (List.length (image_parts_of L imgs))),
       add_logs st msgs).
Proof.
  induction imgs as [|img imgs IH]; intros idx image_parts image_count st.
  - exists []. cbn [collect_images image_parts_of flat_map List.length Z.of_nat].
    now rewrite app_nil_r, Z.add_0_r, add_logs_nil.
  - cbn [collect_images]. destruct img as [image|].
    2:{ destruct (IH (idx + 1) image_parts image_count st) as (msgs & E).
        exists msgs. exact E. }
    destruct (process_image_run image st) as (m1 & E1).
    rewrite (run_bind _ _ _ _ _ E1).
    unfold image_parts_of. cbn [flat_map]. fold (image_parts_of L imgs).
    destruct (encoded L image) as [p|].
    + rewrite run_bind_log.
      destruct (IH (idx + 1) (image_parts ++ [p])%list (image_count + 1)
                  (add_logs (add_logs st m1)
                     ["Reference image " ++ str_of_Z (idx + 1) ++ " added to request"]))
        as (m2 & E2).
      rewrite E2. rewrite !add_logs_app. eexists. f_equal. f_equal. f_equal.
      * now rewrite <- app_assoc.
      * rewrite length_app. cbn [List.length]. lia.
    + destruct (IH (idx + 1) image_parts image_count (add_logs st m1)) as (m2 & E2).
      rewrite E2. rewrite add_logs_app. eexists. reflexivity.
Qed.

Lemma no_key_return_run (width height : Z) (st : state) :
  exists msgs,
    (log no_key_message;;
     img <- generate_empty_image width height;;
     @ret (tensor * string + client * contents * GenerateContentConfig)
       (inl (img, no_key_text))) st
    = (obind (np_ones [height; width; 3]) (fun _ =>
         Ret (inl (placeholder width height, no_key_text))),
       add_logs st msgs).
Proof.
  rewrite run_bind_log. unfold generate_empty_image, placeholder, np_ones.
  destruct (existsb (fun d => d <? 0) [height; width; 3]).
  - rewrite run_bind_assoc, run_bind_lift_raise. eexists. reflexivity.
  - rewrite run_bind_assoc, run_bind_lift_ret. cbv zeta.
    rewrite run_bind_assoc, run_bind_log. cbv beta. rewrite run_bind_ret.
    rewrite add_logs_app. eexists. reflexivity.
Qed.

Lemma build_request_run (prompt api_key : string) (width height : Z)
  (temperature : f64) (seed : Z) (image : option tensor) (st : state) :
  exists msgs,
    build_request L prompt api_key width height temperature seed image st
    = (built_with L (contents_of L image) prompt api_key width height temperature
         seed st,
       add_logs (set_rng_pos (set_key_file st (key_file_after api_key st))
                   (rng_pos_after L api_key seed st)) msgs).
Proof.
  unfold build_request, built_with, rng_pos_after, reaches_seed.
  destruct (get_api_key_run api_key st) as (m0 & E0 & _).
  rewrite (run_bind _ _ _ _ _ E0). cbv zeta.
  set (st0 := set_key_file st (key_file_after api_key st)).
  assert (Hrp : rng_pos st0 = rng_pos st) by reflexivity.
  destruct (resolved_key api_key st =? "")%string.
  - cbn [negb andb]. rewrite <- Hrp, set_rng_pos_same.
    destruct (no_key_return_run width height (add_logs st0 m0)) as (m1 & ->).
    rewrite add_logs_app. eexists. reflexivity.
  - cbn [negb andb]. unfold genai_Client.
    destruct (genai_Client_error L (resolved_key api_key st)) as [e|].
    + cbn [andb]. rewrite <- Hrp, set_rng_pos_same. exists m0. reflexivity.
    + cbn [andb]. rewrite run_bind_ret.
      destruct (handle_seed_run seed (add_logs st0 m0)) as (m1 & E1).
      rewrite (run_bind _ _ _ _ _ E1).
      assert (Es : seed_used seed (add_logs st0 m0) = seed_used seed st) by reflexivity.
      rewrite Es. change (rng_pos (add_logs st0 m0)) with (rng_pos st).
      rewrite set_rng_pos_add_logs, add_logs_app.
      destruct (int_true_div width height) as [ratio|e].
      * rewrite run_bind_lift_ret. cbn [obind]. cbv zeta. rewrite run_bind_log.
        cbv beta.
        match goal with
        | |- exists _, bind (reference_block L ?sp ?im) _ ?s = _ =>
            destruct (reference_block_run sp im s) as (b & m2 & E2)
        end.
        rewrite (run_bind _ _ _ _ _ E2). cbn [fst snd].
        rewrite run_bind_log. cbv beta. rewrite !add_logs_app. eexists. reflexivity.
      * rewrite run_bind_lift_raise. cbn [obind]. eexists. reflexivity.
Qed.

Lemma build_request_multi_run (prompt api_key : string) (width height : Z)
  (temperature : f64) (seed : Z) (image1 image2 image3 image4 : option tensor)
  (st : state) :
  exists msgs,
    build_request_multi L prompt api_key width height temperature seed
      image1 image2 image3 image4 st
    = (built_with L (contents_multi_of L [image1; image2; image3; image4])
         prompt api_key width height temperature seed st,
       add_logs (set_rng_pos (set_key_file st (key_file_after api_key st))
                   (rng_pos_after L api_key seed st)) msgs).
Proof.
  unfold build_request_multi, built_with, rng_pos_after, reaches_seed.
  destruct (get_api_key_run api_key st) as (m0 & E0 & _).
  rewrite (run_bind _ _ _ _ _ E0). cbv zeta.
  set (st0 := set_key_file st (key_file_after api_key st)).
  assert (Hrp : rng_pos st0 = rng_pos st) by reflexivity.
  destruct (resolved_key api_key st =? "")%string.
  - cbn [negb andb]. rewrite <- Hrp, set_rng_pos_same.
    destruct (no_key_return_run width height (add_logs st0 m0)) as (m1 & ->).
    rewrite add_logs_app. eexists. reflexivity.
  - cbn [negb andb]. unfold genai_Client.
    destruct (genai_Client_error L (resolved_key api_key st)) as [e|].
    + cbn [andb]. rewrite <- Hrp, set_rng_pos_same. exists m0. reflexivity.
    + cbn [andb]. rewrite run_bind_ret.
      destruct (handle_seed_run seed (add_logs st0 m0)) as (m1 & E1).
      rewrite (run_bind _ _ _ _ _ E1).
      assert (Es : seed_used seed (add_logs st0 m0) = seed_used seed st) by reflexivity.
      rewrite Es. change (rng_pos (add_logs st0 m0)) with (rng_pos st).
      rewrite set_rng_pos_add_logs, add_logs_app.
      destruct (int_true_div width height) as [ratio|e].
      * rewrite run_bind_lift_ret. cbn [obind]. cbv zeta. rewrite run_bind_log.
        cbv beta.
        match goal with
        | |- exists _, bind (collect_images L ?imgs ?i ?ps0 ?n0) _ ?s = _ =>
            destruct (collect_images_run imgs i ps0 n0 s) as (m2 & E2)
        end.
        rewrite (run_bind _ _ _ _ _ E2). cbn [fst snd].
        rewrite run_bind_log. cbv beta. rewrite !add_logs_app. eexists. reflexivity.
      * rewrite run_bind_lift_raise. cbn [obind]. eexists. reflexivity.
Qed.

End Builders.

(** ** The frame of the entry operations *)

Lemma generate_image_entry (L : Libs) (prompt api_key model : string)
  (width height : Z) (temperature : f64) (seed : Z) (image : option tensor) :
  generate_image L prompt api_key model width height temperature seed image
  = entry_operation L
      (build_request L prompt api_key width height temperature seed image)
      (interpret_response L width height "") (generate_image_except width height).
Proof. reflexivity. Qed.

Lemma generate_image_multi_entry (L : Libs) (prompt api_key model : string)
  (width height : Z) (temperature : f64) (seed : Z)
  (image1 image2 image3 image4 : option tensor) :
  generate_image_multi L prompt api_key model width height temperature seed
    image1 image2 image3 image4
  = entry_operation L
      (build_request_multi L prompt api_key width height temperature seed
         image1 image2 image3 image4)
      (interpret_response_multi L width height "")
      (generate_image_multi_except width height).
Proof. reflexivity. Qed.

Section Entry.

Variable L : Libs.
Variable builder : M built.
Variable interpreter : response -> M result.
Variable handler : exn -> M result.
Variable out : state -> outcome built.
Variable world : state -> state.

Hypothesis builder_run :
  forall st, exists msgs, builder st = (out st, add_logs (world st) msgs).
Hypothesis interpreter_logs : forall r, logs_only (interpreter r).
Hypothesis handler_logs : forall e, logs_only (handler e).

(** An early [return] of the builder is the result. *)
Lemma entry_returned (st : state) (r : result) :
  out (set_log st []) = Ret (inl r) ->
  exists msgs,
    entry_operation L builder interpreter handler st
    = (Ret r, add_logs (world (set_log st [])) msgs).
Proof.
  intros Ho. destruct (builder_run (set_log st [])) as (msgs & E). rewrite Ho in E.
  exists msgs. unfold entry_operation, reset_log, bind at 1.
  apply run_try_ret. now rewrite (run_bind _ _ _ _ _ E).
Qed.

(** What the builder raises goes to the handler. *)
Lemma entry_raised (st : state) (e : exn) :
  out (set_log st []) = Raise e ->
  exists msgs,
    entry_operation L builder interpreter handler st
    = handler e (add_logs (world (set_log st [])) msgs).
Proof.
  intros Ho. destruct (builder_run (set_log st [])) as (msgs & E). rewrite Ho in E.
  exists msgs. unfold entry_operation, reset_log, bind at 1.
  apply run_try_raise. unfold bind. now rewrite E.
Qed.

(** What the remote call raises goes to the handler, the request made. *)
Lemma entry_call_raised (st : state) (c : client) (cts : contents)
  (cfg : GenerateContentConfig) (e : exn) :
  out (set_log st []) = Ret (inr (c, cts, cfg)) ->
  generate_content L c (mk_request model_id cts cfg) = Raise e ->
  exists msgs,
    entry_operation L builder interpreter handler st
    = handler e
        (add_logs (set_api_calls (world (set_log st []))
                     (api_calls (world (set_log st [])) ++ [mk_request model_id cts cfg]))
           msgs).
Proof.
  intros Ho Hc. destruct (builder_run (set_log st [])) as (msgs & E). rewrite Ho in E.
  exists msgs. unfold entry_operation, reset_log, bind at 1.
  apply run_try_raise. rewrite (run_bind _ _ _ _ _ E).
  unfold bind, models_generate_content. now rewrite Hc.
Qed.

(** Once the service has answered, what is left is the interpreter, inside
    the [try]. *)
Lemma entry_answered (st : state) (c : client) (cts : contents)
  (cfg : GenerateContentConfig) (resp : response) :
  out (set_log st []) = Ret (inr (c, cts, cfg)) ->
  generate_content L c (mk_request model_id cts cfg) = Ret resp ->
  exists msgs,
    entry_operation L builder interpreter handler st
    = try_except (interpreter resp) handler
        (add_logs (set_api_calls (world (set_log st []))
                     (api_calls (world (set_log st [])) ++ [mk_request model_id cts cfg]))
           msgs).
Proof.
  intros Ho Hc. destruct (builder_run (set_log st [])) as (msgs & E). rewrite Ho in E.
  exists msgs. unfold entry_operation, reset_log, bind at 1.
  unfold try_except at 1. rewrite (run_bind _ _ _ _ _ E).
  unfold bind at 1, models_generate_content. rewrite Hc. reflexivity.
Qed.

(** The state an entry operation ends in, the log aside. *)
Lemma entry_state (st : state) :
  exists msgs,
    snd (entry_operation L builder interpreter handler st)
    = add_logs (set_api_calls (world (set_log st []))
                  (api_calls (world (set_log st [])) ++ sent_of (out (set_log st []))))
        msgs.
Proof.
  destruct (out (set_log st [])) as [[r|[[c cts] cfg]]|e] eqn:Ho; cbn [sent_of].
  - destruct (entry_returned st r Ho) as (msgs & ->). exists msgs.
    now rewrite set_api_calls_nil.
  - destruct (generate_content L c (mk_request model_id cts cfg)) as [resp|e] eqn:Hc.
    + destruct (entry_answered st c cts cfg resp Ho Hc) as (m1 & ->).
      unfold try_except.
      destruct (interpreter_logs resp
                  (add_logs (set_api_calls (world (set_log st []))
                     (api_calls (world (set_log st [])) ++ [mk_request model_id cts cfg])) m1))
        as (m2 & E2).
      destruct (interpreter resp _) as [[r|e] st2]; cbn [snd] in *.
      * rewrite E2, add_logs_app. eexists. reflexivity.
      * destruct (handler_logs e st2) as (m3 & ->).
        rewrite E2, !add_logs_app. eexists. reflexivity.
    + destruct (entry_call_raised st c cts cfg e Ho Hc) as (m1 & ->).
      destruct (handler_logs e
                  (add_logs (set_api_calls (world (set_log st []))
                     (api_calls (world (set_log st [])) ++ [mk_request model_id cts cfg])) m1))
        as (m2 & ->).
      rewrite add_logs_app. eexists. reflexivity.
  - destruct (entry_raised st e Ho) as (m1 & ->).
    destruct (handler_logs e (add_logs (world (set_log st [])) m1)) as (m2 & ->).
    rewrite add_logs_app, set_api_calls_nil. eexists. reflexivity.
Qed.

End Entry.

(** ** The entry operations, case by case *)

Lemma generate_image_except_run (width height : Z) (e : exn) (st : state) :
  0 <= width -> 0 <= height ->
  generate_image_except width height e st
  = (Ret (placeholder width height,
          error_report
            (log_messages st ++ ["Gemini image generation error: " ++ exn_str e])
            ("Error during processing: " ++ exn_str e)),
     add_logs st ["Gemini image generation error: " ++ exn_str e;
                  empty_image_message width height]).
Proof.
  intros Hw Hh. unfold generate_image_except. cbv zeta.
  rewrite run_bind_log, run_bind_get_log. cbv beta.
  rewrite (run_bind _ _ _ _ _ (generate_empty_image_nonneg width height _ Hw Hh)).
  rewrite add_logs_app. reflexivity.
Qed.

Lemma generate_image_multi_except_run (width height : Z) (e : exn) (st : state) :
  0 <= width -> 0 <= height ->
  generate_image_multi_except width height e st
  = (Ret (placeholder width height,
          error_report
            (log_messages st ++ ["Gemini multi-image generation error: " ++ exn_str e])
            ("Error during processing: " ++ exn_str e)),
     add_logs st ["Gemini multi-image generation error: " ++ exn_str e;
                  empty_image_message width height]).
Proof.
  intros Hw Hh. unfold generate_image_multi_except. cbv zeta.
  rewrite run_bind_log, run_bind_get_log. cbv beta.
  rewrite (run_bind _ _ _ _ _ (generate_empty_image_nonneg width height _ Hw Hh)).
  rewrite add_logs_app. reflexivity.
Qed.

Section Cases.

Variable L : Libs.

Lemma generate_image_state (prompt api_key model : string) (width height : Z)
  (temperature : f64) (seed : Z) (image : option tensor) (st : state) :
  exists msgs,
    snd (generate_image L prompt api_key model width height temperature seed image st)
    = set_log
        (set_api_calls (world_built L api_key seed st)
           (api_calls st ++ sent_of (built_with L (contents_of L image) prompt api_key
                                       width height temperature seed st)))
        msgs.
Proof.
  rewrite generate_image_entry.
  destruct (entry_state L _ _ _ _ _
              (build_request_run L prompt api_key width height temperature seed image)
              (logs_only_interpret_response L width height "")
              (logs_only_generate_image_except width height) st) as (msgs & E).
  exists msgs. rewrite E. reflexivity.
Qed.

Lemma generate_image_multi_state (prompt api_key model : string)
  (width height : Z) (temperature : f64) (seed : Z)
  (image1 image2 image3 image4 : option tensor) (st : state) :
  exists msgs,
    snd (generate_image_multi L prompt api_key model width height temperature seed
           image1 image2 image3 image4 st)
    = set_log
        (set_api_calls (world_built L api_key seed st)
           (api_calls st
            ++ sent_of (built_with L (contents_multi_of L [image1; image2; image3; image4])
                          prompt api_key width height temperature seed st)))
        msgs.
Proof.
  rewrite generate_image_multi_entry.
  destruct (entry_state L _ _ _ _ _
              (build_request_multi_run L prompt api_key width height temperature seed
                 image1 image2 image3 image4)
              (logs_only_interpret_response_multi L width height "")
              (logs_only_generate_image_multi_except width height) st) as (msgs & E).
  exists msgs. rewrite E. reflexivity.
Qed.

Lemma built_with_ready (cts : string -> contents) (prompt api_key : string)
  (width height : Z) (temperature : f64) (seed : Z) (st : state) (ratio : f64) :
  resolved_key api_key st <> "" ->
  genai_Client_error L (resolved_key api_key st) = None ->
  int_true_div width height = Ret ratio ->
  built_with L cts prompt api_key width height temperature seed st
  = Ret (inr (mk_client (resolved_key api_key st),
              cts (simple_prompt_of prompt (orientation_of ratio) width height),
              mk_config temperature (seed_used seed st) ["Text"; "Image"])).
Proof.
  intros Hk Hc Hd. unfold built_with. cbv zeta.
  destruct (String.eqb_spec (resolved_key api_key st) ""); [contradiction|].
  now rewrite Hc, Hd.
Qed.

Lemma built_with_not_ready (cts : string -> contents) (prompt api_key : string)
  (width height : Z) (temperature : f64) (seed : Z) (st : state) :
  resolved_key api_key st = ""
  \/ genai_Client_error L (resolved_key api_key st) <> None
  \/ (exists e, int_true_div width height = Raise e) ->
  sent_of (built_with L cts prompt api_key width height temperature seed st) = [].
Proof.
  intros H. unfold built_with. cbv zeta.
  destruct (String.eqb_spec (resolved_key api_key st) "") as [E|E].
  - now destruct (np_ones [height; width; 3]).
  - destruct (genai_Client_error L (resolved_key api_key st)); [reflexivity|].
    destruct H as [H|[H|[e H]]]; [contradiction | congruence |]. now rewrite H.
Qed.

End Cases.

(** X4: [generate_image] sends exactly one request when a key is found,
    the client is created and [width / height] can be computed, whatever
    happens afterwards: the model is the fixed identifier, the configuration
    holds the temperature, the seed and the two modalities, and [contents]
    is the prompt with orientation and size, alone as a string when there is
    no reference image or the image is left out, and after the PNG of the
    reference image, with a sentence about it added, otherwise. *)
Theorem generate_image_sends_one_request (L : Libs) (prompt api_key model : string)
  (width height : Z) (temperature : f64) (seed : Z) (image : option tensor)
  (st : state) (aspect_ratio : f64) :
  resolved_key api_key st <> "" ->
  genai_Client_error L (resolved_key api_key st) = None ->
  int_true_div width height = Ret aspect_ratio ->
  let simple_prompt :=
    simple_prompt_of prompt (orientation_of aspect_ratio) width height in
  api_calls (snd (generate_image L prompt api_key model width height temperature
                    seed image st))
  = (api_calls st
     ++ [mk_request "models/gemini-2.0-flash-exp"
           (match image with
            | Some reference =>
                match encoded L reference with
                | Some img_part =>
                    ContentsParts
                      [img_part;
                       Text (simple_prompt
                             ++ " Use this reference image as style guidance.")]
                | None => ContentsStr simple_prompt
                end
            | None => ContentsStr simple_prompt
            end)
           (mk_config temperature (seed_used seed st) ["Text"; "Image"])])%list.
Proof.
  intros Hk Hc Hd sp.
  destruct (generate_image_state L prompt api_key model width height temperature seed
              image st) as (msgs & ->).
  rewrite (built_with_ready L _ prompt api_key width height temperature seed st
             aspect_ratio Hk Hc Hd).
  reflexivity.
Qed.

Lemma generate_image_sends_one_request_witness :
  api_calls (snd (generate_image offline_libs "a red ball" sample_key model_id
                    1024 768 (f64_of_Z 1) 0 (Some rgb_batch) fresh_state))
  = [mk_request "models/gemini-2.0-flash-exp"
       (ContentsStr
          (simple_prompt_of "a red ball" "landscape (horizontal)" 1024 768))
       (mk_config (f64_of_Z 1) 42 ["Text"; "Image"])].
Proof.
  apply (generate_image_sends_one_request offline_libs "a red ball" sample_key model_id
           1024 768 (f64_of_Z 1) 0 (Some rgb_batch) fresh_state
           (S754_finite false 6004799503160661 (-52))).
  - vm_compute. congruence.
  - reflexivity.
  - vm_compute. reflexivity.
Defined.

(** X5: [generate_image_multi] sends exactly one request under the same
    conditions: [contents] is a list that holds the PNG of every reference
    image that was taken, in the order of the inputs and at most four, and
    after them one text part, the prompt with orientation and size, to
    which a sentence with the number of images is added when there is at
    least one; without any image the list holds the text part alone. *)
Theorem generate_image_multi_sends_one_request (L : Libs)
  (prompt api_key model : string) (width height : Z) (temperature : f64) (seed : Z)
  (image1 image2 image3 image4 : option tensor) (st : state) (aspect_ratio : f64) :
  resolved_key api_key st <> "" ->
  genai_Client_error L (resolved_key api_key st) = None ->
  int_true_div width height = Ret aspect_ratio ->
  let simple_prompt :=
    simple_prompt_of prompt (orientation_of aspect_ratio) width height in
  let image_parts := image_parts_of L [image1; image2; image3; image4] in
  let image_count := Z.of_nat (List.length image_parts) in
  api_calls (snd (generate_image_multi L prompt api_key model width height temperature
                    seed image1 image2 image3 image4 st))
  = (api_calls st
     ++ [mk_request "models/gemini-2.0-flash-exp"
           (ContentsParts
              (image_parts
               ++ [Text (if 0 <? image_count
                         then simple_prompt ++ " Use these " ++ str_of_Z image_count
                              ++ " reference images as style/content guidance."
                         else simple_prompt)]))
           (mk_config temperature (seed_used seed st) ["Text"; "Image"])])%list /\
  image_count <= 4 /\
  Forall (fun p => exists image_bytes, p = InlineData "image/png" image_bytes)
         image_parts.
Proof.
  intros Hk Hc Hd sp image_parts image_count. split; [|split].
  - destruct (generate_image_multi_state L prompt api_key model width height
                temperature seed image1 image2 image3 image4 st) as (msgs & ->).
    rewrite (built_with_ready L _ prompt api_key width height temperature seed st
               aspect_ratio Hk Hc Hd).
    reflexivity.
  - unfold image_count, image_parts, image_parts_of. cbn [flat_map].
    repeat match goal with
           | |- context [match ?i with Some _ => _ | None => _ end] => destruct i
           end; cbn [app List.length]; lia.
  - unfold image_parts, image_parts_of. apply Forall_flat_map, Forall_forall.
    intros [image|] _; [|constructor]. unfold encoded.
    destruct (single_batch image); [|constructor].
    destruct (obind (to_pil L image) (save_PNG L)) as [b|e]; [|constructor].
    constructor; [|constructor]. now exists b.
Qed.

Lemma generate_image_multi_sends_one_request_witness :
  let png := (png_signature ++ [x00; x00; x00; x0d])%list in
  api_calls (snd (generate_image_multi offline_libs "a red ball" sample_key model_id
                    1024 768 (f64_of_Z 1) 7 (Some rgb_pixel) None (Some rgb_batch)
                    (Some rgb_pixel) fresh_state))
  = [mk_request "models/gemini-2.0-flash-exp"
       (ContentsParts
          [InlineData "image/png" png; InlineData "image/png" png;
           Text (simple_prompt_of "a red ball" "landscape (horizontal)" 1024 768
                 ++ " Use these 2 reference images as style/content guidance.")])
       (mk_config (f64_of_Z 1) 7 ["Text"; "Image"])].
Proof.
  cbv zeta.
  apply (generate_image_multi_sends_one_request offline_libs "a red ball" sample_key
           model_id 1024 768 (f64_of_Z 1) 7 (Some rgb_pixel) None (Some rgb_batch)
           (Some rgb_pixel) fresh_state (S754_finite false 6004799503160661 (-52))).
  - vm_compute. congruence.
  - reflexivity.
  - vm_compute. reflexivity.
Defined.

(** X6: no request is sent when no key is found, when creating the client
    raises, or when [width / height] raises (a height of 0); and no
    invocation ever sends more than one. *)
Theorem no_request_without_key_client_or_ratio (L : Libs)
  (prompt api_key model : string) (width height : Z) (temperature : f64) (seed : Z)
  (image image1 image2 image3 image4 : option tensor) (st : state) :
  let single :=
    snd (generate_image L prompt api_key model width height temperature seed image st) in
  let multi :=
    snd (generate_image_multi L prompt api_key model width height temperature seed
           image1 image2 image3 image4 st) in
  (resolved_key api_key st = ""
   \/ genai_Client_error L (resolved_key api_key st) <> None
   \/ (exists e, int_true_div width height = Raise e) ->
   api_calls single = api_calls st /\ api_calls multi = api_calls st) /\
  (exists new, api_calls single = (api_calls st ++ new)%list
               /\ (List.length new <= 1)%nat) /\
  (exists new, api_calls multi = (api_calls st ++ new)%list
               /\ (List.length new <= 1)%nat).
Proof.
  intros single multi.
  destruct (generate_image_state L prompt api_key model width height temperature seed
              image st) as (m1 & E1).
  destruct (generate_image_multi_state L prompt api_key model width height
              temperature seed image1 image2 image3 image4 st) as (m2 & E2).
  unfold single, multi. rewrite E1, E2. cbn [api_calls set_log set_api_calls].
  assert (Hlen : forall o, (List.length (sent_of o) <= 1)%nat).
  { intros [[r|[[c cts] cfg]]|e]; cbn; lia. }
  split; [|split; eexists; (split; [reflexivity | apply Hlen])].
  intros H. rewrite !(built_with_not_ready L _ _ _ _ _ _ _ _ H), app_nil_r. now split.
Qed.

(** ** What the entry operations return when there is no image to return *)

Section Returns.

Variable L : Libs.

Lemma built_with_no_key (cts : string -> contents) (prompt api_key : string)
  (width height : Z) (temperature : f64) (seed : Z) (st : state) :
  resolved_key api_key st = "" -> 0 <= width -> 0 <= height ->
  built_with L cts prompt api_key width height temperature seed st
  = Ret (inl (placeholder width height, no_key_text)).
Proof.
  intros Hk Hw Hh. unfold built_with. cbv zeta. rewrite Hk. cbn [String.eqb].
  now rewrite np_ones_nonneg.
Qed.

Lemma built_with_failed (cts : string -> contents) (prompt api_key : string)
  (width height : Z) (temperature : f64) (seed : Z) (st : state) (e : exn) :
  resolved_key api_key st <> "" ->
  genai_Client_error L (resolved_key api_key st) = Some e
  \/ (genai_Client_error L (resolved_key api_key st) = None
      /\ int_true_div width height = Raise e) ->
  built_with L cts prompt api_key width height temperature seed st = Raise e.
Proof.
  intros Hk H. unfold built_with. cbv zeta.
  destruct (String.eqb_spec (resolved_key api_key st) ""); [contradiction|].
  destruct H as [->|[-> ->]]; reflexivity.
Qed.

(** What the remote call raises is reported by the handler. *)
Lemma refused_run (builder : M built) (interpreter : response -> M result)
  (handler : exn -> M result) (st : state) (e : exn) :
  refused L builder st e ->
  exists st1, entry_operation L builder interpreter handler st = handler e st1.
Proof.
  intros (c & cts & cfg & st1 & Eb & Ec).
  exists (set_api_calls st1 (api_calls st1 ++ [mk_request model_id cts cfg])).
  unfold entry_operation, reset_log, bind at 1. apply run_try_raise.
  rewrite (run_bind _ _ _ _ _ Eb). unfold bind, models_generate_content.
  now rewrite Ec.
Qed.

(** Once the service has answered, what is left is the interpreter inside
    the [try]. *)
Lemma served_run (builder : M built) (interpreter : response -> M result)
  (handler : exn -> M result) (st : state) (resp : response) :
  served L builder st resp ->
  exists st1,
    entry_operation L builder interpreter handler st
    = try_except (interpreter resp) handler st1.
Proof.
  intros (c & cts & cfg & st1 & Eb & Ec).
  exists (set_api_calls st1 (api_calls st1 ++ [mk_request model_id cts cfg])).
  unfold entry_operation, reset_log, bind at 1. unfold try_except at 1.
  rewrite (run_bind _ _ _ _ _ Eb). unfold bind at 1, models_generate_content.
  now rewrite Ec.
Qed.

End Returns.

Lemma empty_response_run (width height : Z) (st : state) :
  0 <= width -> 0 <= height ->
  empty_response width height st
  = (Ret (placeholder width height,
          empty_response_text (log_messages st ++ ["No candidates in API response"])),
     add_logs st ["No candidates in API response"; empty_image_message width height]).
Proof.
  intros Hw Hh. unfold empty_response. rewrite run_bind_log, run_bind_get_log.
  cbv beta zeta.
  rewrite (run_bind _ _ _ _ _ (generate_empty_image_nonneg width height _ Hw Hh)).
  rewrite add_logs_app. reflexivity.
Qed.











(** X12: what an invocation changes apart from the log.  The key file is
    changed as [get_api_key] changes it, so not at all unless the key typed
    in has more than 10 characters; the random generator is asked for one
    number when the seed is 0 and the seed block is reached, and for none
    otherwise; the stream of the generator and the behaviour of the key
    file are as before. *)
Theorem invocation_frame (L : Libs) (prompt api_key model : string)
  (width height : Z) (temperature : f64) (seed : Z)
  (image image1 image2 image3 image4 : option tensor) (st : state) :
  let after (st' : state) :=
    key_file st' = key_file_after api_key st /\
    (len api_key <= 10 -> key_file st' = key_file st) /\
    rng_pos st'
    = (if reaches_seed L api_key st && (seed =? 0) then S (rng_pos st)
       else rng_pos st) /\
    (seed <> 0 -> rng_pos st' = rng_pos st) /\
    rng st' = rng st /\
    key_file_write_failure st' = key_file_write_failure st /\
    key_file_read_error st' = key_file_read_error st in
  after (snd (generate_image L prompt api_key model width height temperature seed
                image st)) /\
  after (snd (generate_image_multi L prompt api_key model width height temperature
                seed image1 image2 image3 image4 st)).
Proof.
  intros after.
  assert (H : forall calls msgs,
             after (set_log (set_api_calls (world_built L api_key seed st) calls) msgs)).
  { intros calls msgs. unfold after, world_built, rng_pos_after.
    cbn [key_file rng_pos rng key_file_write_failure key_file_read_error
         set_log set_api_calls set_rng_pos set_key_file].
    repeat split.
    - intros Hk. unfold key_file_after.
      destruct (Z.ltb_spec 10 (len api_key)); [lia | reflexivity].
    - intros Hs. destruct (Z.eqb_spec seed 0); [contradiction|].
      now rewrite andb_false_r. }
  split.
  - destruct (generate_image_state L prompt api_key model width height temperature
                seed image st) as (msgs & ->). apply H.
  - destruct (generate_image_multi_state L prompt api_key model width height
                temperature seed image1 image2 image3 image4 st) as (msgs & ->).
    apply H.
Qed.

(** ** Sniffing Base64 *)

Lemma hex_prefix_test (b : bytes) :
  (8 < List.length b)%nat ->
  String.prefix "69 56 42 4f 52" (join " " (map hex2 (firstn 8 b)))
  = starts_with base64_png_prefix b.
Proof.
  intros H.
  destruct b as [|b1 [|b2 [|b3 [|b4 [|b5 [|b6 [|b7 [|b8 [|b9 rest]]]]]]]]];
    cbn [List.length] in H; try lia.
  cbn [firstn map]. unfold base64_png_prefix.
  destruct b1; try reflexivity.
  destruct b2; try reflexivity.
  destruct b3; try reflexivity.
  destruct b4; try reflexivity.
  destruct b5; reflexivity.
Qed.

(** X13: the data of an inline part is taken for Base64 text exactly when
    it has more than 8 bytes and starts with the five characters iVBOR;
    then it is replaced by what [base64.b64decode] makes of it, and kept as
    it is when that raises.  In every other case, data of 8 bytes or less
    included, it is handed on untouched; nothing is raised in any case. *)
Theorem base64_is_tried_after_iVBOR_only (L : Libs) (image_data : bytes) (st : state) :
  fst (sniff_base64 L (Some image_data) st)
  = Ret (if (8 <? Z.of_nat (List.length image_data))
            && starts_with base64_png_prefix image_data
         then match b64decode L (decode_utf8_ignore L image_data) with
              | Ret decoded => Some decoded
              | Raise _ => Some image_data
              end
         else Some image_data) /\
  fst (sniff_base64 L None st) = Ret None.
Proof.
  split; [|reflexivity].
  destruct (sniff_base64_run L (Some image_data) st) as (msgs & ->). cbn [fst].
  f_equal. unfold sniffed.
  destruct (Z.ltb_spec 8 (Z.of_nat (List.length image_data))) as [Hlen|Hlen].
  - replace (Z.of_nat (List.length image_data) =? 0) with false
      by (symmetry; apply Z.eqb_neq; lia).
    cbn [negb andb]. rewrite hex_prefix_test by lia. reflexivity.
  - now rewrite andb_false_r.
Qed.

(** ** From a decoded image back to bytes *)

Lemma to_N_inj (a b : byte) : Byte.to_N a = Byte.to_N b -> a = b.
Proof.
  intros H. pose proof (Byte.of_to_N a) as Ha. rewrite H, Byte.of_to_N in Ha.
  congruence.
Qed.

Lemma sample_of_byte_trunc (b : byte) :
  trunc (SFmul 24 128 (sample_of_byte b) (f32_of_f64 (f64_of_Z 255)))
  = Some (Z.of_N (Byte.to_N b)).
Proof. destruct b; vm_compute; reflexivity. Qed.

Lemma byte_range (b : byte) : 0 <= Z.of_N (Byte.to_N b) <= 255.
Proof. pose proof (Byte.to_N_bounded b). lia. Qed.

Lemma cast_sample_of_byte (cast : f32 -> byte) (b : byte) :
  C_cast cast ->
  cast (SFmul 24 128 (sample_of_byte b) (f32_of_f64 (f64_of_Z 255))) = b.
Proof.
  intros Hc. apply to_N_inj, N2Z.inj.
  apply (Hc _ _ (sample_of_byte_trunc b) (byte_range b)).
Qed.

Lemma pixel_array_back (L : Libs) (arr : ndarray byte) :
  C_cast (cast_uint8 L) ->
  (List.length (elems arr) <= numel (shape arr))%nat ->
  astype_uint8 L
    (mul_scalar (first_item (unsqueeze0 (div_scalar (astype_float32 arr) f64_255)))
       (f64_of_Z 255))
  = arr.
Proof.
  intros Hc Hlen. destruct arr as [shp els]. cbn [shape elems] in Hlen.
  unfold astype_uint8, mul_scalar, first_item, unsqueeze0, div_scalar, astype_float32.
  cbn [shape elems tl]. f_equal.
  rewrite firstn_all2 by (now rewrite !length_map).
  rewrite !map_map. rewrite <- (map_id els) at 2. apply map_ext.
  intros b. apply (cast_sample_of_byte _ b Hc).
Qed.

Lemma length_range (n : Z) : List.length (range n) = Z.to_nat n.
Proof. unfold range. now rewrite length_map, length_seq. Qed.

Lemma length_flat_map_const {A B} (f : A -> list B) (l : list A) (k : nat) :
  (forall a, List.length (f a) = k) -> List.length (flat_map f l) = (List.length l * k)%nat.
Proof.
  intros H. induction l as [|a l IH]; [reflexivity|].
  cbn [flat_map List.length]. rewrite length_app, H, IH. lia.
Qed.

Lemma np_array_size (im : pil_image) (arr : ndarray byte) :
  np_array im = Ret arr ->
  shape arr = [im_height im; im_width im; 3] /\
  (List.length (elems arr) <= numel (shape arr))%nat.
Proof.
  unfold np_array. destruct (im_load im) as [px|e]; cbn [obind]; [|discriminate].
  intros [= <-]. split; [reflexivity|]. cbn [shape elems].
  rewrite (length_flat_map_const _ _ (Z.to_nat (im_width im) * 3)).
  2:{ intros y. rewrite (length_flat_map_const _ _ 3) by reflexivity.
      now rewrite length_range. }
  rewrite !length_range. unfold numel. cbn [fold_right].
  destruct (Z.le_gt_cases (im_height im) 0) as [Hh|Hh].
  { replace (Z.to_nat (im_height im)) with 0%nat by lia. cbn. lia. }
  destruct (Z.le_gt_cases (im_width im) 0) as [Hw|Hw].
  { replace (Z.to_nat (im_width im)) with 0%nat by lia. lia. }
  rewrite !Z2Nat.inj_mul by lia. cbn. lia.
Qed.

Lemma decode_image_array (L : Libs) (width height : Z) (d : option bytes) (t : tensor) :
  decode_image L width height d = Ret t ->
  exists arr,
    t = unsqueeze0 (div_scalar (astype_float32 arr) f64_255) /\
    shape arr = [height; width; 3] /\
    (List.length (elems arr) <= numel (shape arr))%nat.
Proof.
  unfold decode_image.
  destruct (Image_open L (buffer_of d)) as [im|e]; cbn [obind]; [|discriminate].
  destruct (if negb (im_mode im =? "RGB")%string
            then Image_convert L im "RGB" else Ret im) as [im1|e];
    cbn [obind]; [|discriminate].
  destruct (negb (im_width im1 =? width) || negb (im_height im1 =? height)) eqn:Esize.
  - unfold Image_resize_LANCZOS.
    destruct (resize_LANCZOS_pixels L im1 width height) as [px|e];
      cbn [obind]; [|discriminate].
    match goal with
    | |- obind (np_array ?im) _ = _ -> _ =>
        destruct (np_array im) as [arr|e] eqn:Ea; cbn [obind]; [|discriminate];
        destruct (np_array_size im arr Ea) as [Hs Hl]
    end.
    intros [= <-]. exists arr. cbn [im_height im_width] in Hs. auto.
  - apply orb_false_elim in Esize as [Ew Eh].
    apply negb_false_iff, Z.eqb_eq in Ew. apply negb_false_iff, Z.eqb_eq in Eh.
    cbn [obind].
    destruct (np_array im1) as [arr|e] eqn:Ea; cbn [obind]; [|discriminate].
    destruct (np_array_size im1 arr Ea) as [Hs Hl].
    intros [= <-]. exists arr. rewrite Ew, Eh in Hs. auto.
Qed.

(** X14: an image the node returned can be handed back as a reference
    image without loss.  The tensor a response part decodes to passes the
    shape test, and scaling its samples by 255 and casting them to bytes
    gives back exactly the pixel array that was decoded, of shape
    [(height, width, 3)]: that array is what [Image.fromarray] is given.
    The cast has to be the C cast, which cuts off the fraction of a sample
    whose integer part is a byte. *)
Theorem returned_image_is_a_lossless_reference (L : Libs) (width height : Z)
  (p : part) (t : tensor) :
  C_cast (cast_uint8 L) ->
  part_image L width height p = Some t ->
  exists pixels : ndarray byte,
    shape pixels = [height; width; 3] /\
    elems t = map sample_of_byte (elems pixels) /\
    single_batch t = true /\
    astype_uint8 L (mul_scalar (first_item t) (f64_of_Z 255)) = pixels /\
    to_pil L t = Image_fromarray L pixels.
Proof.
  intros Hc Hp. unfold part_image, part_decoding in Hp.
  destruct (text p); [discriminate|].
  destruct (inline_data p) as [inline|]; [|discriminate].
  destruct (decode_image L width height (sniffed L (data inline))) as [t'|e] eqn:E;
    [|discriminate].
  injection Hp as <-.
  destruct (decode_image_array L width height _ _ E) as (arr & -> & Hs & Hl).
  exists arr. split; [exact Hs|]. split.
  { cbn [unsqueeze0 div_scalar astype_float32 elems]. now rewrite map_map. }
  split; [unfold single_batch; cbn [unsqueeze0 shape div_scalar astype_float32];
          now rewrite Hs|].
  pose proof (pixel_array_back L arr Hc Hl) as Hb. split; [exact Hb|].
  unfold to_pil. cbv zeta. now rewrite Hb.
Qed.

Lemma sample_cast_uint8_truncates : C_cast sample_cast_uint8.
Proof.
  intros x z Ht Hz.
  destruct x as [s|s| |s m e]; unfold trunc in Ht; cbv zeta in Ht; try discriminate.
  - injection Ht as <-. reflexivity.
  - assert (Hm : (if 0 <=? e then Zpos m * 2 ^ e else Zpos m / 2 ^ (- e))
                 = Z.shiftl (Zpos m) e).
    { destruct (Z.leb_spec 0 e).
      - now rewrite Z.shiftl_mul_pow2.
      - now rewrite Z.shiftl_div_pow2 by lia. }
    rewrite Hm in Ht. clear Hm.
    assert (Hpos : 0 <= Z.shiftl (Zpos m) e) by (apply Z.shiftl_nonneg; lia).
    unfold sample_cast_uint8. destruct s.
    + assert (z = 0) as -> by (injection Ht as <-; lia). reflexivity.
    + assert (Z.shiftl (Zpos m) e = z) as -> by congruence.
      rewrite Z.mod_small by lia.
      destruct (Byte.of_N (Z.to_N z)) as [b|] eqn:Eb.
      * apply Byte.to_of_N in Eb. rewrite Eb. lia.
      * apply Byte.of_N_None_iff in Eb. lia.
Qed.

Lemma returned_image_is_a_lossless_reference_witness :
  exists pixels : ndarray byte,
    shape pixels = [3; 4; 3] /\
    elems png_part_tensor = map sample_of_byte (elems pixels) /\
    single_batch png_part_tensor = true /\
    astype_uint8 offline_libs (mul_scalar (first_item png_part_tensor) (f64_of_Z 255))
    = pixels /\
    to_pil offline_libs png_part_tensor = Image_fromarray offline_libs pixels.
Proof.
  apply (returned_image_is_a_lossless_reference offline_libs 4 3 png_part
           png_part_tensor).
  - exact sample_cast_uint8_truncates.
  - vm_compute. reflexivity.
Defined.

(** ** The constructor *)

(** X15: the constructor never raises, whatever is installed and whatever
    the version look-ups and comparisons do.  It starts the log afresh,
    leaves at most six lines in it and touches nothing else.  When the
    version of google-genai is found, the first line names it; when it is
    not, the only line says that the version information cannot be
    checked. *)
Theorem init_never_raises (I : Installed) (st : state) :
  exists msgs,
    __init__ I st = (Ret tt, set_log st msgs) /\
    (List.length msgs <= 6)%nat /\
    (forall v, metadata_version_genai I = Ret v ->
               hd_error msgs = Some ("Current google-genai version: " ++ v)) /\
    (forall e, metadata_version_genai I = Raise e ->
               msgs = ["Unable to check version information: " ++ exn_str e]).
Proof.
  unfold __init__, reset_log, try_except, bind, lift, log, raise, ret.
  cbn [log_messages set_log].
  destruct (metadata_version_genai I) as [v|e].
  2:{ eexists. split; [reflexivity|]. cbn [List.length app log_messages set_log hd_error]. split; [lia|].
      split; [discriminate | now intros e' [= ->]]. }
  assert (Hv : forall msgs : list string,
             hd_error (("Current google-genai version: " ++ v) :: msgs)
             = Some ("Current google-genai version: " ++ v)) by reflexivity.
  destruct (import_PIL_version I) as [pv|pe];
    (destruct (packaging_import_error I) as [ie|];
     [ eexists; split; [reflexivity|]; cbn [List.length app log_messages set_log hd_error];
       split; [lia|]; split; [now intros v' [= ->] | discriminate]
     | ]);
    (destruct (version_lt I v "1.5.0") as [[|]|ce];
     [ | | eexists; split; [reflexivity|]; cbn [List.length app log_messages set_log hd_error];
           split; [lia|]; split; [now intros v' [= ->] | discriminate] ]).
  all: try (destruct (version_lt I pv "9.5.0") as [[|]|ce]).
  all: eexists; (split; [reflexivity|]); cbn [List.length app log_messages set_log hd_error];
    (split; [lia|]); (split; [now intros v' [= ->] | discriminate]).
Qed.

(** The constructor run on two installations: google-genai 1.2.0 with
    Pillow 11.0.0, and no metadata for google-genai. *)
Example init_logs :
  __init__ sample_installed fresh_state
  = (Ret tt,
     set_log fresh_state
       ["Current google-genai version: 1.2.0";
        "Current PIL/Pillow version: 11.0.0";
        "Warning: google-genai version is too low, recommend upgrading to the latest version";
        "Suggested command: pip install -q -U google-genai"]) /\
  __init__ bare_installed fresh_state
  = (Ret tt,
     set_log fresh_state
       ["Unable to check version information: No package metadata was found for google-genai"]).
Proof. split; reflexivity. Qed.

(** ** [validate_and_fix_tensor] *)

Lemma isnan_true (x : spec_float) : isnan x = true -> x = S754_nan.
Proof. destruct x; (discriminate || reflexivity). Qed.

Lemma SFcompare_none (x y : spec_float) :
  SFcompare x y = None -> isnan x = true \/ isnan y = true.
Proof. destruct x, y; cbn; (discriminate || auto). Qed.

Lemma SFcompare_zero_antisym (x : spec_float) :
  SFcompare (S754_zero false) x = option_map CompOpp (SFcompare x (S754_zero false)).
Proof. destruct x as [s|s| |s m e]; try destruct s; reflexivity. Qed.

Lemma unit_interval_tests (x : f32) :
  isnan x = false ->
  in_unit_interval x
  = negb (SFltb x (S754_zero false)) && negb (SFltb (f32_of_Z 1) x).
Proof.
  intros Hn. unfold in_unit_interval, SFleb, SFltb.
  rewrite SFcompare_zero_antisym.
  change (f32_of_Z 1) with (S754_finite false 8388608 (-23)).
  rewrite (SFcompare_antisym_finite x 8388608 (-23)).
  destruct (SFcompare x (S754_zero false)) as [c0|] eqn:E0.
  2:{ apply SFcompare_none in E0 as [E0|E0]; [congruence | discriminate E0]. }
  destruct (SFcompare x (S754_finite false 8388608 (-23))) as [c1|] eqn:E1.
  2:{ apply SFcompare_none in E1 as [E1|E1]; [congruence | discriminate E1]. }
  destruct c0, c1; reflexivity.
Qed.

Lemma in_unit_interval_not_nan (x : f32) : in_unit_interval x = true -> isnan x = false.
Proof. destruct x; (discriminate || reflexivity). Qed.

Lemma clamp_0_1_unit (x : f32) :
  isnan x = false -> in_unit_interval (clamp_0_1 x) = true.
Proof.
  intros Hn. unfold clamp_0_1. rewrite Hn.
  destruct (SFltb x (S754_zero false)) eqn:E0; [reflexivity|].
  destruct (SFltb (f32_of_Z 1) x) eqn:E1; [reflexivity|].
  now rewrite unit_interval_tests, E0, E1.
Qed.

Lemma min2_choice (a b : f32) : min2 a b = a \/ min2 a b = b.
Proof. unfold min2. destruct (isnan a), (isnan b), (SFltb b a); auto. Qed.

Lemma max2_choice (a b : f32) : max2 a b = a \/ max2 a b = b.
Proof. unfold max2. destruct (isnan a), (isnan b), (SFltb a b); auto. Qed.

Lemma fold_choice_in (f : f32 -> f32 -> f32) (rest : list f32) :
  (forall a b, f a b = a \/ f a b = b) ->
  forall x, In (fold_left f rest x) (x :: rest).
Proof.
  intros Hf. induction rest as [|y rest IH]; intros x; [now left|].
  cbn [fold_left]. destruct (IH (f x y)) as [H|H].
  - rewrite <- H. destruct (Hf x y) as [E|E]; rewrite E; cbn; auto.
  - right. now right.
Qed.

Lemma fold_nan (f : f32 -> f32 -> f32) (rest : list f32) :
  (forall b, f S754_nan b = S754_nan) ->
  (forall a, f a S754_nan = S754_nan) ->
  forall x, In S754_nan (x :: rest) -> fold_left f rest x = S754_nan.
Proof.
  intros Hl Hr. induction rest as [|y rest IH]; intros x [H|H].
  - now subst.
  - destruct H.
  - subst. cbn [fold_left]. rewrite Hl. apply IH. now left.
  - cbn [fold_left]. destruct H as [->|H].
    + rewrite Hr. apply IH. now left.
    + apply IH. now right.
Qed.

Lemma min2_nan_l (b : f32) : min2 S754_nan b = S754_nan.
Proof. reflexivity. Qed.

Lemma min2_nan_r (a : f32) : min2 a S754_nan = S754_nan.
Proof. unfold min2. destruct (isnan a) eqn:E; [now apply isnan_true | reflexivity]. Qed.

Lemma max2_nan_l (b : f32) : max2 S754_nan b = S754_nan.
Proof. reflexivity. Qed.

Lemma max2_nan_r (a : f32) : max2 a S754_nan = S754_nan.
Proof. unfold max2. destruct (isnan a) eqn:E; [now apply isnan_true | reflexivity]. Qed.

(** With a NaN among the samples neither test of the value range fires. *)
Lemma range_tests_with_nan (x : f32) (rest : list f32) :
  Exists (fun v => isnan v = true) (x :: rest) ->
  SFltb (fold_left min2 rest x) (S754_zero false)
  || SFltb (f32_of_Z 1) (fold_left max2 rest x) = false.
Proof.
  intros H. apply Exists_exists in H as (v & Hin & Hv). apply isnan_true in Hv. subst v.
  rewrite (fold_nan min2 rest min2_nan_l min2_nan_r x Hin).
  rewrite (fold_nan max2 rest max2_nan_l max2_nan_r x Hin). reflexivity.
Qed.

(** With every sample between 0 and 1 neither test fires. *)
Lemma range_tests_in_unit (x : f32) (rest : list f32) :
  Forall (fun v => in_unit_interval v = true) (x :: rest) ->
  SFltb (fold_left min2 rest x) (S754_zero false)
  || SFltb (f32_of_Z 1) (fold_left max2 rest x) = false.
Proof.
  intros H. rewrite Forall_forall in H.
  pose proof (H _ (fold_choice_in min2 rest min2_choice x)) as Hmin.
  pose proof (H _ (fold_choice_in max2 rest max2_choice x)) as Hmax.
  rewrite unit_interval_tests in Hmin by now apply in_unit_interval_not_nan.
  rewrite unit_interval_tests in Hmax by now apply in_unit_interval_not_nan.
  apply andb_prop in Hmin as [Hmin _]. apply andb_prop in Hmax as [_ Hmax].
  apply negb_true_iff in Hmin, Hmax. now rewrite Hmin, Hmax.
Qed.

(** The order of [SFcompare] around 0 and around 1. *)

Lemma finite_lt_iff (m1 m2 : positive) (e1 e2 : Z) :
  SFltb (S754_finite false m1 e1) (S754_finite false m2 e2) = true
  <-> e1 < e2 \/ (e1 = e2 /\ (m1 < m2)%positive).
Proof.
  unfold SFltb, SFcompare.
  change (Pos.compare_cont Eq m1 m2) with (Pos.compare m1 m2).
  destruct (Z.compare_spec e1 e2) as [E|E|E].
  - destruct (Pos.compare_spec m1 m2) as [M|M|M];
      (split; [intros H; try discriminate H; lia | intros H; (reflexivity || lia)]).
  - split; [lia | reflexivity].
  - split; [discriminate | lia].
Qed.

Lemma below_zero_trans (x y : spec_float) :
  SFltb x (S754_zero false) = true -> SFltb y x = true ->
  SFltb y (S754_zero false) = true.
Proof.
  unfold SFltb, SFcompare.
  destruct x as [[]|[]| |[] mx ex], y as [[]|[]| |[] my ey];
    intros Hx Hy; try discriminate; reflexivity.
Qed.

Lemma below_zero_total (x y : spec_float) :
  isnan x = false ->
  SFltb y (S754_zero false) = true -> SFltb x (S754_zero false) = false ->
  SFltb y x = true.
Proof.
  unfold SFltb, SFcompare, isnan.
  destruct x as [[]|[]| |[] mx ex], y as [[]|[]| |[] my ey];
    intros Hn Hy Hx; try discriminate; reflexivity.
Qed.

Lemma above_one_trans (x y : spec_float) :
  SFltb (f32_of_Z 1) x = true -> SFltb x y = true -> SFltb (f32_of_Z 1) y = true.
Proof.
  change (f32_of_Z 1) with (S754_finite false 8388608 (-23)).
  destruct x as [[]|[]| |[] mx ex], y as [[]|[]| |[] my ey];
    intros Hx Hy;
    try solve [unfold SFltb, SFcompare in *; (discriminate || reflexivity)].
  apply finite_lt_iff in Hx, Hy. apply finite_lt_iff. lia.
Qed.

Lemma above_one_total (x y : spec_float) :
  isnan x = false ->
  SFltb (f32_of_Z 1) y = true -> SFltb (f32_of_Z 1) x = false ->
  SFltb x y = true.
Proof.
  change (f32_of_Z 1) with (S754_finite false 8388608 (-23)).
  destruct x as [[]|[]| |[] mx ex], y as [[]|[]| |[] my ey];
    intros Hn Hy Hx;
    try solve [unfold SFltb, SFcompare, isnan in *; (discriminate || reflexivity)].
  apply finite_lt_iff in Hy. apply finite_lt_iff.
  destruct (SFltb (S754_finite false 8388608 (-23)) (S754_finite false mx ex)) eqn:E;
    [discriminate|].
  assert (Hnot : ~ (-23 < ex \/ (-23 = ex /\ (8388608 < mx)%positive))).
  { intros H. apply finite_lt_iff in H. congruence. }
  lia.
Qed.

Lemma min2_not_nan (a b : f32) :
  isnan a = false -> isnan b = false -> isnan (min2 a b) = false.
Proof. intros Ha Hb. destruct (min2_choice a b) as [->| ->]; assumption. Qed.

Lemma max2_not_nan (a b : f32) :
  isnan a = false -> isnan b = false -> isnan (max2 a b) = false.
Proof. intros Ha Hb. destruct (max2_choice a b) as [->| ->]; assumption. Qed.

(** When the least sample is not below 0, no sample is. *)
Lemma min_is_lower_bound (rest : list f32) :
  forall x,
    Forall (fun v => isnan v = false) (x :: rest) ->
    SFltb (fold_left min2 rest x) (S754_zero false) = false ->
    Forall (fun v => SFltb v (S754_zero false) = false) (x :: rest).
Proof.
  induction rest as [|y rest IH]; intros x Hn Hm; [now constructor|].
  cbn [fold_left] in Hm.
  inversion Hn as [|? ? Hx Hn']; subst. inversion Hn' as [|? ? Hy Hn'']; subst.
  assert (H : Forall (fun v => SFltb v (S754_zero false) = false) (min2 x y :: rest)).
  { apply IH; [|exact Hm]. constructor; [now apply min2_not_nan | assumption]. }
  inversion H as [|? ? Hxy Hrest]; subst.
  unfold min2 in Hxy. rewrite Hx, Hy in Hxy.
  assert (Hboth : SFltb x (S754_zero false) = false /\ SFltb y (S754_zero false) = false).
  { destruct (SFltb y x) eqn:Eyx.
    - split; [|exact Hxy]. destruct (SFltb x (S754_zero false)) eqn:Ex; [|reflexivity].
      rewrite (below_zero_trans x y Ex Eyx) in Hxy. discriminate.
    - split; [exact Hxy|]. destruct (SFltb y (S754_zero false)) eqn:Ey; [|reflexivity].
      rewrite (below_zero_total x y Hx Ey Hxy) in Eyx. discriminate. }
  destruct Hboth. repeat constructor; assumption.
Qed.

(** When the greatest sample is not above 1, no sample is. *)
Lemma max_is_upper_bound (rest : list f32) :
  forall x,
    Forall (fun v => isnan v = false) (x :: rest) ->
    SFltb (f32_of_Z 1) (fold_left max2 rest x) = false ->
    Forall (fun v => SFltb (f32_of_Z 1) v = false) (x :: rest).
Proof.
  induction rest as [|y rest IH]; intros x Hn Hm; [now constructor|].
  cbn [fold_left] in Hm.
  inversion Hn as [|? ? Hx Hn']; subst. inversion Hn' as [|? ? Hy Hn'']; subst.
  assert (H : Forall (fun v => SFltb (f32_of_Z 1) v = false) (max2 x y :: rest)).
  { apply IH; [|exact Hm]. constructor; [now apply max2_not_nan | assumption]. }
  inversion H as [|? ? Hxy Hrest]; subst.
  unfold max2 in Hxy. rewrite Hx, Hy in Hxy.
  assert (Hboth : SFltb (f32_of_Z 1) x = false /\ SFltb (f32_of_Z 1) y = false).
  { destruct (SFltb x y) eqn:Exy.
    - split; [|exact Hxy]. destruct (SFltb (f32_of_Z 1) x) eqn:Ex; [|reflexivity].
      rewrite (above_one_trans x y Ex Exy) in Hxy. discriminate.
    - split; [exact Hxy|]. destruct (SFltb (f32_of_Z 1) y) eqn:Ey; [|reflexivity].
      rewrite (above_one_total x y Hx Ey Hxy) in Exy. discriminate. }
  destruct Hboth. repeat constructor; assumption.
Qed.

Lemma contiguous_same (t : float32_tensor) : t_contiguous t = true -> contiguous t = t.
Proof. destruct t. cbn. now intros ->. Qed.

Section Validation.

Variable L : Libs.

(** The run of [validate_and_fix_tensor] on a tensor. *)
Lemma validate_and_fix_tensor_run (tensor : torch_tensor) (name : string) (st : state) :
  exists msgs,
    validate_and_fix_tensor L (Some tensor) name st
    = (Ret (validated tensor),
       add_logs st (("Validating " ++ name ++ ": shape="
                     ++ str_of_shape (t_shape (to_float32 tensor))
                     ++ ", type=" ++ dtype_name tensor
                     ++ ", device=" ++ t_device (to_float32 tensor)) :: msgs)).
Proof.
  unfold validate_and_fix_tensor, validated, try_except. cbv zeta.
  rewrite run_bind_log. cbv beta.
  destruct (negb (Z.of_nat (List.length (t_shape (to_float32 tensor))) =? 4)).
  { rewrite run_bind_log. cbv beta iota. rewrite add_logs_app. eexists. reflexivity. }
  destruct (negb (nth 1 (t_shape (to_float32 tensor)) 0 =? 3)).
  { rewrite run_bind_log. cbv beta iota. rewrite add_logs_app. eexists. reflexivity. }
  set (t := to_float32 tensor).
  assert (Hconv : exists m1,
             forall B (f : float32_tensor -> M B) s,
               bind match tensor with
                    | Float32 t0 => ret t0
                    | OtherDtype dtype t0 =>
                        log ("Correcting " ++ name ++ " type: " ++ dtype
                               ++ " -> torch.float32");;
                        ret t0
                    end f s
               = f t (add_logs s m1)).
  { destruct tensor as [t0|dtype t0].
    - exists []. intros B f s. now rewrite run_bind_ret, add_logs_nil.
    - eexists. intros B f s. rewrite run_bind_assoc, run_bind_log. cbv beta.
      rewrite run_bind_ret. reflexivity. }
  destruct Hconv as (m1 & ->).
  assert (Hcont : exists m2,
             forall B (f : float32_tensor -> M B) s,
               bind (if negb (t_contiguous t)
                     then log ("Correcting " ++ name
                               ++ " memory layout: making it contiguous");;
                          ret (contiguous t)
                     else ret t) f s
               = f (contiguous t) (add_logs s m2)).
  { destruct (t_contiguous t) eqn:Ec; cbn [negb].
    - exists []. intros B f s.
      now rewrite run_bind_ret, add_logs_nil, contiguous_same.
    - eexists. intros B f s. rewrite run_bind_assoc, run_bind_log. cbv beta.
      rewrite run_bind_ret. reflexivity. }
  destruct Hcont as (m2 & ->). cbn [contiguous t_values].
  destruct (t_values t) as [|x rest].
  { cbn [tensor_min]. rewrite run_bind_lift_raise. cbv beta iota.
    rewrite run_bind_log. rewrite !add_logs_app. eexists. reflexivity. }
  cbn [tensor_min tensor_max]. rewrite !run_bind_lift_ret.
  destruct (SFltb (fold_left min2 rest x) (S754_zero false)
            || SFltb (f32_of_Z 1) (fold_left max2 rest x)).
  - rewrite run_bind_assoc, run_bind_log. cbv beta. rewrite !run_bind_ret.
    cbv beta iota. rewrite !add_logs_app. eexists. reflexivity.
  - rewrite !run_bind_ret. cbv beta iota. rewrite !add_logs_app.
    eexists. reflexivity.
Qed.

End Validation.

Lemma validated_none (tensor : torch_tensor) :
  validated tensor = None <->
  Z.of_nat (List.length (t_shape (to_float32 tensor))) <> 4
  \/ nth 1 (t_shape (to_float32 tensor)) 0 <> 3
  \/ t_values (to_float32 tensor) = [].
Proof.
  unfold validated. cbv zeta.
  destruct (Z.eqb_spec (Z.of_nat (List.length (t_shape (to_float32 tensor)))) 4) as [E4|E4];
    cbn [negb]; [|tauto].
  destruct (Z.eqb_spec (nth 1 (t_shape (to_float32 tensor)) 0) 3) as [E3|E3];
    cbn [negb]; [|tauto].
  destruct (t_values (to_float32 tensor)) as [|x rest]; [tauto|].
  destruct (SFltb (fold_left min2 rest x) (S754_zero false)
            || SFltb (f32_of_Z 1) (fold_left max2 rest x));
    (split; [discriminate|]); intros [H|[H|H]]; (contradiction || discriminate).
Qed.

(** X16: [validate_and_fix_tensor] never raises and always logs.  It gives
    no tensor, rather than raising, for a missing tensor, for one that
    does not have four dimensions, for one whose second dimension is not 3,
    and for one without elements; every other tensor is handed back. *)
Theorem validate_and_fix_tensor_never_raises (L : Libs)
  (tensor : option torch_tensor) (name : string) (st : state) :
  exists r msgs,
    validate_and_fix_tensor L tensor name st = (Ret r, add_logs st msgs) /\
    msgs <> [] /\
    (r = None <->
     match tensor with
     | None => True
     | Some t =>
         Z.of_nat (List.length (t_shape (to_float32 t))) <> 4
         \/ nth 1 (t_shape (to_float32 t)) 0 <> 3
         \/ t_values (to_float32 t) = []
     end).
Proof.
  destruct tensor as [t|].
  - destruct (validate_and_fix_tensor_run L t name st) as (msgs & E).
    eexists _, _. split; [exact E|]. split; [discriminate|]. apply validated_none.
  - exists None, ["Warning: " ++ name ++ " is None"].
    split; [reflexivity|]. split; [discriminate | tauto].
Qed.

Lemma validated_some (tensor : torch_tensor) (t' : float32_tensor) :
  validated tensor = Some t' ->
  exists x rest,
    t_values (to_float32 tensor) = x :: rest /\
    Z.of_nat (List.length (t_shape (to_float32 tensor))) = 4 /\
    nth 1 (t_shape (to_float32 tensor)) 0 = 3 /\
    t' = (if SFltb (fold_left min2 rest x) (S754_zero false)
             || SFltb (f32_of_Z 1) (fold_left max2 rest x)
          then clamp (contiguous (to_float32 tensor))
          else contiguous (to_float32 tensor)).
Proof.
  unfold validated. cbv zeta.
  destruct (Z.eqb_spec (Z.of_nat (List.length (t_shape (to_float32 tensor)))) 4) as [E4|E4];
    cbn [negb]; [|discriminate].
  destruct (Z.eqb_spec (nth 1 (t_shape (to_float32 tensor)) 0) 3) as [E3|E3];
    cbn [negb]; [|discriminate].
  destruct (t_values (to_float32 tensor)) as [|x rest]; [discriminate|].
  intros H. exists x, rest. repeat split; try assumption.
  destruct (SFltb (fold_left min2 rest x) (S754_zero false)
            || SFltb (f32_of_Z 1) (fold_left max2 rest x)); congruence.
Qed.

(** X17: a tensor [validate_and_fix_tensor] hands back has the shape and
    the device it came with, four dimensions of which the second is 3, is
    contiguous and has as many samples as before.  When no sample is a NaN,
    every sample of the result lies between 0 and 1; samples that lay there
    already are not changed.  With a NaN among the samples nothing is
    clamped: the samples are handed back as they are, whatever their
    range. *)
Theorem validated_tensor_is_well_formed (L : Libs) (tensor : torch_tensor)
  (name : string) (st : state) (t' : float32_tensor) :
  fst (validate_and_fix_tensor L (Some tensor) name st) = Ret (Some t') ->
  let values := t_values (to_float32 tensor) in
  t_shape t' = t_shape (to_float32 tensor) /\
  Z.of_nat (List.length (t_shape t')) = 4 /\ nth 1 (t_shape t') 0 = 3 /\
  t_device t' = t_device (to_float32 tensor) /\
  t_contiguous t' = true /\
  List.length (t_values t') = List.length values /\
  (Forall (fun v => isnan v = false) values ->
   Forall (fun v => in_unit_interval v = true) (t_values t')) /\
  (Forall (fun v => in_unit_interval v = true) values -> t_values t' = values) /\
  (Exists (fun v => isnan v = true) values -> t_values t' = values).
Proof.
  intros H values.
  destruct (validate_and_fix_tensor_run L tensor name st) as (msgs & E).
  rewrite E in H. cbn [fst] in H. injection H as H.
  destruct (validated_some tensor t' H) as (x & rest & Hv & H4 & H3 & ->).
  unfold values. rewrite Hv.
  destruct (SFltb (fold_left min2 rest x) (S754_zero false)
            || SFltb (f32_of_Z 1) (fold_left max2 rest x)) eqn:Etest;
    cbn [clamp contiguous t_shape t_device t_contiguous t_values]; rewrite ?Hv;
    repeat split; try assumption; try reflexivity.
  - now rewrite length_map.
  - intros Hn. apply Forall_map. eapply Forall_impl; [|exact Hn].
    intros v. apply clamp_0_1_unit.
  - intros Hu. rewrite (range_tests_in_unit x rest Hu) in Etest. discriminate.
  - intros Hn. rewrite (range_tests_with_nan x rest Hn) in Etest. discriminate.
  - intros Hn. apply orb_false_elim in Etest as [Emin Emax].
    pose proof (min_is_lower_bound rest x Hn Emin) as Hlow.
    pose proof (max_is_upper_bound rest x Hn Emax) as Hup.
    rewrite Forall_forall in *. intros v Hin.
    rewrite unit_interval_tests by now apply Hn.
    now rewrite (Hlow v Hin), (Hup v Hin).
Qed.

Lemma validated_tensor_is_well_formed_witness :
  let values := t_values (to_float32 channels_first_tensor) in
  t_shape channels_first_fixed = t_shape (to_float32 channels_first_tensor) /\
  Z.of_nat (List.length (t_shape channels_first_fixed)) = 4 /\
  nth 1 (t_shape channels_first_fixed) 0 = 3 /\
  t_device channels_first_fixed = t_device (to_float32 channels_first_tensor) /\
  t_contiguous channels_first_fixed = true /\
  List.length (t_values channels_first_fixed) = List.length values /\
  (Forall (fun v => isnan v = false) values ->
   Forall (fun v => in_unit_interval v = true) (t_values channels_first_fixed)) /\
  (Forall (fun v => in_unit_interval v = true) values ->
   t_values channels_first_fixed = values) /\
  (Exists (fun v => isnan v = true) values -> t_values channels_first_fixed = values).
Proof.
  apply (validated_tensor_is_well_formed offline_libs channels_first_tensor "image"
           fresh_state channels_first_fixed).
  vm_compute. reflexivity.
Defined.

(** X18: [validate_and_fix_tensor] asks for the channels in the second
    dimension, while the images of the node have them in the last one: a
    tensor of shape [(1, height, width, 3)] as [generate_empty_image] and
    the response loops make it, in particular the placeholder image, is
    turned down with the message that the channel count is not 3, unless
    its height is 3. *)
Theorem node_images_fail_validation (L : Libs) (t : tensor) (width height : Z)
  (name : string) (st : state) :
  shape t = [1; height; width; 3] -> height <> 3 ->
  validate_and_fix_tensor L (Some (from_numpy t)) name st
  = (Ret None,
     add_logs st
       ["Validating " ++ name ++ ": shape=" ++ str_of_shape [1; height; width; 3]
        ++ ", type=torch.float32, device=cpu";
        "Error: " ++ name ++ " channel count is not 3: " ++ str_of_Z height]) /\
  fst (validate_and_fix_tensor L (Some (from_numpy (placeholder width height)))
         name st)
  = Ret None.
Proof.
  intros Hs Hh.
  assert (H : forall t0 : tensor,
             shape t0 = [1; height; width; 3] ->
             validate_and_fix_tensor L (Some (from_numpy t0)) name st
             = (Ret None,
                add_logs st
                  ["Validating " ++ name ++ ": shape="
                   ++ str_of_shape [1; height; width; 3]
                   ++ ", type=torch.float32, device=cpu";
                   "Error: " ++ name ++ " channel count is not 3: "
                   ++ str_of_Z height])).
  { intros t0 H0. unfold validate_and_fix_tensor, try_except. cbv zeta.
    cbn [from_numpy to_float32 t_shape t_device dtype_name]. rewrite H0.
    rewrite run_bind_log. cbv beta.
    change (Z.of_nat (List.length [1; height; width; 3]) =? 4) with true.
    cbn [negb nth]. destruct (Z.eqb_spec height 3) as [|_]; [contradiction|].
    cbn [negb]. rewrite run_bind_log. cbv beta iota. now rewrite add_logs_app. }
  split; [now apply H|]. now rewrite (H _ (placeholder_shape width height)).
Qed.

Lemma node_images_fail_validation_witness :
  validate_and_fix_tensor offline_libs (Some (from_numpy rgb_pixel)) "image"
    fresh_state
  = (Ret None,
     add_logs fresh_state
       ["Validating image: shape=" ++ str_of_shape [1; 1; 1; 3]
        ++ ", type=torch.float32, device=cpu";
        "Error: image channel count is not 3: " ++ str_of_Z 1]) /\
  fst (validate_and_fix_tensor offline_libs (Some (from_numpy (placeholder 1 1)))
         "image" fresh_state)
  = Ret None.
Proof.
  apply (node_images_fail_validation offline_libs rgb_pixel 1 1 "image" fresh_state).
  - reflexivity.
  - lia.
Defined.

(** X19: validating twice changes nothing more: a tensor that
    [validate_and_fix_tensor] handed back is handed back as it is when it
    is validated again, under any name and in any state. *)
Theorem validation_is_idempotent (L : Libs) (tensor : torch_tensor)
  (name name' : string) (st st' : state) (t' : float32_tensor) :
  fst (validate_and_fix_tensor L (Some tensor) name st) = Ret (Some t') ->
  fst (validate_and_fix_tensor L (Some (Float32 t')) name' st') = Ret (Some t').
Proof.
  intros H.
  destruct (validate_and_fix_tensor_run L tensor name st) as (msgs & E).
  rewrite E in H. cbn [fst] in H. injection H as H.
  destruct (validate_and_fix_tensor_run L (Float32 t') name' st') as (msgs' & ->).
  cbn [fst]. f_equal.
  destruct (validated_some tensor t' H) as (x & rest & Hv & H4 & H3 & Ht).
  set (t := to_float32 tensor) in *.
  assert (Hshape : t_shape t' = t_shape t).
  { rewrite Ht. now destruct (_ || _). }
  assert (Hcont : t_contiguous t' = true).
  { rewrite Ht. now destruct (_ || _). }
  assert (Hstable : exists x' rest',
             t_values t' = x' :: rest' /\
             SFltb (fold_left min2 rest' x') (S754_zero false)
             || SFltb (f32_of_Z 1) (fold_left max2 rest' x') = false).
  { destruct (SFltb (fold_left min2 rest x) (S754_zero false)
              || SFltb (f32_of_Z 1) (fold_left max2 rest x)) eqn:Etest.
    - assert (Hn : Forall (fun v => isnan v = false) (x :: rest)).
      { apply Forall_forall. intros v Hin. destruct (isnan v) eqn:Ev; [|reflexivity].
        rewrite range_tests_with_nan in Etest; [discriminate|].
        apply Exists_exists. now exists v. }
      assert (Hu : Forall (fun v => in_unit_interval v = true) (t_values t')).
      { rewrite Ht. cbn [clamp contiguous t_values]. rewrite Hv.
        apply Forall_map. eapply Forall_impl; [|exact Hn].
        intros v. apply clamp_0_1_unit. }
      destruct (t_values t') as [|x' rest'] eqn:Ev'.
      { rewrite Ht in Ev'. cbn [clamp contiguous t_values] in Ev'. rewrite Hv in Ev'.
        discriminate Ev'. }
      exists x', rest'. split; [reflexivity|]. now apply range_tests_in_unit.
    - exists x, rest. rewrite Ht. cbn [contiguous t_values]. now split. }
  destruct Hstable as (x' & rest' & Hv' & Htest').
  unfold validated. cbv zeta. cbn [to_float32]. rewrite Hshape.
  replace (Z.of_nat (List.length (t_shape t)) =? 4) with true
    by (symmetry; now apply Z.eqb_eq).
  replace (nth 1 (t_shape t) 0 =? 3) with true by (symmetry; now apply Z.eqb_eq).
  cbn [negb]. rewrite Hv', Htest'. now rewrite contiguous_same.
Qed.

Lemma validation_is_idempotent_witness :
  fst (validate_and_fix_tensor offline_libs (Some (Float32 channels_first_fixed))
         "again" fresh_state)
  = Ret (Some channels_first_fixed).
Proof.
  apply (validation_is_idempotent offline_libs channels_first_tensor "image" "again"
           fresh_state fresh_state channels_first_fixed).
  vm_compute. reflexivity.
Defined.

(** ** From one invocation to the next *)

(** X20: a key typed in once is remembered: after an invocation of either
    entry operation with a key of more than 10 characters, and with a key
    file that can be written and read, [get_api_key] called without a key
    returns that key, provided the key has no white space at its ends and
    no carriage return, which reading back would change. *)
Theorem key_typed_once_is_remembered (L : Libs) (prompt api_key model : string)
  (width height : Z) (temperature : f64) (seed : Z)
  (image image1 image2 image3 image4 : option tensor) (st : state) :
  10 < len api_key ->
  key_file_write_failure st api_key = None ->
  key_file_read_error st = None ->
  strip (universal_newlines api_key) = api_key ->
  fst (get_api_key ""
         (snd (generate_image L prompt api_key model width height temperature seed
                 image st)))
  = Ret api_key /\
  fst (get_api_key ""
         (snd (generate_image_multi L prompt api_key model width height temperature
                 seed image1 image2 image3 image4 st)))
  = Ret api_key.
Proof.
  intros Hk Hw Hr Hs.
  assert (H : forall calls msgs,
             fst (get_api_key ""
                    (set_log (set_api_calls (world_built L api_key seed st) calls) msgs))
             = Ret api_key).
  { intros calls msgs.
    destruct (get_api_key_run ""
                (set_log (set_api_calls (world_built L api_key seed st) calls) msgs))
      as (m & -> & _).
    cbn [fst]. f_equal. unfold resolved_key, stored_key, world_built.
    cbn [key_file key_file_read_error set_log set_api_calls set_rng_pos set_key_file].
    unfold key_file_after.
    replace (10 <? len api_key) with true by (symmetry; apply Z.ltb_lt; lia).
    rewrite Hw, Hr. cbv zeta. rewrite Hs.
    replace (10 <? len api_key) with true by (symmetry; apply Z.ltb_lt; lia).
    reflexivity. }
  split.
  - destruct (generate_image_state L prompt api_key model width height temperature
                seed image st) as (msgs & ->). apply H.
  - destruct (generate_image_multi_state L prompt api_key model width height
                temperature seed image1 image2 image3 image4 st) as (msgs & ->).
    apply H.
Qed.

Lemma key_typed_once_is_remembered_witness :
  fst (get_api_key ""
         (snd (generate_image offline_libs "a red ball" sample_key model_id 512 512
                 (f64_of_Z 1) 7 None fresh_state)))
  = Ret sample_key /\
  fst (get_api_key ""
         (snd (generate_image_multi offline_libs "a red ball" sample_key model_id
                 512 512 (f64_of_Z 1) 7 None None None None fresh_state)))
  = Ret sample_key.
Proof.
  apply (key_typed_once_is_remembered offline_libs "a red ball" sample_key model_id
           512 512 (f64_of_Z 1) 7 None None None None None fresh_state);
    vm_compute; reflexivity.
Defined.
